(** * riot-demo: the multi-platform resolution and aggregation engine

    A shallow embedding of the TypeScript sources
    (src/utils/riot-id-parser.ts, src/utils/platform-mapping.ts,
    src/utils/parallel-queries.ts, src/api/errors.ts, src/api/riot-client.ts,
    src/api/error-handler.ts, src/services/cache.ts, src/server/index.ts)
    together with the properties the specification states about them.

    Conventions of the embedding.
    - A JavaScript string is the list of its UTF-16 code units.
    - A call that can throw returns a [result]: [Return v] or [Throw e].
    - [console.log]/[console.error] output is an explicit list of log entries.
    - The in-process cache and the clock are passed explicitly.
    - An awaited upstream call is a function of its request; the fan-out of
      [Promise.allSettled] is modelled with an explicit completion order. *)

From stdpp Require Import gmap list pretty.
From Stdlib Require Import QArith Qround.

#[local] Open Scope Z_scope.

(* ================================================================== *)
(** * JavaScript values used by the sources                            *)
(* ================================================================== *)

Module JS.

(** A string: its UTF-16 code units. *)
Abbreviation jsstring := (list N).

(** ASCII literal to code units. *)
Fixpoint js (s : string) : jsstring :=
  match s with
  | EmptyString => []
  | String a r => Ascii.N_of_ascii a :: js r
  end.

(** An argument of dynamic type: the sources test [typeof x !== 'string']. *)
Inductive jsvalue : Type :=
  | JString (s : jsstring)
  | JNonString.

(** Numbers that are integral or one of the IEEE special values: the results
    of [parseInt] and [Math.round]. *)
Inductive jsnum : Type :=
  | Int (z : Z)
  | NaN
  | PosInfinity
  | NegInfinity.

(** Numbers in the middle of an arithmetic expression: IEEE 754 doubles.  A
    finite double is the rational it stands for, and every operation rounds
    its exact result to the nearest double ([roundDouble]); the special
    values follow IEEE 754 as JavaScript does.  The sign of a zero is not
    represented: every zero is the positive zero. *)
Inductive jsreal : Type :=
  | Real (q : Q)
  | RNaN
  | RPosInf
  | RNegInf.

Definition Qis0 (q : Q) : bool := (Qnum q =? 0)%Z.
Definition Qpos (q : Q) : bool := (0 <? Qnum q)%Z.

(** [z * 2^k] for [k >= 0], [z] itself otherwise. *)
Definition scale (z k : Z) : Z := z * 2 ^ Z.max 0 k.

(** The integer part of the binary logarithm of [n / d], for positive [n]
    and [d]. *)
Definition floorLog2 (n d : Z) : Z :=
  let k := Z.log2 n - Z.log2 d in
  if (scale d k <=? scale n (- k)) then k else k - 1.

(** [n / d] rounded to the nearest integer, a tie to the even one. *)
Definition roundHalfEven (n d : Z) : Z :=
  match 2 * (n mod d) ?= d with
  | Lt => n / d
  | Gt => n / d + 1
  | Eq => if Z.even (n / d) then n / d else n / d + 1
  end.

(** The double nearest to the rational [x], a tie to the even significand:
    53 significant bits, the least exponent [-1074] (subnormal numbers), and
    an infinity once the rounded magnitude reaches [2^1024]. *)
Definition roundDouble (x : Q) : jsreal :=
  if Qis0 x then Real 0
  else
    let n := Z.abs (Qnum x) in
    let d := Z.pos (Qden x) in
    let e := Z.max (floorLog2 n d - 52) (-1074) in
    let m := roundHalfEven (scale n (- e)) (scale d e) in
    if (scale (2 ^ 1024) (- e) <=? scale m e)
    then (if Qpos x then RPosInf else RNegInf)
    else Real (Z.sgn (Qnum x) * scale m e # Z.to_pos (scale 1 (- e))).

(** An integer as a Number. *)
Definition ofInt (z : Z) : jsreal := roundDouble (inject_Z z).

(** [a + b] *)
Definition add (a b : jsreal) : jsreal :=
  match a, b with
  | Real x, Real y => roundDouble (x + y)
  | RNaN, _ | _, RNaN => RNaN
  | RPosInf, RNegInf | RNegInf, RPosInf => RNaN
  | RPosInf, _ | _, RPosInf => RPosInf
  | RNegInf, _ | _, RNegInf => RNegInf
  end.

(** [a / b]; the zero divisor is the positive zero. *)
Definition div (a b : jsreal) : jsreal :=
  match a, b with
  | Real x, Real y =>
      if Qis0 y then
        if Qis0 x then RNaN else if Qpos x then RPosInf else RNegInf
      else roundDouble (x / y)
  | RNaN, _ | _, RNaN => RNaN
  | Real _, (RPosInf | RNegInf) => Real 0
  | (RPosInf | RNegInf), (RPosInf | RNegInf) => RNaN
  | RPosInf, Real y => if Qpos y || Qis0 y then RPosInf else RNegInf
  | RNegInf, Real y => if Qpos y || Qis0 y then RNegInf else RPosInf
  end.

(** [a * b] *)
Definition mul (a b : jsreal) : jsreal :=
  match a, b with
  | Real x, Real y => roundDouble (x * y)
  | RNaN, _ | _, RNaN => RNaN
  | Real x, RPosInf | RPosInf, Real x =>
      if Qis0 x then RNaN else if Qpos x then RPosInf else RNegInf
  | Real x, RNegInf | RNegInf, Real x =>
      if Qis0 x then RNaN else if Qpos x then RNegInf else RPosInf
  | RPosInf, RPosInf | RNegInf, RNegInf => RPosInf
  | RPosInf, RNegInf | RNegInf, RPosInf => RNegInf
  end.

(** [Math.round]: the nearest integer, ties towards +infinity. *)
Definition Math_round (a : jsreal) : jsnum :=
  match a with
  | Real x => Int (Qfloor (x + (1 # 2)))
  | RNaN => NaN
  | RPosInf => PosInfinity
  | RNegInf => NegInfinity
  end.

(** Decimal rendering of an integer, as [String(n)] gives it. *)
Definition digits (z : Z) : jsstring := js (pretty z).

(** [`${n}`] for an integral number. *)
Definition numToString (n : jsnum) : jsstring :=
  match n with
  | Int z => digits z
  | NaN => js "NaN"
  | PosInfinity => js "Infinity"
  | NegInfinity => js "-Infinity"
  end.

(** Truthiness of a number: [0] and [NaN] are falsy. *)
Definition numTruthy (n : jsnum) : bool :=
  match n with
  | Int z => negb (z =? 0)%Z
  | NaN => false
  | _ => true
  end.

(** ** Code units *)

Definition HASH : N := 35.
Definition PERCENT : N := 37.
Definition QUOTE : N := 34.

(** WhiteSpace and LineTerminator code points, the set [String.prototype.trim]
    strips. *)
Definition isWhiteSpace (c : N) : bool :=
  ((9 <=? c) && (c <=? 13) || (c =? 32) || (c =? 160) || (c =? 5760)
   || (8192 <=? c) && (c <=? 8202) || (c =? 8232) || (c =? 8233)
   || (c =? 8239) || (c =? 8287) || (c =? 12288) || (c =? 65279))%N.

Fixpoint trimStart (s : jsstring) : jsstring :=
  match s with
  | [] => []
  | c :: r => if isWhiteSpace c then trimStart r else s
  end.

Definition trimEnd (s : jsstring) : jsstring := rev (trimStart (rev s)).

(** [s.trim()] *)
Definition trim (s : jsstring) : jsstring := trimEnd (trimStart s).

(** [s.split(sep)] for a one-unit separator: never the empty array. *)
Fixpoint split (sep : N) (s : jsstring) : list jsstring :=
  match s with
  | [] => [[]]
  | c :: r =>
      if (c =? sep)%N then [] :: split sep r
      else match split sep r with
           | seg :: segs => (c :: seg) :: segs
           | [] => [[c]]
           end
  end.

(** [(s.match(/c/g) || []).length] for a one-unit pattern. *)
Definition countMatches (c : N) (s : jsstring) : nat :=
  length (filter (fun u => u = c) s).

(** ** [decodeURIComponent] (ECMA-262, Decode with an empty reserved set) *)

Definition hexDigit (c : N) : option N :=
  (if (48 <=? c) && (c <=? 57) then Some (c - 48)
   else if (65 <=? c) && (c <=? 70) then Some (c - 55)
   else if (97 <=? c) && (c <=? 102) then Some (c - 87)
   else None)%N.

Definition parseHexOctet (h l : N) : option N :=
  match hexDigit h, hexDigit l with
  | Some a, Some b => Some (16 * a + b)%N
  | _, _ => None
  end.

(** An escape [%hl] that must be a UTF-8 continuation octet [10xxxxxx];
    the result is its six payload bits. *)
Definition continuation (p h l : N) : option N :=
  (if p =? PERCENT then
     match parseHexOctet h l with
     | Some b => if (128 <=? b) && (b <? 192) then Some (b - 128) else None
     | None => None
     end
   else None)%N.

(** A decoded scalar value is accepted when it is not an overlong form
    (at least [lo]), not a surrogate and at most U+10FFFF. *)
Definition validScalar (lo cp : N) : bool :=
  ((lo <=? cp) && (cp <=? 1114111) && negb ((55296 <=? cp) && (cp <=? 57343)))%N.

Definition UTF16EncodeCodePoint (cp : N) : jsstring :=
  (if cp <? 65536 then [cp]
   else [55296 + (cp - 65536) / 1024; 56320 + (cp - 65536) mod 1024])%N.

Fixpoint decodeURIComponent (s : jsstring) : option jsstring :=
  match s with
  | [] => Some []
  | c :: rest =>
      if (c =? PERCENT)%N then
        match rest with
        | h :: l :: rest1 =>
            match parseHexOctet h l with
            | None => None
            | Some b =>
                if (b <? 128)%N then cons b <$> decodeURIComponent rest1
                else if (b <? 192)%N then None
                else if (b <? 224)%N then
                  match rest1 with
                  | p1 :: h1 :: l1 :: rest2 =>
                      match continuation p1 h1 l1 with
                      | Some c1 =>
                          let cp := ((b - 192) * 64 + c1)%N in
                          if validScalar 128 cp
                          then app (UTF16EncodeCodePoint cp) <$> decodeURIComponent rest2
                          else None
                      | None => None
                      end
                  | _ => None
                  end
                else if (b <? 240)%N then
                  match rest1 with
                  | p1 :: h1 :: l1 :: p2 :: h2 :: l2 :: rest3 =>
                      match continuation p1 h1 l1, continuation p2 h2 l2 with
                      | Some c1, Some c2 =>
                          let cp := (((b - 224) * 64 + c1) * 64 + c2)%N in
                          if validScalar 2048 cp
                          then app (UTF16EncodeCodePoint cp) <$> decodeURIComponent rest3
                          else None
                      | _, _ => None
                      end
                  | _ => None
                  end
                else if (b <? 248)%N then
                  match rest1 with
                  | p1 :: h1 :: l1 :: p2 :: h2 :: l2 :: p3 :: h3 :: l3 :: rest4 =>
                      match continuation p1 h1 l1, continuation p2 h2 l2,
                            continuation p3 h3 l3 with
                      | Some c1, Some c2, Some c3 =>
                          let cp := ((((b - 240) * 64 + c1) * 64 + c2) * 64 + c3)%N in
                          if validScalar 65536 cp
                          then app (UTF16EncodeCodePoint cp) <$> decodeURIComponent rest4
                          else None
                      | _, _, _ => None
                      end
                  | _ => None
                  end
                else None
            end
        | _ => None
        end
      else cons c <$> decodeURIComponent rest
  end.

(** ** [encodeURIComponent] (ECMA-262, Encode with the unreserved set
    [A-Z a-z 0-9 - _ . ! ~ * ' ( )]) *)

Definition isUnreserved (c : N) : bool :=
  ((65 <=? c) && (c <=? 90) || (97 <=? c) && (c <=? 122)
   || (48 <=? c) && (c <=? 57)
   || (c =? 45) || (c =? 95) || (c =? 46) || (c =? 33) || (c =? 126)
   || (c =? 42) || (c =? 39) || (c =? 40) || (c =? 41))%N.

Definition hexChar (d : N) : N := (if d <? 10 then 48 + d else 55 + d)%N.

Definition percentOctet (b : N) : jsstring :=
  [PERCENT; hexChar (b / 16); hexChar (b mod 16)]%N.

Definition utf8Octets (cp : N) : list N :=
  (if cp <? 128 then [cp]
   else if cp <? 2048 then [192 + cp / 64; 128 + cp mod 64]
   else if cp <? 65536 then
     [224 + cp / 4096; 128 + (cp / 64) mod 64; 128 + cp mod 64]
   else [240 + cp / 262144; 128 + (cp / 4096) mod 64;
         128 + (cp / 64) mod 64; 128 + cp mod 64])%N.

Definition percentEncode (cp : N) : jsstring :=
  concat (map percentOctet (utf8Octets cp)).

Fixpoint encodeURIComponent (s : jsstring) : option jsstring :=
  match s with
  | [] => Some []
  | c :: rest =>
      if isUnreserved c then cons c <$> encodeURIComponent rest
      else if ((56320 <=? c) && (c <=? 57343))%N then None
      else if ((55296 <=? c) && (c <=? 56319))%N then
        match rest with
        | d :: rest1 =>
            if ((56320 <=? d) && (d <=? 57343))%N then
              app (percentEncode ((c - 55296) * 1024 + (d - 56320) + 65536)%N)
                <$> encodeURIComponent rest1
            else None
        | [] => None
        end
      else app (percentEncode c) <$> encodeURIComponent rest
  end.

(** ** [parseInt(s, 10)] *)

Definition isDigit (c : N) : bool := ((48 <=? c) && (c <=? 57))%N.

Fixpoint leadingDigits (s : jsstring) : list N :=
  match s with
  | c :: r => if isDigit c then (c - 48)%N :: leadingDigits r else []
  | [] => []
  end.

Definition digitsValue (ds : list N) : Z :=
  foldl (fun acc d => 10 * acc + Z.of_N d) 0 ds.

(** Leading white space is skipped, one sign is read, then the longest run of
    decimal digits; no digit at all gives [NaN].  (The value is the exact
    integer; [-0] is not told apart from [0].) *)
Definition parseInt10 (s : jsstring) : jsnum :=
  let body := trimStart s in
  let '(negative, unsigned) :=
    match body with
    | c :: r =>
        if (c =? 45)%N then (true, r)
        else if (c =? 43)%N then (false, r)
        else (false, body)
    | [] => (false, body)
    end in
  match leadingDigits unsigned with
  | [] => NaN
  | ds => Int (if negative then - digitsValue ds else digitsValue ds)
  end.

End JS.


(* ================================================================== *)
(** * src/api/errors.ts                                                *)
(* ================================================================== *)

Module Errors.
Import JS.

(** The class of a [RiotApiError] instance; the three subclasses extend
    [RiotApiError]. *)
Inductive errorClass : Type :=
  | RiotApiError
  | RateLimitError
  | PlayerNotFoundError
  | InvalidApiKeyError.

#[global] Instance errorClass_eq_dec : EqDecision errorClass.
Proof. solve_decision. Defined.

Record apiError : Type := {
  cls : errorClass;
  name : jsstring;
  message : jsstring;
  statusCode : Z;
  retryAfter : option jsnum
}.

Definition new_RiotApiError (message : jsstring) (statusCode : Z)
    (retryAfter : option jsnum) : apiError :=
  {| cls := RiotApiError; name := js "RiotApiError"; message := message;
     statusCode := statusCode; retryAfter := retryAfter |}.

Definition new_RateLimitError (retryAfter : jsnum) : apiError :=
  {| cls := RateLimitError; name := js "RateLimitError";
     message := js "Rate limit exceeded. Retry after " ++ numToString retryAfter
                ++ js " seconds";
     statusCode := 429; retryAfter := Some retryAfter |}.

Definition new_PlayerNotFoundError (riotId : jsstring) : apiError :=
  {| cls := PlayerNotFoundError; name := js "PlayerNotFoundError";
     message := js "Player not found: " ++ riotId;
     statusCode := 404; retryAfter := None |}.

Definition new_InvalidApiKeyError : apiError :=
  {| cls := InvalidApiKeyError; name := js "InvalidApiKeyError";
     message := js "Invalid API key";
     statusCode := 401; retryAfter := None |}.

(** What a [throw] can carry in these sources: the built-in errors raised by
    the engine ([URIError] from the URI functions, [TypeError] from a property
    access on [undefined]), a plain [new Error(message)], or an instance of
    the classes above. *)
Inductive exn : Type :=
  | URIError
  | TypeError
  | Error (message : jsstring)
  | ApiError (e : apiError).

(** [e instanceof C] *)
Definition instanceof (e : exn) (C : errorClass) : bool :=
  match e with
  | ApiError a =>
      match C with
      | RiotApiError => true
      | _ => bool_decide (cls a = C)
      end
  | _ => false
  end.

(** Outcome of evaluating an expression that may throw. *)
Inductive result (A : Type) : Type :=
  | Return (a : A)
  | Throw (e : exn).
Arguments Return {A} a.
Arguments Throw {A} e.

Definition bind {A B} (r : result A) (k : A -> result B) : result B :=
  match r with
  | Return a => k a
  | Throw e => Throw e
  end.

End Errors.

(* ================================================================== *)
(** * src/utils/riot-id-parser.ts                                      *)
(* ================================================================== *)

Module RiotIdParser.
Import JS Errors.

Record RiotId : Type := { gameName : jsstring; tagLine : jsstring }.

(** [!part?.trim()]: the part is missing, or empty once trimmed. *)
Definition blank (part : option jsstring) : bool :=
  match part with
  | None => true
  | Some p => match trim p with [] => true | _ => false end
  end.

Definition isValid (riotId : jsvalue) : result bool :=
  match riotId with
  | JNonString => Return false
  | JString [] => Return false
  | JString s =>
      match decodeURIComponent s with
      | None => Throw URIError
      | Some decodedRiotId =>
          let hashCount := countMatches HASH decodedRiotId in
          if negb (hashCount =? 1)%nat then Return false
          else
            let parts := split HASH decodedRiotId in
            if blank (parts !! 0%nat) || blank (parts !! 1%nat)
            then Return false
            else Return true
      end
  end.

(** The message of the error [parse] throws, around the string it embeds. *)
Definition invalidFormatMessage (shown : jsstring) : jsstring :=
  js "Invalid Riot ID format: " ++ shown ++ js ". Expected format: "
  ++ [QUOTE] ++ js "gameName#tagLine" ++ [QUOTE].

Definition parse (riotId : jsstring) : result RiotId :=
  match decodeURIComponent riotId with
  | None => Throw URIError
  | Some decodedRiotId =>
      bind (isValid (JString decodedRiotId)) (fun valid =>
        if negb valid then Throw (Error (invalidFormatMessage decodedRiotId))
        else
          let parts := split HASH decodedRiotId in
          match parts !! 0%nat, parts !! 1%nat with
          | Some gameName, Some tagLine =>
              Return {| gameName := trim gameName; tagLine := trim tagLine |}
          | _, _ => Throw TypeError
          end)
  end.

End RiotIdParser.

(* ================================================================== *)
(** * src/types/common.ts and src/utils/platform-mapping.ts            *)
(* ================================================================== *)

Module PlatformMapping.
Import JS.

Inductive Platform : Type :=
  | na1 | br1 | la1 | la2 | euw1 | eun1 | me1 | tr1 | ru
  | jp1 | kr | oc1 | sg2 | tw2 | vn2.

Inductive Region : Type := americas | europe | asia.

#[global] Instance Platform_eq_dec : EqDecision Platform.
Proof. solve_decision. Defined.

#[global] Instance Region_eq_dec : EqDecision Region.
Proof. solve_decision. Defined.

(** The string each literal type stands for. *)
Definition platformName (p : Platform) : jsstring :=
  match p with
  | na1 => js "na1" | br1 => js "br1" | la1 => js "la1" | la2 => js "la2"
  | euw1 => js "euw1" | eun1 => js "eun1" | me1 => js "me1" | tr1 => js "tr1"
  | ru => js "ru" | jp1 => js "jp1" | kr => js "kr" | oc1 => js "oc1"
  | sg2 => js "sg2" | tw2 => js "tw2" | vn2 => js "vn2"
  end.

Definition regionName (r : Region) : jsstring :=
  match r with
  | americas => js "americas"
  | europe => js "europe"
  | asia => js "asia"
  end.

Definition REGION_PLATFORMS (r : Region) : list Platform :=
  match r with
  | americas => [na1; br1; la1; la2]
  | europe => [euw1; eun1; tr1; ru; me1]
  | asia => [kr; jp1; oc1; sg2; tw2; vn2]
  end.

Definition getPlatformsForRegion (region : Region) : list Platform :=
  REGION_PLATFORMS region.

End PlatformMapping.

(* ================================================================== *)
(** * src/utils/parallel-queries.ts                                    *)
(* ================================================================== *)

Module ParallelQueries.
Import JS Errors PlatformMapping.

(** What [Array.isArray(data) && data.length > 0] answers for a payload type. *)
Class Payload (T : Type) : Type := hasElements : T -> bool.

(** An array payload. *)
#[global] Instance list_Payload {A} : Payload (list A) :=
  fun data => match data with [] => false | _ => true end.

(** State of one promise given to [Promise.allSettled]. *)
Inductive settled (A : Type) : Type :=
  | Fulfilled (value : A)
  | Rejected (reason : exn).
Arguments Fulfilled {A} value.
Arguments Rejected {A} reason.

(** [Promise.allSettled]: a result array with one slot per promise in the
    order the promises were given; the slot of promise [i] is written when
    promise [i] settles.  [order] lists the promises in the order in which
    they settle.  The combined promise resolves, with the array, once no slot
    is empty. *)
Definition settleOne {A} (promises : list (settled A))
    (slots : list (option (settled A))) (i : nat) : list (option (settled A)) :=
  match promises !! i with
  | Some outcome => <[i := Some outcome]> slots
  | None => slots
  end.

Definition allSettled {A} (promises : list (settled A)) (order : list nat)
    : option (list (settled A)) :=
  mapM id (foldl (settleOne promises) (replicate (length promises) None) order).

Section Query.
Context {T : Type} `{Payload T}.

Record PlatformQueryResult : Type := { platform : Platform; data : T }.
Record PlatformQueryError : Type := { err_platform : Platform; error : exn }.

(** The body of the [platforms.map(async platform => ...)] callback: the
    [try]/[catch] turns a throwing query into a value. *)
Definition attempt (queryFn : jsstring -> Platform -> result T)
    (puuid : jsstring) (platform : Platform)
    : settled (PlatformQueryResult + PlatformQueryError) :=
  match queryFn puuid platform with
  | Return data => Fulfilled (inl {| platform := platform; data := data |})
  | Throw error => Fulfilled (inr {| err_platform := platform; error := error |})
  end.

(** First loop: the first fulfilled result holding a non-empty array. *)
Fixpoint firstWithData
    (results : list (settled (PlatformQueryResult + PlatformQueryError)))
    : option PlatformQueryResult :=
  match results with
  | [] => None
  | Fulfilled (inl value) :: rest =>
      if hasElements (data value) then Some value else firstWithData rest
  | _ :: rest => firstWithData rest
  end.

(** Second loop: the first fulfilled result with a [data] field. *)
Fixpoint firstSuccessful
    (results : list (settled (PlatformQueryResult + PlatformQueryError)))
    : option PlatformQueryResult :=
  match results with
  | [] => None
  | Fulfilled (inl value) :: rest => Some value
  | _ :: rest => firstSuccessful rest
  end.

Definition notFoundOnAnyPlatform (region : Region) : exn :=
  ApiError (new_PlayerNotFoundError
              (js "Player not found on any platform in " ++ regionName region)).

(** The code after [await Promise.allSettled(promises)]. *)
Definition selectResult (region : Region)
    (results : list (settled (PlatformQueryResult + PlatformQueryError)))
    : result PlatformQueryResult :=
  match firstWithData results with
  | Some value => Return value
  | None =>
      match firstSuccessful results with
      | Some value => Return value
      | None => Throw (notFoundOnAnyPlatform region)
      end
  end.

(** [queryPlatformsInParallel] when the per-platform promises settle in the
    order [order]; [None] while some promise has not settled. *)
Definition queryPlatformsInParallelAt (order : list nat)
    (puuid : jsstring) (region : Region)
    (queryFn : jsstring -> Platform -> result T)
    : option (result PlatformQueryResult) :=
  let platforms := getPlatformsForRegion region in
  let promises := map (attempt queryFn puuid) platforms in
  selectResult region <$> allSettled promises order.

(** [await queryPlatformsInParallel(...)] once every promise has settled (by
    [allSettled_complete] below the completion order is immaterial). *)
Definition queryPlatformsInParallel
    (puuid : jsstring) (region : Region)
    (queryFn : jsstring -> Platform -> result T)
    : result PlatformQueryResult :=
  let platforms := getPlatformsForRegion region in
  selectResult region (map (attempt queryFn puuid) platforms).

End Query.

Arguments PlatformQueryResult T : clear implicits.
Arguments PlatformQueryError : clear implicits.

End ParallelQueries.


(* ================================================================== *)
(** * DTO types                                                        *)
(* ================================================================== *)

Module Types.
Import JS.

(** Modelled from the spec: src/types/account.ts is not among the sources; the
    fields are those of the spec's Account ([puuid], [gameName], [tagLine]),
    which are also the ones src/server/index.ts reads. *)
Record AccountDto : Type := {
  acc_puuid : jsstring;
  acc_gameName : jsstring;
  acc_tagLine : jsstring
}.

(** Modelled from the spec: src/types/summoner.ts is not among the sources; the
    fields are those of the spec's Profile under the names src/server/index.ts
    reads them by.  [id], [accountId] and [name] are read with a [||]
    fallback, so they may be absent. *)
Record SummonerDto : Type := {
  id : option jsstring;
  accountId : option jsstring;
  puuid : jsstring;
  name : option jsstring;
  profileIconId : Z;
  summonerLevel : Z;
  revisionDate : Z
}.

(** src/types/league.ts *)
Record MiniSeriesDto : Type := {
  ms_losses : Z;
  ms_progress : jsstring;
  ms_target : Z;
  ms_wins : Z
}.

Record LeagueEntryDto : Type := {
  leagueId : jsstring;
  le_puuid : jsstring;
  queueType : jsstring;
  tier : jsstring;
  rank : jsstring;
  leaguePoints : Z;
  wins : Z;
  losses : Z;
  hotStreak : bool;
  veteran : bool;
  freshBlood : bool;
  inactive : bool;
  miniSeries : option MiniSeriesDto
}.

(** src/types/common.ts, [ApiError]: the body of an upstream error response.
    The client reads it as [responseData?.status?.message]. *)
Record ApiErrorStatus : Type := {
  status_message : jsstring;
  status_code : Z
}.

Record ApiErrorBody : Type := { status : option ApiErrorStatus }.

End Types.

(* ================================================================== *)
(** * src/api/routing.ts                                               *)
(* ================================================================== *)

Module ApiRouting.
Import JS PlatformMapping.

(** [regionUrls[region]]: [undefined] outside the four keys of the table. *)
Definition getRegionalBaseUrl (region : jsstring) : option jsstring :=
  if decide (region = js "americas") then Some (js "https://americas.api.riotgames.com")
  else if decide (region = js "europe") then Some (js "https://europe.api.riotgames.com")
  else if decide (region = js "asia") then Some (js "https://asia.api.riotgames.com")
  else if decide (region = js "sea") then Some (js "https://sea.api.riotgames.com")
  else None.

(** [platformUrls[platform]]: the table has eleven keys, the other platforms
    give [undefined]. *)
Definition getPlatformBaseUrl (platform : Platform) : option jsstring :=
  match platform with
  | na1 => Some (js "https://na1.api.riotgames.com")
  | br1 => Some (js "https://br1.api.riotgames.com")
  | la1 => Some (js "https://la1.api.riotgames.com")
  | la2 => Some (js "https://la2.api.riotgames.com")
  | euw1 => Some (js "https://euw1.api.riotgames.com")
  | eun1 => Some (js "https://eun1.api.riotgames.com")
  | tr1 => Some (js "https://tr1.api.riotgames.com")
  | ru => Some (js "https://ru.api.riotgames.com")
  | kr => Some (js "https://kr.api.riotgames.com")
  | jp1 => Some (js "https://jp1.api.riotgames.com")
  | oc1 => Some (js "https://oc1.api.riotgames.com")
  | me1 | sg2 | tw2 | vn2 => None
  end.

(** [`${baseUrl}`] *)
Definition showBaseUrl (baseUrl : option jsstring) : jsstring :=
  match baseUrl with
  | Some u => u
  | None => js "undefined"
  end.

End ApiRouting.

(* ================================================================== *)
(** * src/api/riot-client.ts                                           *)
(* ================================================================== *)

Module RiotClient.
Import JS Errors PlatformMapping Types.

Definition Headers : Type := list (jsstring * jsstring).

Record AxiosRequestConfig : Type := {
  url : jsstring;
  method : jsstring;
  headers : Headers;
  timeout : Z
}.

Record AxiosResponse (T : Type) : Type := {
  resp_status : Z;
  resp_headers : Headers;
  resp_data : T
}.
Arguments resp_status {T} _.
Arguments resp_headers {T} _.
Arguments resp_data {T} _.

(** The response attached to a failed request; its body is untyped upstream
    JSON or missing. *)
Definition ErrorResponse : Type := AxiosResponse (option ApiErrorBody).

Record AxiosError : Type := {
  ae_message : jsstring;
  ae_response : option ErrorResponse;
  ae_config : option AxiosRequestConfig
}.

(** What the transport does with one request: a response the client accepts,
    or a failure (a rejected status with its response, or no response at all
    for a timeout or a network failure). *)
Inductive Outcome (T : Type) : Type :=
  | Responded (response : AxiosResponse T)
  | Failed (message : jsstring) (response : option ErrorResponse).
Arguments Responded {T} response.
Arguments Failed {T} message response.

(** The upstream as seen through axios: each request, with the headers it is
    sent with, has an outcome. *)
Definition Network (T : Type) : Type := AxiosRequestConfig -> Outcome T.

(** One argument of a [console.log] call. *)
Inductive logArg : Type :=
  | LLabel (text : string)
  | LStr (s : option jsstring)
  | LNum (z : Z)
  | LHeaders (h : option Headers)
  | LBody (b : option ApiErrorBody)
  | LAccount (d : AccountDto)
  | LSummoner (d : SummonerDto)
  | LLeague (d : list LeagueEntryDto)
  | LExn (e : exn).

Definition logLine : Type := list logArg.

Record AxiosInstance : Type := {
  default_headers : Headers;
  default_timeout : Z
}.

Record RiotClient : Type := {
  _client : AxiosInstance;
  _apiKey : jsstring
}.

(** [new RiotClient(apiKey)] *)
Definition new_RiotClient (apiKey : jsstring) : result RiotClient :=
  match apiKey with
  | [] => Throw (Error (js "API key is required"))
  | _ =>
      Return {| _apiKey := apiKey;
                _client := {| default_headers := [(js "X-Riot-Token", apiKey)];
                              default_timeout := 10000 |} |}
  end.

(** [headers['retry-after']]: header names are kept in lower case. *)
Fixpoint header (name : jsstring) (h : Headers) : option jsstring :=
  match h with
  | [] => None
  | (k, v) :: rest => if decide (k = name) then Some v else header name rest
  end.

(** [a || b] on strings that may be undefined. *)
Definition orElse (a : option jsstring) (b : jsstring) : jsstring :=
  match a with
  | Some (c :: r) => c :: r
  | _ => b
  end.

(** [error.response?.status || 500]: no response, or a status of [0], gives
    [500]. *)
Definition statusOf (error : AxiosError) : Z :=
  match ae_response error with
  | Some r => if (resp_status r =? 0)%Z then 500 else resp_status r
  | None => 500
  end.

(** The response interceptor's error handler.  It never returns: the result is
    what it logs and the error it throws. *)
Definition _handleApiError (error : AxiosError) : list logLine * exn :=
  let status := statusOf error in
  let responseData := ae_response error ≫= resp_data in
  let message :=
    orElse (status_message <$> (responseData ≫= Types.status)) (ae_message error) in
  let details : list logLine :=
    [ [LLabel "🚨 Riot API Error Details:"];
      [LLabel "📊 Status:"; LNum status];
      [LLabel "📊 Response Headers:"; LHeaders (resp_headers <$> ae_response error)];
      [LLabel "📊 Response Data:"; LBody responseData];
      [LLabel "📊 Request URL:"; LStr (url <$> ae_config error)];
      [LLabel "📊 Request Method:"; LStr (method <$> ae_config error)] ] in
  if (status =? 400)%Z then
    (details, ApiError (new_RiotApiError (js "Bad request: Invalid parameters") 400 None))
  else if (status =? 401)%Z then
    (details, ApiError new_InvalidApiKeyError)
  else if (status =? 403)%Z then
    (details ++ [[LLabel "🔒 403 Forbidden - API Key Permission Issue"]],
     ApiError (new_RiotApiError (js "Forbidden: API key does not have permission") 403 None))
  else if (status =? 404)%Z then
    (details, ApiError (new_PlayerNotFoundError (js "Player not found")))
  else if (status =? 429)%Z then
    let retryAfter := ae_response error ≫= (fun r => header (js "retry-after") (resp_headers r)) in
    let retryAfterSeconds :=
      match retryAfter with
      | Some (c :: r) => parseInt10 (c :: r)
      | _ => Int 60
      end in
    (details, ApiError (new_RateLimitError retryAfterSeconds))
  else if (status =? 500)%Z then
    (details, ApiError (new_RiotApiError (js "Internal server error") 500 None))
  else if (status =? 502)%Z then
    (details, ApiError (new_RiotApiError (js "Bad gateway") 502 None))
  else if (status =? 503)%Z then
    (details, ApiError (new_RiotApiError (js "Service unavailable") 503 None))
  else if (status =? 504)%Z then
    (details, ApiError (new_RiotApiError (js "Gateway timeout") 504 None))
  else
    (details, ApiError (new_RiotApiError (js "API request failed: " ++ message) status None)).

(** [this._client.get<T>(url)]: the instance's default headers, token
    included, go out with the request; a failure passes through the response
    interceptor, which receives the axios error with the request's config. *)
Definition requestConfig (c : RiotClient) (url : jsstring) : AxiosRequestConfig :=
  {| url := url; method := js "get";
     headers := default_headers (_client c);
     timeout := default_timeout (_client c) |}.

Definition get {T} (c : RiotClient) (net : Network T) (url : jsstring)
    : list logLine * result (AxiosResponse T) :=
  let config := requestConfig c url in
  match net config with
  | Responded response => ([], Return response)
  | Failed message response =>
      let '(log, thrown) :=
        _handleApiError {| ae_message := message; ae_response := response;
                           ae_config := Some config |} in
      (log, Throw thrown)
  end.

(** The [catch] block shared by the three methods: log the error, rethrow a
    [RiotApiError] unchanged, wrap anything else. *)
Definition rethrow {T} (label : string) (failure : jsstring)
    (body : list logLine * result T) : list logLine * result T :=
  match body with
  | (log, Return v) => (log, Return v)
  | (log, Throw error) =>
      (log ++ [[LLabel label; LExn error]],
       if instanceof error RiotApiError then Throw error
       else Throw (ApiError (new_RiotApiError failure 500 None)))
  end.

Definition hiddenToken : logLine :=
  [LLabel "📤 Headers:"; LHeaders (Some [(js "X-Riot-Token", js "***hidden***")])].

Definition getAccountByRiotId (c : RiotClient) (net : Network AccountDto)
    (gameName tagLine region : jsstring) : list logLine * result AccountDto :=
  rethrow "❌ Riot API Error:" (js "Failed to fetch account information")
    (let baseUrl := ApiRouting.getRegionalBaseUrl region in
     match encodeURIComponent gameName with
     | None => ([], Throw URIError)
     | Some name =>
     match encodeURIComponent tagLine with
     | None => ([], Throw URIError)
     | Some tag =>
         let url := ApiRouting.showBaseUrl baseUrl
                    ++ js "/riot/account/v1/accounts/by-riot-id/" ++ name
                    ++ js "/" ++ tag in
         let before : list logLine :=
           [ [LLabel "🌐 Riot API Request:"];
             [LLabel "📤 URL:"; LStr (Some url)];
             hiddenToken ] in
         match get c net url with
         | (log, Throw e) => (before ++ log, Throw e)
         | (log, Return response) =>
             (before ++ log ++
              [ [LLabel "📥 Riot API Response:"];
                [LLabel "📊 Status:"; LNum (resp_status response)];
                [LLabel "📊 Data:"; LAccount (resp_data response)] ],
              Return (resp_data response))
         end
     end end).

Definition getSummonerByPuuid (c : RiotClient) (net : Network SummonerDto)
    (puuid : jsstring) (platform : Platform) : list logLine * result SummonerDto :=
  rethrow "❌ Summoner-V4 Error:" (js "Failed to fetch summoner information")
    (let baseUrl := ApiRouting.getPlatformBaseUrl platform in
     let url := ApiRouting.showBaseUrl baseUrl
                ++ js "/lol/summoner/v4/summoners/by-puuid/" ++ puuid in
     let before : list logLine :=
       [ [LLabel "🌐 Summoner-V4 Request:"];
         [LLabel "📤 URL:"; LStr (Some url)];
         hiddenToken ] in
     match get c net url with
     | (log, Throw e) => (before ++ log, Throw e)
     | (log, Return response) =>
         (before ++ log ++
          [ [LLabel "📥 Summoner-V4 Response:"];
            [LLabel "📊 Status:"; LNum (resp_status response)];
            [LLabel "📊 Data:"; LSummoner (resp_data response)] ],
          Return (resp_data response))
     end).

Definition getLeagueEntriesbyEncryptedPUUID (c : RiotClient)
    (net : Network (list LeagueEntryDto))
    (encryptedPUUID : jsstring) (platform : Platform)
    : list logLine * result (list LeagueEntryDto) :=
  rethrow "❌ League-V4 Error:" (js "Failed to fetch league entries")
    (let baseUrl := ApiRouting.getPlatformBaseUrl platform in
     let url := ApiRouting.showBaseUrl baseUrl
                ++ js "/lol/league/v4/entries/by-puuid/" ++ encryptedPUUID in
     let before : list logLine :=
       [ [LLabel "🌐 League-V4 Request:"];
         [LLabel "📤 URL:"; LStr (Some url)];
         hiddenToken ] in
     match get c net url with
     | (log, Throw e) => (before ++ log, Throw e)
     | (log, Return response) =>
         (before ++ log ++
          [ [LLabel "📥 League-V4 Response:"];
            [LLabel "📊 Status:"; LNum (resp_status response)];
            [LLabel "📊 Data:"; LLeague (resp_data response)] ],
          Return (resp_data response))
     end).

End RiotClient.


(* ================================================================== *)
(** * src/services/cache.ts                                            *)
(* ================================================================== *)

Module NodeCache.
Import JS.

(** Modelled from the spec: the [node-cache] store that src/services/cache.ts
    instantiates is not among the sources.  The spec (sections 3 and 4.5)
    describes it as a TTL-bounded key/value store of entries
    [{key, value, expiresAt}] with [get(key) -> value | absent] and
    [set(key, value, ttl)], running counters of hits and misses, a key list,
    and a capacity bound whose age-based backstop may drop entries.  Here:
    the clock is in milliseconds and a TTL in seconds; an entry is absent for
    [get] once the clock has passed its [expiresAt]; the backstop, when a
    write leaves more than [maxKeys] entries, drops the entries whose age has
    passed their TTL. *)
Record options : Type := {
  stdTTL : Z;
  checkperiod : Z;
  useClones : bool;
  maxKeys : Z
}.

(** Modelled from the spec: the store's [CacheEntry], [{key, value, expiresAt}]
    (the key is the key of the map that holds the entry). *)
Record entry (V : Type) : Type := { value : V; expiresAt : Z }.
Arguments value {V} _.
Arguments expiresAt {V} _.

(** Modelled from the spec: the store itself, a map from keys to entries with
    the running counters of hits and misses. *)
Record t (V : Type) : Type := {
  opts : options;
  data : gmap jsstring (entry V);
  hits : nat;
  misses : nat
}.
Arguments opts {V} _.
Arguments data {V} _.
Arguments hits {V} _.
Arguments misses {V} _.

(** Modelled from the spec: [new NodeCache(options)], the empty store. *)
Definition create {V} (o : options) : t V :=
  {| opts := o; data := ∅; hits := 0; misses := 0 |}.

(** Modelled from the spec: an entry has expired once the clock has passed its
    [expiresAt]. *)
Definition expired {V} (now : Z) (e : entry V) : bool := (expiresAt e <? now)%Z.

(** Modelled from the spec: [get(key) -> value | absent]; a live entry is a
    hit, anything else a miss. *)
Definition get {V} (key : jsstring) (now : Z) (c : t V) : option V * t V :=
  match data c !! key with
  | Some e =>
      if expired now e
      then (None, {| opts := opts c; data := data c; hits := hits c;
                     misses := S (misses c) |})
      else (Some (value e), {| opts := opts c; data := data c; hits := S (hits c);
                               misses := misses c |})
  | None => (None, {| opts := opts c; data := data c; hits := hits c;
                      misses := S (misses c) |})
  end.

(** Modelled from the spec: the capacity backstop.  Over the bound, the
    entries that have outlived their TTL are dropped; a live entry is never
    dropped. *)
Definition backstop {V} (now : Z) (limit : Z) (d : gmap jsstring (entry V))
    : gmap jsstring (entry V) :=
  if (limit <? Z.of_nat (size d))%Z
  then filter (fun kv => expired now kv.2 = false) d
  else d.

(** Modelled from the spec: [set(key, value, ttl)] stores the value with
    [expiresAt] a TTL (seconds) after the clock reading (milliseconds). *)
Definition set {V} (key : jsstring) (v : V) (ttl : Z) (now : Z) (c : t V)
    : bool * t V :=
  let written := <[key := {| value := v; expiresAt := now + ttl * 1000 |}]> (data c) in
  (true, {| opts := opts c; data := backstop now (maxKeys (opts c)) written;
            hits := hits c; misses := misses c |}).

(** Modelled from the spec: the stats snapshot (key count, hit count, miss
    count) and the key list. *)
Record Stats : Type := { st_keys : nat; st_hits : nat; st_misses : nat }.

Definition getStats {V} (c : t V) : Stats :=
  {| st_keys := size (data c); st_hits := hits c; st_misses := misses c |}.

Definition keys {V} (c : t V) : list jsstring := (map_to_list (data c)).*1.

End NodeCache.

Module Cache.
Import JS.

Definition cacheConfig : NodeCache.options :=
  {| NodeCache.stdTTL := 300; NodeCache.checkperiod := 60;
     NodeCache.useClones := false; NodeCache.maxKeys := 1000 |}.

(** [const cache = new NodeCache(cacheConfig)]: the module-level store, here
    the initial value of the state the calls below pass along. *)
Definition cache {V} : NodeCache.t V := NodeCache.create cacheConfig.

Module CacheKeys.
Definition account (riotId region : jsstring) : jsstring :=
  js "account:" ++ riotId ++ js ":" ++ region.
Definition icon (iconId : Z) : jsstring := js "icon:" ++ digits iconId.
End CacheKeys.

(** Cache TTL values (in seconds) *)
Module CacheTTL.
Definition account : Z := 86400.
Definition icon : Z := 86400.
End CacheTTL.

Module CacheService.

Definition get {V} (key : jsstring) (now : Z) (c : NodeCache.t V)
    : option V * NodeCache.t V :=
  NodeCache.get key now c.

(** [ttl || cacheConfig.stdTTL]: a missing or zero [ttl] is falsy. *)
Definition set {V} (key : jsstring) (data : V) (ttl : option Z) (now : Z)
    (c : NodeCache.t V) : bool * NodeCache.t V :=
  NodeCache.set key data
    (match ttl with
     | Some n => if (n =? 0)%Z then NodeCache.stdTTL cacheConfig else n
     | None => NodeCache.stdTTL cacheConfig
     end) now c.

Definition getStats {V} (c : NodeCache.t V) : NodeCache.Stats :=
  NodeCache.getStats c.

Definition getKeys {V} (c : NodeCache.t V) : list jsstring := NodeCache.keys c.

Definition cacheAccount {V} (riotId region : jsstring) (data : V) (now : Z)
    (c : NodeCache.t V) : bool * NodeCache.t V :=
  let key := CacheKeys.account riotId region in
  set key data (Some CacheTTL.account) now c.

Definition getCachedAccount {V} (riotId region : jsstring) (now : Z)
    (c : NodeCache.t V) : option V * NodeCache.t V :=
  let key := CacheKeys.account riotId region in
  get key now c.

Definition cacheIcon {V} (iconId : Z) (data : V) (now : Z) (c : NodeCache.t V)
    : bool * NodeCache.t V :=
  let key := CacheKeys.icon iconId in
  set key data (Some CacheTTL.icon) now c.

Definition getCachedIcon {V} (iconId : Z) (now : Z) (c : NodeCache.t V)
    : option V * NodeCache.t V :=
  let key := CacheKeys.icon iconId in
  get key now c.

End CacheService.

End Cache.

(* ================================================================== *)
(** * src/api/error-handler.ts and src/server/index.ts                 *)
(* ================================================================== *)

Module Server.
Import JS Errors PlatformMapping Types.
Import ParallelQueries.

(** ** The JSON the routes answer with *)

Record RankedQueue : Type := {
  rq_tier : jsstring;
  rq_rank : jsstring;
  rq_leaguePoints : Z;
  rq_wins : Z;
  rq_losses : Z;
  rq_winRate : jsnum
}.

Record SummonerInfo : Type := {
  si_id : jsstring;
  si_accountId : jsstring;
  si_puuid : jsstring;
  si_name : jsstring;
  si_profileIconId : Z;
  si_summonerLevel : Z;
  si_revisionDate : Z
}.

Record RankedStats : Type := {
  soloDuo : option RankedQueue;
  flex : option RankedQueue
}.

Record PlatformInfo : Type := { summoner : jsstring; league : jsstring }.

Record ResponseData : Type := {
  rd_puuid : jsstring;
  rd_gameName : jsstring;
  rd_tagLine : jsstring;
  summonerInfo : SummonerInfo;
  rankedStats : RankedStats;
  rd_platform : PlatformInfo
}.

(** What the shared store holds: account responses and icon images. *)
Inductive Cached : Type :=
  | AccountData (d : ResponseData)
  | IconData (image : list N).

Inductive field : Type :=
  | FStr (s : jsstring)
  | FNum (n : option jsnum)
  | FInt (z : Z)
  | FQuery (v : option jsvalue).

Inductive Body : Type :=
  | ErrorJson (fields : list (string * field))
  | SuccessJson (data : Cached) (cached : bool).

Record Response : Type := { status : Z; body : Body }.

(** [res.status(code).json(body)] *)
Definition json (code : Z) (b : Body) : Response := {| status := code; body := b |}.

(** ** src/api/error-handler.ts *)

Definition handleApiError (error : exn) : list RiotClient.logLine * Response :=
  ([[RiotClient.LLabel "API Error:"; RiotClient.LExn error]],
   match error with
   | ApiError e =>
       if instanceof error InvalidApiKeyError then
         json 401 (ErrorJson
           [("error", FStr (js "Invalid API key"));
            ("message", FStr (js "Please check your RIOT_API_KEY environment variable"))])
       else if instanceof error PlayerNotFoundError then
         json 404 (ErrorJson
           [("error", FStr (js "Player not found"));
            ("message", FStr (message e))])
       else if instanceof error RateLimitError then
         json 429 (ErrorJson
           [("error", FStr (js "Rate limit exceeded"));
            ("message", FStr (js "Please try again in "
                              ++ from_option numToString (js "undefined") (retryAfter e)
                              ++ js " seconds"));
            ("retryAfter", FNum (retryAfter e))])
       else
         json (statusCode e) (ErrorJson
           [("error", FStr (js "Riot API error"));
            ("message", FStr (message e));
            ("statusCode", FInt (statusCode e))])
   | _ =>
       json 500 (ErrorJson
         [("error", FStr (js "Internal server error"));
          ("message", FStr (js "An unexpected error occurred"))])
   end).

(** ** src/server/index.ts, [GET /api/account] *)

(** [req.query]: a parameter is missing, a string, or something else (an array
    or a nested object). *)
Record Request : Type := {
  q_riotId : option jsvalue;
  q_region : option jsvalue
}.

(** The upstream behind the client, one transport per endpoint family. *)
Record Upstream : Type := {
  net_account : RiotClient.Network AccountDto;
  net_summoner : RiotClient.Network SummonerDto;
  net_league : RiotClient.Network (list LeagueEntryDto)
}.

(** A summoner is an object, never an array. *)
#[global] Instance SummonerDto_Payload : Payload SummonerDto := fun _ => false.

(** src/utils/parallel-queries.ts, the two instances used by the route. *)
Definition querySummonerAcrossPlatforms (puuid : jsstring) (region : Region)
    (riotClient : RiotClient.RiotClient) (up : Upstream)
    : result (PlatformQueryResult SummonerDto) :=
  queryPlatformsInParallel puuid region
    (fun puuid platform =>
       (RiotClient.getSummonerByPuuid riotClient (net_summoner up) puuid platform).2).

Definition queryLeagueEntriesAcrossPlatforms (puuid : jsstring) (region : Region)
    (riotClient : RiotClient.RiotClient) (up : Upstream)
    : result (PlatformQueryResult (list LeagueEntryDto)) :=
  queryPlatformsInParallel puuid region
    (fun puuid platform =>
       (RiotClient.getLeagueEntriesbyEncryptedPUUID riotClient (net_league up)
          puuid platform).2).

(** [validRegions.includes(region)], with the region it names. *)
Definition validRegion (region : jsvalue) : option Region :=
  match region with
  | JString s =>
      if decide (s = js "americas") then Some americas
      else if decide (s = js "europe") then Some europe
      else if decide (s = js "asia") then Some asia
      else None
  | JNonString => None
  end.

(** [Math.round((entry.wins / (entry.wins + entry.losses)) * 100)] *)
Definition winRate (entry : LeagueEntryDto) : jsnum :=
  Math_round
    (mul (div (ofInt (wins entry)) (add (ofInt (wins entry)) (ofInt (losses entry))))
         (ofInt 100)).

Definition rankedQueue (entry : LeagueEntryDto) : RankedQueue :=
  {| rq_tier := tier entry;
     rq_rank := rank entry;
     rq_leaguePoints := leaguePoints entry;
     rq_wins := wins entry;
     rq_losses := losses entry;
     rq_winRate := winRate entry |}.

(** [entries.find(entry => entry.queueType === queue) || null] *)
Definition findQueue (queue : jsstring) (entries : list LeagueEntryDto)
    : option LeagueEntryDto :=
  List.find (fun entry => bool_decide (queueType entry = queue)) entries.

(** The [responseData] object literal. *)
Definition responseData (account : AccountDto)
    (summonerResult : PlatformQueryResult SummonerDto)
    (soloDuo flex : option LeagueEntryDto)
    (leagueResult : option (PlatformQueryResult (list LeagueEntryDto)))
    : ResponseData :=
  let info := data summonerResult in
  {| rd_puuid := acc_puuid account;
     rd_gameName := acc_gameName account;
     rd_tagLine := acc_tagLine account;
     summonerInfo :=
       {| si_id := RiotClient.orElse (id info) (puuid info);
          si_accountId := RiotClient.orElse (accountId info) (puuid info);
          si_puuid := puuid info;
          si_name := RiotClient.orElse (name info) (acc_gameName account);
          si_profileIconId := profileIconId info;
          si_summonerLevel := summonerLevel info;
          si_revisionDate := revisionDate info |};
     rankedStats :=
       {| soloDuo := rankedQueue <$> soloDuo;
          flex := rankedQueue <$> flex |};
     rd_platform :=
       {| summoner := platformName (platform summonerResult);
          league := match leagueResult with
                    | Some r => platformName (platform r)
                    | None => js "none"
                    end |} |}.

Definition missingRiotId : Response :=
  json 400 (ErrorJson
    [("error", FStr (js "Missing Riot ID"));
     ("message", FStr (js "Please provide riotId as a query parameter"));
     ("example", FStr (js "/api/account?riotId=Faker%235555"))]).

Definition invalidRiotId (riotId : jsstring) : Response :=
  json 400 (ErrorJson
    [("error", FStr (js "Invalid Riot ID format"));
     ("message", FStr (js "Expected format: " ++ [QUOTE] ++ js "gameName#tagLine" ++ [QUOTE]));
     ("received", FStr riotId);
     ("suggestion", FStr (js "Try: /api/account?riotId=Samir%232468"))]).

Definition invalidRegion (region : jsvalue) : Response :=
  json 400 (ErrorJson
    [("error", FStr (js "Invalid region"));
     ("message", FStr (js "Valid regions: americas, europe, asia"));
     ("received", FQuery (Some region))]).

(** The route handler.  [tCheck] and [tStore] are the clock readings at the
    cache lookup and at the cache write; the result is the response sent and
    the store left behind.  The [catch] of the handler is [handleApiError]. *)
Definition getAccount (riotClient : RiotClient.RiotClient) (up : Upstream)
    (req : Request) (tCheck tStore : Z) (store : NodeCache.t Cached)
    : Response * NodeCache.t Cached :=
  let region := default (JString (js "americas")) (q_region req) in
  match q_riotId req with
  | None | Some JNonString | Some (JString []) => (missingRiotId, store)
  | Some (JString riotId) =>
  match RiotIdParser.isValid (JString riotId) with
  | Throw error => ((handleApiError error).2, store)
  | Return false => (invalidRiotId riotId, store)
  | Return true =>
  match RiotIdParser.parse riotId with
  | Throw error => ((handleApiError error).2, store)
  | Return parsed =>
  match validRegion region with
  | None => (invalidRegion region, store)
  | Some r =>
  let '(cachedData, store1) :=
    Cache.CacheService.getCachedAccount riotId (regionName r) tCheck store in
  match cachedData with
  | Some cached => (json 200 (SuccessJson cached true), store1)
  | None =>
  match (RiotClient.getAccountByRiotId riotClient (net_account up)
           (RiotIdParser.gameName parsed) (RiotIdParser.tagLine parsed)
           (regionName r)).2 with
  | Throw error => ((handleApiError error).2, store1)
  | Return account =>
  match querySummonerAcrossPlatforms (acc_puuid account) r riotClient up with
  | Throw error => ((handleApiError error).2, store1)
  | Return summonerResult =>
      let summonerInfo := data summonerResult in
      let '(soloDuo, flex, leagueResult) :=
        match queryLeagueEntriesAcrossPlatforms (puuid summonerInfo) r riotClient up with
        | Return leagueResult =>
            let leagueEntries := data leagueResult in
            (findQueue (js "RANKED_SOLO_5x5") leagueEntries,
             findQueue (js "RANKED_FLEX_SR") leagueEntries,
             Some leagueResult)
        | Throw _ => (None, None, None)
        end in
      let response := responseData account summonerResult soloDuo flex leagueResult in
      let '(_, store2) :=
        Cache.CacheService.cacheAccount riotId (regionName r) (AccountData response)
          tStore store1 in
      (json 200 (SuccessJson (AccountData response) false), store2)
  end end end end end end
  end.

End Server.

(* ================================================================== *)
(** * Vocabulary of the specification                                  *)
(* ================================================================== *)

Module Spec.
Import JS Errors.

(** A decoded identity string with exactly one delimiter and two halves that
    are not empty once trimmed. *)
Definition wellFormed (d : jsstring) : Prop :=
  exists a b, d = a ++ (HASH :: b) /\ (HASH ∉ a) /\ (HASH ∉ b)
              /\ trim a <> [] /\ trim b <> [].

(** The error the specification calls [FormatError], carrying a string. *)
Definition FormatError (carried : jsstring) : exn :=
  Error (RiotIdParser.invalidFormatMessage carried).

(** The slots of [Promise.allSettled] once the promises listed in [settledSoFar]
    have settled. *)
Definition slotsAfter {A} (promises : list (ParallelQueries.settled A))
    (settledSoFar : list nat) : list (option (ParallelQueries.settled A)) :=
  imap (fun i p => if decide (i ∈ settledSoFar) then Some p else None) promises.

(** What a caller and the operator's console get to see of one client call:
    the lines the client logged, then, when the call failed, the line the error
    handler logs and the error payload it answers with. *)
Definition observed {T} (call : list RiotClient.logLine * result T)
    : list RiotClient.logLine * option Server.Response :=
  match call with
  | (log, Return _) => (log, None)
  | (log, Throw error) =>
      (log ++ (Server.handleApiError error).1, Some (Server.handleApiError error).2)
  end.

(** The credential appears in a string when it is a part of it. *)
Definition appearsIn (key s : jsstring) : Prop :=
  exists before after, s = before ++ key ++ after.

(** The strings of an upstream payload that is logged. *)
Definition leagueStrings (d : Types.LeagueEntryDto) : list jsstring :=
  [Types.leagueId d; Types.le_puuid d; Types.queueType d; Types.tier d; Types.rank d]
  ++ from_option (fun m => [Types.ms_progress m]) [] (Types.miniSeries d).

(** The strings one argument of a [console.log] call puts on the console. *)
Definition logStrings (arg : RiotClient.logArg) : list jsstring :=
  match arg with
  | RiotClient.LLabel text => [js text]
  | RiotClient.LStr s => option_list s
  | RiotClient.LNum z => [digits z]
  | RiotClient.LHeaders h => from_option (fun h => h.*1 ++ h.*2) [] h
  | RiotClient.LBody b =>
      option_list (Types.status_message <$> (b ≫= Types.status))
  | RiotClient.LAccount d =>
      [Types.acc_puuid d; Types.acc_gameName d; Types.acc_tagLine d]
  | RiotClient.LSummoner d =>
      Types.puuid d :: option_list (Types.id d) ++ option_list (Types.accountId d)
      ++ option_list (Types.name d)
  | RiotClient.LLeague entries => entries ≫= leagueStrings
  | RiotClient.LExn URIError | RiotClient.LExn TypeError => []
  | RiotClient.LExn (Error message) => [message]
  | RiotClient.LExn (ApiError e) => [name e; message e]
  end.

(** The strings of an error payload. *)
Definition payloadStrings (r : Server.Response) : list jsstring :=
  match Server.body r with
  | Server.ErrorJson fields =>
      omap (fun entry => match entry.2 with Server.FStr s => Some s | _ => None end)
        fields
  | Server.SuccessJson _ _ => []
  end.

(** The credential is exposed by what is observed of a call when it appears
    in a logged line or in the error payload. *)
Definition exposed (key : jsstring)
    (seen : list RiotClient.logLine * option Server.Response) : Prop :=
  (exists line arg s,
     line ∈ seen.1 /\ arg ∈ line /\ s ∈ logStrings arg /\ appearsIn key s)
  \/ (exists response s,
        seen.2 = Some response /\ s ∈ payloadStrings response /\ appearsIn key s).

End Spec.

(* ================================================================== *)
(** * Sample inputs                                                    *)
(* ================================================================== *)

Module Examples.
Import JS Errors PlatformMapping Types RiotClient Server.

Definition clientWith (apiKey : jsstring) : RiotClient.RiotClient :=
  {| _apiKey := apiKey;
     _client := {| default_headers := [(js "X-Riot-Token", apiKey)];
                   default_timeout := 10000 |} |}.

Definition client : RiotClient.RiotClient := clientWith (js "RGAPI-0000").
Definition otherClient : RiotClient.RiotClient := clientWith (js "RGAPI-1111").

Definition faker : AccountDto :=
  {| acc_puuid := js "puuid-1"; acc_gameName := js "Faker"; acc_tagLine := js "KR1" |}.

Definition fakerProfile : SummonerDto :=
  {| id := None; accountId := None; puuid := js "puuid-1"; name := None;
     profileIconId := 6; summonerLevel := 700; revisionDate := 1700000000000 |}.

(** A ranked entry of a player who has not played a game in the queue. *)
Definition unplayed : LeagueEntryDto :=
  {| leagueId := js "league-1"; le_puuid := js "puuid-1";
     queueType := js "RANKED_SOLO_5x5"; tier := js "IRON"; rank := js "IV";
     leaguePoints := 0; wins := 0; losses := 0;
     hotStreak := false; veteran := false; freshBlood := true; inactive := false;
     miniSeries := None |}.

Definition played : LeagueEntryDto :=
  {| leagueId := js "league-1"; le_puuid := js "puuid-1";
     queueType := js "RANKED_SOLO_5x5"; tier := js "GOLD"; rank := js "II";
     leaguePoints := 40; wins := 44; losses := 47;
     hotStreak := false; veteran := false; freshBlood := false; inactive := false;
     miniSeries := None |}.

Definition answered {T} (data : T) : Outcome T :=
  Responded {| resp_status := 200; resp_headers := []; resp_data := data |}.

Definition rejected {T} (code : Z) (text : jsstring) : Outcome T :=
  Failed (js "Request failed with status code " ++ digits code)
    (Some {| resp_status := code; resp_headers := [];
             resp_data := Some {| Types.status :=
                                    Some {| status_message := text;
                                            status_code := code |} |} |}).

Definition accountNet : Network AccountDto := fun config =>
  if decide (url config
             = js "https://asia.api.riotgames.com/riot/account/v1/accounts/by-riot-id/Faker/KR1")
  then answered faker
  else rejected 404 (js "Data not found").

Definition summonerNet : Network SummonerDto := fun config =>
  if decide (url config
             = js "https://kr.api.riotgames.com/lol/summoner/v4/summoners/by-puuid/puuid-1")
  then answered fakerProfile
  else rejected 404 (js "Data not found").

Definition leagueDown : Network (list LeagueEntryDto) := fun _ =>
  rejected 403 (js "Forbidden").

Definition leagueUnplayed : Network (list LeagueEntryDto) := fun config =>
  if decide (url config
             = js "https://kr.api.riotgames.com/lol/league/v4/entries/by-puuid/puuid-1")
  then answered [unplayed]
  else rejected 404 (js "Data not found").

Definition rankedDown : Upstream :=
  {| net_account := accountNet; net_summoner := summonerNet; net_league := leagueDown |}.

Definition rankedUnplayed : Upstream :=
  {| net_account := accountNet; net_summoner := summonerNet;
     net_league := leagueUnplayed |}.

Definition request : Request :=
  {| q_riotId := Some (JString (js "Faker#KR1"));
     q_region := Some (JString (js "asia")) |}.

(** A throttled request whose response says [retry-after: 120]. *)
Definition throttled : AxiosError :=
  {| ae_message := js "Request failed with status code 429";
     ae_response := Some {| resp_status := 429;
                            resp_headers := [(js "retry-after", js "120")];
                            resp_data := None |};
     ae_config := None |}.

(** Platforms [A; B; C; D] of a region: [A] fails, [B] has an empty array,
    [C] a non-empty one, [D] fails. *)
Definition mixedQuery (puuid : jsstring) (p : Platform) : result (list Z) :=
  match p with
  | br1 => Return []
  | la1 => Return [7]
  | _ => Throw (ApiError (new_PlayerNotFoundError (js "Player not found")))
  end.

Definition failingQuery (puuid : jsstring) (p : Platform) : result (list Z) :=
  Throw (ApiError (new_PlayerNotFoundError (js "Player not found"))).

End Examples.

(* ================================================================== *)
(** * src/server/index.ts, [GET /api/icon/:iconId]                     *)
(* ================================================================== *)

Module NumberConversion.
Import JS.

(** The value of [Number(s)] for a string [s] (ECMA-262, StringToNumber):
    [NaN] when [s] is not a StringNumericLiteral, an infinity, or the exact
    decimal value [mantissa * 10 ^ exponent] of the literal (as elsewhere,
    rounding to a double is not represented). *)
Inductive numeric : Type :=
  | NotANumber
  | Infinite (negative : bool)
  | Finite (mantissa : Z) (exponent : Z).

Definition isBinaryDigit (c : N) : bool := ((c =? 48) || (c =? 49))%N.
Definition isOctalDigit (c : N) : bool := ((48 <=? c) && (c <=? 55))%N.

(** The digits of [s] in base [base] when [s] is a non-empty run of digits
    accepted by [digit]. *)
Definition radixLiteral (base : Z) (digit : N -> option N) (s : jsstring) : numeric :=
  match s with
  | [] => NotANumber
  | _ =>
      match mapM digit s with
      | Some ds => Finite (foldl (fun acc d => base * acc + Z.of_N d) 0 ds) 0
      | None => NotANumber
      end
  end.

Definition binaryDigit (c : N) : option N :=
  if isBinaryDigit c then Some (c - 48)%N else None.
Definition octalDigit (c : N) : option N :=
  if isOctalDigit c then Some (c - 48)%N else None.

Fixpoint restAfterDigits (s : jsstring) : jsstring :=
  match s with
  | c :: r => if isDigit c then restAfterDigits r else s
  | [] => []
  end.

(** ExponentPart, optional, then the end of the literal: the exponent read,
    or nothing when what is left is not an exponent part. *)
Definition exponentPart (s : jsstring) : option Z :=
  match s with
  | [] => Some 0
  | c :: r =>
      if ((c =? 101) || (c =? 69))%N then
        let '(negative, unsigned) :=
          match r with
          | d :: r' =>
              if (d =? 45)%N then (true, r')
              else if (d =? 43)%N then (false, r')
              else (false, r)
          | [] => (false, r)
          end in
        match leadingDigits unsigned, restAfterDigits unsigned with
        | (_ :: _) as ds, [] => Some (if negative then - digitsValue ds else digitsValue ds)
        | _, _ => None
        end
      else None
  end.

(** StrUnsignedDecimalLiteral. *)
Definition unsignedDecimal (s : jsstring) : numeric :=
  if decide (s = js "Infinity") then Infinite false
  else
    let whole := leadingDigits s in
    let afterWhole := restAfterDigits s in
    let '(fraction, afterFraction) :=
      match afterWhole with
      | c :: r => if (c =? 46)%N then (leadingDigits r, restAfterDigits r)
                  else ([], afterWhole)
      | [] => ([], afterWhole)
      end in
    match whole ++ fraction with
    | [] => NotANumber
    | ds =>
        match exponentPart afterFraction with
        | Some e => Finite (digitsValue ds) (e - Z.of_nat (length fraction))
        | None => NotANumber
        end
    end.

Definition negate (n : numeric) : numeric :=
  match n with
  | NotANumber => NotANumber
  | Infinite negative => Infinite (negb negative)
  | Finite m e => Finite (- m) e
  end.

(** [Number(s)] *)
Definition Number_ (s : jsstring) : numeric :=
  match trim s with
  | [] => Finite 0 0
  | c :: r =>
      if (c =? 45)%N then negate (unsignedDecimal r)
      else if (c =? 43)%N then unsignedDecimal r
      else
        match r with
        | x :: digits =>
            if (c =? 48)%N && ((x =? 120) || (x =? 88))%N
            then radixLiteral 16 hexDigit digits
            else if (c =? 48)%N && ((x =? 111) || (x =? 79))%N
            then radixLiteral 8 octalDigit digits
            else if (c =? 48)%N && ((x =? 98) || (x =? 66))%N
            then radixLiteral 2 binaryDigit digits
            else unsignedDecimal (c :: r)
        | [] => unsignedDecimal (c :: r)
        end
  end.

(** [isNaN(n)] *)
Definition isNaN (n : numeric) : bool :=
  match n with
  | NotANumber => true
  | _ => false
  end.

(** The number when it is an integer a double holds exactly and
    [String] prints in plain decimal, that is of magnitude at most 2^53. *)
Definition safeInteger (n : numeric) : option Z :=
  match n with
  | Finite m e =>
      let value :=
        if (m =? 0)%Z then Some 0
        else if (0 <=? e)%Z then Some (m * 10 ^ e)
        else if (m mod 10 ^ (- e) =? 0)%Z then Some (m / 10 ^ (- e))
        else None in
      match value with
      | Some z => if (Z.abs z <=? 2 ^ 53)%Z then Some z else None
      | None => None
      end
  | _ => None
  end.

End NumberConversion.

Module IconRoute.
Import JS Cache Server NumberConversion.

(** What [fetch] of the version list, followed by [.json()], came to. *)
Inductive VersionsOutcome : Type :=
  | VersionsFailed
  | Versions (versions : list jsstring).

(** What [fetch] of one icon URL came to: it threw (or reading the body did),
    the response was not [ok], or it was [ok] with the image bytes. *)
Inductive IconOutcome : Type :=
  | FetchThrew
  | NotOk
  | Image (image : list N).

(** Data Dragon as the route sees it. *)
Record DataDragon : Type := {
  dd_versions : VersionsOutcome;
  dd_icon : jsstring -> IconOutcome
}.

Inductive IconResponse : Type :=
  | Sent (headers : list (string * jsstring)) (payload : Cached)
  | Json (response : Response).

Definition imageHeaders : list (string * jsstring) :=
  [("Content-Type", js "image/png");
   ("Cache-Control", js "public, max-age=86400");
   ("Access-Control-Allow-Origin", js "*")].

Definition iconUrl (version iconId : jsstring) : jsstring :=
  js "https://ddragon.leagueoflegends.com/cdn/" ++ version
  ++ js "/img/profileicon/" ++ iconId ++ js ".png".

Definition invalidIconId : Response :=
  json 400 (ErrorJson
    [("error", FStr (js "Invalid icon ID"));
     ("message", FStr (js "Icon ID must be a number"))]).

Definition iconNotFound (iconId : jsstring) : Response :=
  json 404 (ErrorJson
    [("error", FStr (js "Icon not found"));
     ("message", FStr (js "Profile icon " ++ iconId
                       ++ js " not found in any Data Dragon version"))]).

(** The [for (const version of versions)] loop: the first version whose
    fetch is [ok] is cached and sent; [None] when the loop runs out. *)
Fixpoint tryVersions (dd : DataDragon) (iconId : jsstring) (number : Z)
    (versions : list jsstring) (now : Z) (store : NodeCache.t Cached)
    : option (IconResponse * NodeCache.t Cached) :=
  match versions with
  | [] => None
  | version :: rest =>
      match dd_icon dd (iconUrl version iconId) with
      | Image imageData =>
          let '(_, store') :=
            CacheService.cacheIcon number (IconData imageData) now store in
          Some (Sent imageHeaders (IconData imageData), store')
      | _ => tryVersions dd iconId number rest now store
      end
  end.

(** [versions[0] || '14.18.1'] after the version lookup, ['14.18.1'] when the
    lookup threw. *)
Definition dataDragonVersion (dd : DataDragon) : jsstring :=
  match dd_versions dd with
  | Versions versions => RiotClient.orElse (head versions) (js "14.18.1")
  | VersionsFailed => js "14.18.1"
  end.

Definition versionsToTry (dd : DataDragon) : list jsstring :=
  [dataDragonVersion dd; js "15.18.1"; js "14.18.1"; js "14.17.1"; js "14.16.1"].

(** The route handler, for the path parameter [iconId]; [tCheck] and [tStore]
    are the clock readings at the cache lookup and at the cache write.  The
    result is [None] for an [iconId] whose number is not an integer of
    magnitude at most 2^53: the cache key of such a number is not modelled. *)
Definition getIcon (dd : DataDragon) (iconId : jsstring) (tCheck tStore : Z)
    (store : NodeCache.t Cached) : option (IconResponse * NodeCache.t Cached) :=
  match iconId with
  | [] => Some (Json invalidIconId, store)
  | _ =>
  if isNaN (Number_ iconId) then Some (Json invalidIconId, store)
  else
  match safeInteger (Number_ iconId) with
  | None => None
  | Some number =>
      let '(cachedIconData, store1) :=
        CacheService.getCachedIcon number tCheck store in
      match cachedIconData with
      | Some cached => Some (Sent imageHeaders cached, store1)
      | None =>
          match tryVersions dd iconId number (versionsToTry dd) tStore store1 with
          | Some served => Some served
          | None => Some (Json (iconNotFound iconId), store1)
          end
      end
  end
  end.

End IconRoute.

(** * Further sample inputs *)

Module MoreExamples.
Import JS Errors PlatformMapping Types RiotClient Server IconRoute.

(** Data Dragon with the current version list, holding icon 6 only from
    version 14.18.1 on. *)
Definition dragon : DataDragon :=
  {| dd_versions := Versions [js "15.20.1"; js "15.19.1"];
     dd_icon := fun url =>
       if decide (url = iconUrl (js "15.20.1") (js "6")) then FetchThrew
       else if decide (url = iconUrl (js "15.18.1") (js "6")) then NotOk
       else if decide (url = iconUrl (js "14.18.1") (js "6")) then Image [137; 80; 78; 71]%N
       else NotOk |}.

Definition dragonDown : DataDragon :=
  {| dd_versions := VersionsFailed; dd_icon := fun _ => FetchThrew |}.

(** An upstream that rejects the request with a status the client has no
    fixed message for, and repeats the token it was sent in its error body. *)
Definition echo : Network AccountDto := fun config =>
  Failed (js "Request failed with status code 418")
    (Some {| resp_status := 418; resp_headers := [];
             resp_data :=
               Some {| Types.status :=
                         Some {| status_message :=
                                   default [] (header (js "X-Riot-Token") (headers config));
                                 status_code := 418 |} |} |}).

(** A ranked entry with 23 wins in 40 games. *)
Definition closeCall : LeagueEntryDto :=
  {| leagueId := js "league-1"; le_puuid := js "puuid-1";
     queueType := js "RANKED_SOLO_5x5"; tier := js "GOLD"; rank := js "II";
     leaguePoints := 40; wins := 23; losses := 17;
     hotStreak := false; veteran := false; freshBlood := false; inactive := false;
     miniSeries := None |}.

(** A name that ends in an unpaired surrogate. *)
Definition unpaired : jsstring := js "Faker" ++ [55357%N].

(** The profile of a player registered on the third platform of [asia]. *)
Definition summonerOnOc1 : Network SummonerDto := fun config =>
  if decide (url config
             = js "https://oc1.api.riotgames.com/lol/summoner/v4/summoners/by-puuid/puuid-1")
  then Examples.answered Examples.fakerProfile
  else Examples.rejected 404 (js "Data not found").

Definition playerOnOc1 : Upstream :=
  {| net_account := Examples.accountNet;
     net_summoner := summonerOnOc1;
     net_league := Examples.leagueDown |}.

(** An upstream where no platform knows the player. *)
Definition profileMissing : Upstream :=
  {| net_account := Examples.accountNet;
     net_summoner := fun _ => Examples.rejected 404 (js "Data not found");
     net_league := Examples.leagueDown |}.

End MoreExamples.

(* ================================================================== *)
(** * Further vocabulary                                               *)
(* ================================================================== *)

Module Decoding.
Import JS.

(** What [decodeURIComponent] does after a [%]: the units the escape that
    starts there stands for, and the rest of the string. *)
Definition readEscape (s : jsstring) : option (jsstring * jsstring) :=
  match s with
  | h :: l :: rest1 =>
      match parseHexOctet h l with
      | None => None
      | Some b =>
          if (b <? 128)%N then Some ([b], rest1)
          else if (b <? 192)%N then None
          else if (b <? 224)%N then
            match rest1 with
            | p1 :: h1 :: l1 :: rest2 =>
                match continuation p1 h1 l1 with
                | Some c1 =>
                    let cp := ((b - 192) * 64 + c1)%N in
                    if validScalar 128 cp
                    then Some (UTF16EncodeCodePoint cp, rest2)
                    else None
                | None => None
                end
            | _ => None
            end
          else if (b <? 240)%N then
            match rest1 with
            | p1 :: h1 :: l1 :: p2 :: h2 :: l2 :: rest3 =>
                match continuation p1 h1 l1, continuation p2 h2 l2 with
                | Some c1, Some c2 =>
                    let cp := (((b - 224) * 64 + c1) * 64 + c2)%N in
                    if validScalar 2048 cp
                    then Some (UTF16EncodeCodePoint cp, rest3)
                    else None
                | _, _ => None
                end
            | _ => None
            end
          else if (b <? 248)%N then
            match rest1 with
            | p1 :: h1 :: l1 :: p2 :: h2 :: l2 :: p3 :: h3 :: l3 :: rest4 =>
                match continuation p1 h1 l1, continuation p2 h2 l2,
                      continuation p3 h3 l3 with
                | Some c1, Some c2, Some c3 =>
                    let cp := ((((b - 240) * 64 + c1) * 64 + c2) * 64 + c3)%N in
                    if validScalar 65536 cp
                    then Some (UTF16EncodeCodePoint cp, rest4)
                    else None
                | _, _, _ => None
                end
            | _ => None
            end
          else None
      end
  | _ => None
  end.

End Decoding.

Module Requests.
Import JS Errors RiotClient.

(** The request a client built with the API key [key] makes for [url]. *)
Definition tokenRequest (key url : jsstring) : AxiosRequestConfig :=
  {| url := url; method := js "get";
     headers := [(js "X-Riot-Token", key)]; timeout := 10000 |}.

(** What a client operation comes to for the outcome of its request: the
    data of the response, or the error the interceptor makes of the
    failure. *)
Definition answerOf {T} (net : Network T) (config : AxiosRequestConfig) : result T :=
  match net config with
  | Responded response => Return (resp_data response)
  | Failed message response =>
      Throw (_handleApiError {| ae_message := message; ae_response := response;
                                ae_config := Some config |}).2
  end.

(** The body [handleApiError] answers an unexpected error with. *)
Definition internalServerError : Server.Response :=
  Server.json 500 (Server.ErrorJson
    [("error", Server.FStr (js "Internal server error"));
     ("message", Server.FStr (js "An unexpected error occurred"))]).

End Requests.

(* ================================================================== *)
(** * Properties                                                       *)
(* ================================================================== *)

(** ** Strings *)

Section StringFacts.
Import JS.

Lemma countMatches_nil c : countMatches c [] = 0%nat.
Proof. reflexivity. Qed.

Lemma countMatches_cons c u s :
  countMatches c (u :: s) =
  if decide (u = c) then S (countMatches c s) else countMatches c s.
Proof.
  unfold countMatches. rewrite filter_cons.
  destruct (decide (u = c)); reflexivity.
Qed.

Lemma countMatches_absent c s : c ∉ s -> countMatches c s = 0%nat.
Proof.
  induction s as [|u s IH]; intros Hc; [reflexivity|].
  rewrite countMatches_cons. apply not_elem_of_cons in Hc as [Hu Hs].
  destruct (decide (u = c)); [congruence | auto].
Qed.

Lemma countMatches_zero c s : countMatches c s = 0%nat -> c ∉ s.
Proof.
  induction s as [|u s IH]; intros Hn; [apply not_elem_of_nil|].
  rewrite countMatches_cons in Hn.
  destruct (decide (u = c)); [discriminate|].
  apply not_elem_of_cons. split; [congruence | auto].
Qed.

Lemma countMatches_app c a b :
  countMatches c (a ++ b) = (countMatches c a + countMatches c b)%nat.
Proof. unfold countMatches. rewrite filter_app, length_app. reflexivity. Qed.

(** Exactly one occurrence: the string is cut in two halves free of [c]. *)
Lemma countMatches_one c s :
  countMatches c s = 1%nat <->
  exists a b, s = a ++ (c :: b) /\ (c ∉ a) /\ (c ∉ b).
Proof.
  split.
  - induction s as [|u s IH]; intros Hn; [discriminate|].
    rewrite countMatches_cons in Hn. destruct (decide (u = c)) as [->|Hu].
    + exists [], s. split; [reflexivity|]. split; [apply not_elem_of_nil|].
      apply countMatches_zero. lia.
    + destruct (IH Hn) as (a & b & -> & Ha & Hb).
      exists (u :: a), b. split; [reflexivity|]. split; [|assumption].
      apply not_elem_of_cons. split; [congruence | assumption].
  - intros (a & b & -> & Ha & Hb).
    rewrite countMatches_app, countMatches_cons, decide_True by reflexivity.
    rewrite !countMatches_absent by assumption. reflexivity.
Qed.

Lemma split_absent c s : c ∉ s -> split c s = [s].
Proof.
  induction s as [|u s IH]; intros Hc; [reflexivity|].
  apply not_elem_of_cons in Hc as [Hu Hs]. simpl.
  destruct (N.eqb_spec u c); [congruence|]. rewrite IH by assumption. reflexivity.
Qed.

Lemma split_at c a r : c ∉ a -> split c (a ++ c :: r) = a :: split c r.
Proof.
  induction a as [|u a IH]; intros Hc; simpl.
  - rewrite N.eqb_refl. reflexivity.
  - apply not_elem_of_cons in Hc as [Hu Ha].
    destruct (N.eqb_spec u c); [congruence|]. rewrite IH by assumption. reflexivity.
Qed.

Lemma split_halves c a b : c ∉ a -> c ∉ b -> split c (a ++ c :: b) = [a; b].
Proof. intros Ha Hb. rewrite split_at, split_absent by assumption. reflexivity. Qed.

(** A string without [%] is its own percent-decoding. *)
Lemma decodeURIComponent_plain s :
  PERCENT ∉ s -> decodeURIComponent s = Some s.
Proof.
  induction s as [|u s IH]; intros Hp; [reflexivity|].
  apply not_elem_of_cons in Hp as [Hu Hs]. simpl.
  destruct (N.eqb_spec u PERCENT); [congruence|].
  rewrite IH by assumption. reflexivity.
Qed.

End StringFacts.

(** ** Identity parser *)

Section RiotIdParserFacts.
Import JS Errors RiotIdParser Spec.

Lemma blank_Some p : blank (Some p) = true <-> trim p = [].
Proof. unfold blank. destruct (trim p); split; congruence. Qed.

Lemma FormatError_inj a b : FormatError a = FormatError b -> a = b.
Proof.
  intros Heq.
  assert (invalidFormatMessage a = invalidFormatMessage b) as Hm
    by (unfold FormatError in Heq; congruence).
  unfold invalidFormatMessage in Hm.
  apply app_inv_head in Hm. apply app_inv_tail in Hm. exact Hm.
Qed.

(** What [isValid] answers is decided by the percent-decoded string. *)
Lemma isValid_wellFormed raw d :
  decodeURIComponent raw = Some d -> wellFormed d ->
  isValid (JString raw) = Return true.
Proof.
  intros Hd (a & b & -> & Ha & Hb & Hta & Htb).
  destruct raw as [|u raw]; [destruct a; discriminate|].
  unfold isValid. rewrite Hd.
  assert (countMatches HASH (a ++ HASH :: b) = 1%nat) as ->
    by (apply countMatches_one; eauto).
  rewrite split_halves by assumption. simpl negb. cbv iota.
  change ([a; b] !! 0%nat) with (Some a). change ([a; b] !! 1%nat) with (Some b).
  destruct (blank (Some a)) eqn:Ea; [apply blank_Some in Ea; contradiction|].
  destruct (blank (Some b)) eqn:Eb; [apply blank_Some in Eb; contradiction|].
  reflexivity.
Qed.

Lemma isValid_not_wellFormed raw d :
  decodeURIComponent raw = Some d -> ~ wellFormed d ->
  isValid (JString raw) = Return false.
Proof.
  intros Hd Hnw. destruct raw as [|u raw]; [reflexivity|].
  unfold isValid. rewrite Hd.
  destruct (countMatches HASH d =? 1)%nat eqn:Hc; [|reflexivity].
  apply Nat.eqb_eq in Hc. apply countMatches_one in Hc as (a & b & -> & Ha & Hb).
  rewrite split_halves by assumption. simpl negb. cbv iota.
  change ([a; b] !! 0%nat) with (Some a). change ([a; b] !! 1%nat) with (Some b).
  destruct (blank (Some a)) eqn:Ea; [reflexivity|].
  destruct (blank (Some b)) eqn:Eb; [reflexivity|].
  exfalso. apply Hnw. exists a, b. repeat split; try assumption.
  - intros Ht. apply blank_Some in Ht. congruence.
  - intros Ht. apply blank_Some in Ht. congruence.
Qed.

(** [parse] returns the trimmed halves when a second decoding does not change
    the decoded string. *)
Lemma parse_wellFormed raw a b :
  decodeURIComponent raw = Some (a ++ HASH :: b) ->
  HASH ∉ a -> HASH ∉ b -> trim a <> [] -> trim b <> [] ->
  decodeURIComponent (a ++ HASH :: b) = Some (a ++ HASH :: b) ->
  parse raw = Return {| gameName := trim a; tagLine := trim b |}.
Proof.
  intros Hd Ha Hb Hta Htb Hstable. unfold parse. rewrite Hd.
  rewrite (isValid_wellFormed _ _ Hstable) by (exists a, b; auto).
  simpl. rewrite split_halves by assumption. reflexivity.
Qed.

(** The cases of tests/utils.test.ts and of the specification. *)
Example parse_trims_both_halves :
  parse (js "  Faker  #  KR1  ")
  = Return {| gameName := js "Faker"; tagLine := js "KR1" |}.
Proof. reflexivity. Qed.

Example isValid_cases :
  map (fun raw => isValid (JString (js raw)))
      ["Samir#2468"; "F#KR"; "Faker#K"; "Samir%232468";
       "Faker"; "Faker#"; "#KR1"; "Faker#KR1#Extra"; ""]
  = map Return [true; true; true; true; false; false; false; false; false].
Proof. reflexivity. Qed.

Example isValid_malformed_escape : isValid (JString (js "100%")) = Throw URIError.
Proof. reflexivity. Qed.

End RiotIdParserFacts.

(** ** Parallel partition queries *)

Section ParallelQueriesFacts.
Import JS Errors PlatformMapping ParallelQueries Spec.

Lemma slotsAfter_lookup {A} (promises : list (settled A)) done i :
  slotsAfter promises done !! i =
  (fun p => if decide (i ∈ done) then Some p else None) <$> promises !! i.
Proof. unfold slotsAfter. apply list_lookup_imap. Qed.

Lemma slotsAfter_nil {A} (promises : list (settled A)) :
  replicate (length promises) None = slotsAfter promises [].
Proof.
  apply list_eq. intros i. rewrite slotsAfter_lookup.
  destruct (promises !! i) as [p|] eqn:Hp; simpl.
  - apply lookup_replicate_2. eapply lookup_lt_Some; eassumption.
  - apply lookup_ge_None. rewrite length_replicate.
    apply lookup_ge_None in Hp. exact Hp.
Qed.

Lemma settleOne_slotsAfter {A} (promises : list (settled A)) done i :
  settleOne promises (slotsAfter promises done) i = slotsAfter promises (i :: done).
Proof.
  unfold settleOne. apply list_eq. intros j.
  destruct (promises !! i) as [p|] eqn:Hp.
  - destruct (decide (i = j)) as [<-|Hij].
    + rewrite list_lookup_insert_eq.
      * rewrite slotsAfter_lookup, Hp. simpl.
        rewrite decide_True by (apply elem_of_cons; auto). reflexivity.
      * unfold slotsAfter. rewrite length_imap. eapply lookup_lt_Some; eassumption.
    + rewrite list_lookup_insert_ne by assumption.
      rewrite !slotsAfter_lookup. destruct (promises !! j); [simpl|reflexivity].
      destruct (decide (j ∈ done)) as [Hin|Hin].
      * rewrite decide_True by (apply elem_of_cons; auto). reflexivity.
      * rewrite decide_False; [reflexivity|].
        intros Hc. apply elem_of_cons in Hc as [->|Hc]; contradiction.
  - rewrite !slotsAfter_lookup. destruct (promises !! j) as [q|] eqn:Hq; [simpl|reflexivity].
    assert (i <> j) by congruence.
    destruct (decide (j ∈ done)) as [Hin|Hin].
    + rewrite decide_True by (apply elem_of_cons; auto). reflexivity.
    + rewrite decide_False; [reflexivity|].
      intros Hc. apply elem_of_cons in Hc as [->|Hc]; contradiction.
Qed.

Lemma foldl_settleOne {A} (promises : list (settled A)) order done :
  foldl (settleOne promises) (slotsAfter promises done) order
  = slotsAfter promises (rev order ++ done).
Proof.
  revert done. induction order as [|i order IH]; intros done; [reflexivity|].
  simpl. rewrite settleOne_slotsAfter, IH, <- app_assoc. reflexivity.
Qed.

(** Once every promise has settled, in whatever order, [Promise.allSettled]
    resolves with the outcomes in the order the promises were given. *)
Lemma allSettled_complete {A} (promises : list (settled A)) (order : list nat) :
  (forall i, (i < length promises)%nat -> i ∈ order) ->
  allSettled promises order = Some promises.
Proof.
  intros Hall. unfold allSettled.
  rewrite slotsAfter_nil, foldl_settleOne, app_nil_r.
  assert (slotsAfter promises (rev order) = Some <$> promises) as ->.
  { apply list_eq. intros i. rewrite slotsAfter_lookup, list_lookup_fmap.
    destruct (promises !! i) as [p|] eqn:Hp; [simpl|reflexivity].
    rewrite decide_True; [reflexivity|].
    apply list_elem_of_In, (proj1 (in_rev _ _)), list_elem_of_In.
    apply Hall. eapply lookup_lt_Some; eassumption. }
  apply mapM_fmap_Some. reflexivity.
Qed.

(** While some promise has not settled, [Promise.allSettled] has not resolved:
    the selection never starts on a partial set of outcomes. *)
Lemma allSettled_pending {A} (promises : list (settled A)) (order : list nat) i :
  (i < length promises)%nat -> i ∉ order ->
  allSettled promises order = None.
Proof.
  intros Hi Hnot. unfold allSettled.
  rewrite slotsAfter_nil, foldl_settleOne, app_nil_r.
  destruct (mapM id (slotsAfter promises (rev order))) as [l|] eqn:Hm; [|reflexivity].
  exfalso. apply mapM_Some_1 in Hm.
  destruct (lookup_lt_is_Some_2 promises i Hi) as [p Hp].
  assert (slotsAfter promises (rev order) !! i = Some None) as Hslot.
  { rewrite slotsAfter_lookup, Hp. simpl. rewrite decide_False; [reflexivity|].
    intros Hin. apply Hnot.
    apply list_elem_of_In, in_rev, list_elem_of_In. exact Hin. }
  destruct (Forall2_lookup_l _ _ _ _ _ Hm Hslot) as (y & _ & Hy). discriminate Hy.
Qed.

End ParallelQueriesFacts.

Section SelectionFacts.
Import JS Errors PlatformMapping ParallelQueries.
Context {T : Type} `{Payload T}.
Variable queryFn : jsstring -> Platform -> result T.
Variable puuid : jsstring.

Lemma firstWithData_found (ps : list Platform) i p d :
  ps !! i = Some p -> queryFn puuid p = Return d -> hasElements d = true ->
  (forall j q dq, (j < i)%nat -> ps !! j = Some q ->
     queryFn puuid q = Return dq -> hasElements dq = false) ->
  firstWithData (map (attempt queryFn puuid) ps) = Some {| platform := p; data := d |}.
Proof.
  revert i. induction ps as [|q ps IH]; intros [|i] Hp Hq Hd Hfirst; try discriminate.
  - injection Hp as ->. simpl. unfold attempt at 1. rewrite Hq. simpl. rewrite Hd.
    reflexivity.
  - simpl in Hp. simpl. unfold attempt at 1.
    destruct (queryFn puuid q) as [dq|e] eqn:Eq.
    + simpl. rewrite (Hfirst 0%nat q dq) by (simpl; auto with lia).
      apply (IH i); auto. intros j q' dq' Hj. apply (Hfirst (S j)). lia.
    + apply (IH i); auto. intros j q' dq' Hj. apply (Hfirst (S j)). lia.
Qed.

Lemma firstWithData_none (ps : list Platform) :
  (forall q dq, q ∈ ps -> queryFn puuid q = Return dq -> hasElements dq = false) ->
  firstWithData (map (attempt queryFn puuid) ps) = None.
Proof.
  induction ps as [|q ps IH]; intros Hnone; [reflexivity|].
  simpl. unfold attempt at 1. destruct (queryFn puuid q) as [dq|e] eqn:Eq.
  - simpl. rewrite (Hnone q dq) by (auto; apply elem_of_cons; auto).
    apply IH. intros q' dq' Hin. apply Hnone. apply elem_of_cons; auto.
  - apply IH. intros q' dq' Hin. apply Hnone. apply elem_of_cons; auto.
Qed.

Lemma firstSuccessful_found (ps : list Platform) i p d :
  ps !! i = Some p -> queryFn puuid p = Return d ->
  (forall j q, (j < i)%nat -> ps !! j = Some q -> exists e, queryFn puuid q = Throw e) ->
  firstSuccessful (map (attempt queryFn puuid) ps) = Some {| platform := p; data := d |}.
Proof.
  revert i. induction ps as [|q ps IH]; intros [|i] Hp Hq Hfirst; try discriminate.
  - injection Hp as ->. simpl. unfold attempt at 1. rewrite Hq. reflexivity.
  - simpl in Hp. simpl. unfold attempt at 1.
    destruct (Hfirst 0%nat q) as [e ->]; [lia | reflexivity |].
    apply (IH i); auto. intros j q' Hj. apply (Hfirst (S j)). lia.
Qed.

Lemma firstSuccessful_none (ps : list Platform) :
  (forall q, q ∈ ps -> exists e, queryFn puuid q = Throw e) ->
  firstSuccessful (map (attempt queryFn puuid) ps) = None.
Proof.
  induction ps as [|q ps IH]; intros Hnone; [reflexivity|].
  simpl. unfold attempt at 1.
  destruct (Hnone q) as [e ->]; [apply elem_of_cons; auto|].
  apply IH. intros q' Hin. apply Hnone. apply elem_of_cons; auto.
Qed.

Lemma firstSuccessful_some (ps : list Platform) p d :
  p ∈ ps -> queryFn puuid p = Return d ->
  exists r, firstSuccessful (map (attempt queryFn puuid) ps) = Some r.
Proof.
  induction ps as [|q ps IH]; intros Hin Hq; [by apply elem_of_nil in Hin|].
  simpl. unfold attempt at 1. destruct (queryFn puuid q) as [dq|e] eqn:Eq; [eauto|].
  apply elem_of_cons in Hin as [->|Hin]; [congruence|]. auto.
Qed.

(** Either loop only ever returns what a platform's query returned. *)
Lemma firstSuccessful_sound (ps : list Platform) r :
  firstSuccessful (map (attempt queryFn puuid) ps) = Some r ->
  platform r ∈ ps /\ queryFn puuid (platform r) = Return (data r).
Proof.
  induction ps as [|q ps IH]; [discriminate|].
  simpl. unfold attempt at 1. destruct (queryFn puuid q) as [dq|e] eqn:Eq.
  - intros [= <-]. simpl. split; [apply elem_of_cons; auto | assumption].
  - intros Hr. destruct (IH Hr). split; [apply elem_of_cons; auto | assumption].
Qed.

Lemma firstWithData_sound (ps : list Platform) r :
  firstWithData (map (attempt queryFn puuid) ps) = Some r ->
  platform r ∈ ps /\ queryFn puuid (platform r) = Return (data r).
Proof.
  induction ps as [|q ps IH]; [discriminate|].
  simpl. unfold attempt at 1. destruct (queryFn puuid q) as [dq|e] eqn:Eq.
  - simpl. destruct (hasElements dq).
    + intros [= <-]. simpl. split; [apply elem_of_cons; auto | assumption].
    + intros Hr. destruct (IH Hr). split; [apply elem_of_cons; auto | assumption].
  - intros Hr. destruct (IH Hr). split; [apply elem_of_cons; auto | assumption].
Qed.

Lemma selectResult_sound region (ps : list Platform) r :
  selectResult region (map (attempt queryFn puuid) ps) = Return r ->
  platform r ∈ ps /\ queryFn puuid (platform r) = Return (data r).
Proof.
  unfold selectResult.
  destruct (firstWithData _) as [r1|] eqn:E1.
  - intros [= <-]. eapply firstWithData_sound; eassumption.
  - destruct (firstSuccessful _) as [r2|] eqn:E2; [|discriminate].
    intros [= <-]. eapply firstSuccessful_sound; eassumption.
Qed.

Lemma selectResult_all_failed region (ps : list Platform) :
  (forall q, q ∈ ps -> exists e, queryFn puuid q = Throw e) ->
  selectResult region (map (attempt queryFn puuid) ps)
  = Throw (notFoundOnAnyPlatform region).
Proof.
  intros Hall. unfold selectResult.
  rewrite firstWithData_none, firstSuccessful_none; auto.
  intros q dq Hin Hq. destruct (Hall q Hin) as [e He]. congruence.
Qed.

Lemma selectResult_some_succeeded region (ps : list Platform) p d :
  p ∈ ps -> queryFn puuid p = Return d ->
  exists r, selectResult region (map (attempt queryFn puuid) ps) = Return r.
Proof.
  intros Hin Hq. unfold selectResult.
  destruct (firstWithData _); [eauto|].
  destruct (firstSuccessful_some ps p d Hin Hq) as [r ->]. eauto.
Qed.

End SelectionFacts.

Section FanOut.
Import JS Errors PlatformMapping ParallelQueries.
Context {T : Type} `{Payload T}.

(** The fan-out with an explicit completion order is the fan-out awaited. *)
Lemma queryPlatformsInParallelAt_complete (order : list nat) puuid region
    (queryFn : jsstring -> Platform -> result T) :
  (forall i, (i < length (getPlatformsForRegion region))%nat -> i ∈ order) ->
  queryPlatformsInParallelAt order puuid region queryFn
  = Some (queryPlatformsInParallel puuid region queryFn).
Proof.
  intros Hall. unfold queryPlatformsInParallelAt, queryPlatformsInParallel.
  rewrite allSettled_complete; [reflexivity|].
  rewrite length_map. exact Hall.
Qed.

(** C1.  Once every per-platform invocation has settled, in whatever order,
    [queryPlatformsInParallel] returns the first success, in platform
    enumeration order, whose payload is a non-empty array when there is one,
    and otherwise the first success of any kind; the result is the same for
    every completion order. *)
Theorem queryPlatformsInParallel_selection (order : list nat) puuid region
    (queryFn : jsstring -> Platform -> result T) :
  (forall i, (i < length (getPlatformsForRegion region))%nat -> i ∈ order) ->
  queryPlatformsInParallelAt order puuid region queryFn
    = Some (queryPlatformsInParallel puuid region queryFn)
  /\ (forall i p d,
        getPlatformsForRegion region !! i = Some p ->
        queryFn puuid p = Return d -> hasElements d = true ->
        (forall j q dq, (j < i)%nat -> getPlatformsForRegion region !! j = Some q ->
           queryFn puuid q = Return dq -> hasElements dq = false) ->
        queryPlatformsInParallelAt order puuid region queryFn
        = Some (Return {| platform := p; data := d |}))
  /\ (forall i p d,
        (forall q dq, q ∈ getPlatformsForRegion region ->
           queryFn puuid q = Return dq -> hasElements dq = false) ->
        getPlatformsForRegion region !! i = Some p ->
        queryFn puuid p = Return d ->
        (forall j q, (j < i)%nat -> getPlatformsForRegion region !! j = Some q ->
           exists e, queryFn puuid q = Throw e) ->
        queryPlatformsInParallelAt order puuid region queryFn
        = Some (Return {| platform := p; data := d |})).
Proof.
  intros Hall. rewrite (queryPlatformsInParallelAt_complete _ _ _ _ Hall).
  split; [reflexivity|]. unfold queryPlatformsInParallel, selectResult. split.
  - intros i p d Hp Hq Hd Hfirst.
    rewrite (firstWithData_found queryFn puuid _ i p d); auto.
  - intros i p d Hnone Hp Hq Hfirst.
    rewrite firstWithData_none by assumption.
    rewrite (firstSuccessful_found queryFn puuid _ i p d); auto.
Qed.

(** C4.  The fan-out fails exactly when every per-platform invocation failed,
    and then with the [PlayerNotFoundError] that names the region; as soon as
    one platform succeeded it returns a platform's success. *)
Theorem queryPlatformsInParallel_not_found (order : list nat) puuid region
    (queryFn : jsstring -> Platform -> result T) :
  (forall i, (i < length (getPlatformsForRegion region))%nat -> i ∈ order) ->
  ((exists e, queryPlatformsInParallelAt order puuid region queryFn = Some (Throw e))
     <-> (forall p, p ∈ getPlatformsForRegion region ->
            exists e, queryFn puuid p = Throw e))
  /\ (forall e, queryPlatformsInParallelAt order puuid region queryFn = Some (Throw e) ->
        e = ApiError (new_PlayerNotFoundError
                        (js "Player not found on any platform in " ++ regionName region)))
  /\ (forall p d, p ∈ getPlatformsForRegion region -> queryFn puuid p = Return d ->
        exists r, queryPlatformsInParallelAt order puuid region queryFn = Some (Return r)
                  /\ platform r ∈ getPlatformsForRegion region
                  /\ queryFn puuid (platform r) = Return (data r)).
Proof.
  intros Hall. rewrite (queryPlatformsInParallelAt_complete _ _ _ _ Hall).
  unfold queryPlatformsInParallel.
  assert (forall p d, p ∈ getPlatformsForRegion region -> queryFn puuid p = Return d ->
            exists r, selectResult region
                        (map (attempt queryFn puuid) (getPlatformsForRegion region))
                      = Return r
                      /\ platform r ∈ getPlatformsForRegion region
                      /\ queryFn puuid (platform r) = Return (data r)) as Hsome.
  { intros p d Hin Hq.
    destruct (selectResult_some_succeeded queryFn puuid region _ p d Hin Hq) as [r Hr].
    exists r. split; [assumption|]. eapply selectResult_sound; eassumption. }
  assert (forall e, selectResult region
                      (map (attempt queryFn puuid) (getPlatformsForRegion region))
                    = Throw e ->
            forall p, p ∈ getPlatformsForRegion region ->
                      exists e', queryFn puuid p = Throw e') as Hfail.
  { intros e He p Hin. destruct (queryFn puuid p) as [d|e'] eqn:Hq; [|eauto].
    destruct (Hsome p d Hin Hq) as (r & Hr & _). congruence. }
  split; [split|split].
  - intros [e [= He]]. eauto.
  - intros Hallfail. eexists. f_equal.
    apply selectResult_all_failed. assumption.
  - intros e [= He].
    rewrite (selectResult_all_failed queryFn puuid region _ (Hfail e He)) in He.
    injection He as <-. reflexivity.
  - intros p d Hin Hq. destruct (Hsome p d Hin Hq) as (r & -> & Hr). eauto.
Qed.

End FanOut.

(** ** Upstream client *)

Section ClientFacts.
Import JS Errors Types RiotClient.

(** C5.  The interceptor maps an upstream failure to the error taxonomy by its
    status: 401 to [InvalidApiKeyError], 404 to [PlayerNotFoundError], 429 to a
    [RateLimitError] carrying the [retry-after] header read as an integer (60
    when the header is missing or empty), and anything else to a plain
    [RiotApiError] whose status code is the upstream status (500 when no
    response, hence no status, is available). *)
Theorem handleApiError_taxonomy (error : AxiosError) :
  (statusOf error = 401 ->
     (_handleApiError error).2 = ApiError new_InvalidApiKeyError)
  /\ (statusOf error = 404 ->
        (_handleApiError error).2
        = ApiError (new_PlayerNotFoundError (js "Player not found")))
  /\ (forall r, ae_response error = Some r -> resp_status r = 429 ->
        (_handleApiError error).2
        = ApiError (new_RateLimitError
                      match header (js "retry-after") (resp_headers r) with
                      | Some (c :: v) => parseInt10 (c :: v)
                      | _ => Int 60
                      end))
  /\ (statusOf error <> 401 -> statusOf error <> 404 -> statusOf error <> 429 ->
        exists e, (_handleApiError error).2 = ApiError e
                  /\ cls e = RiotApiError
                  /\ statusCode e = statusOf error
                  /\ retryAfter e = None)
  /\ (forall r, ae_response error = Some r -> resp_status r <> 0 ->
        statusOf error = resp_status r)
  /\ (ae_response error = None -> statusOf error = 500).
Proof.
  repeat split.
  - intros Hs. unfold _handleApiError. rewrite Hs. reflexivity.
  - intros Hs. unfold _handleApiError. rewrite Hs. reflexivity.
  - intros r Hr Hs. unfold _handleApiError, statusOf. rewrite Hr, Hs. reflexivity.
  - intros H401 H404 H429. unfold _handleApiError. cbv zeta.
    repeat match goal with
    | |- context [(statusOf error =? ?n)%Z] =>
        destruct (Z.eqb_spec (statusOf error) n) as [Heq|?];
        [try contradiction; rewrite ?Heq; eexists; repeat split; reflexivity |]
    end.
    eexists; repeat split; reflexivity.
  - intros r Hr Hs. unfold statusOf. rewrite Hr.
    destruct (Z.eqb_spec (resp_status r) 0); [contradiction | reflexivity].
  - intros Hr. unfold statusOf. rewrite Hr. reflexivity.
Qed.

Example new_RiotClient_sample :
  new_RiotClient (js "RGAPI-0000") = Return Examples.client
  /\ new_RiotClient (js "RGAPI-1111") = Return Examples.otherClient
  /\ new_RiotClient [] = Throw (Error (js "API key is required")).
Proof. repeat split; reflexivity. Qed.

(** A failed request surfaces from [get] as the interceptor's error. *)
Lemma get_failed {T} (c : RiotClient) (net : Network T) url message response :
  net (requestConfig c url) = Failed message response ->
  (get c net url).2
  = Throw (_handleApiError {| ae_message := message; ae_response := response;
                              ae_config := Some (requestConfig c url) |}).2.
Proof.
  intros Hnet. unfold get. cbv zeta. rewrite Hnet.
  destruct (_handleApiError _). reflexivity.
Qed.

(** The interceptor always throws an instance of [RiotApiError]. *)
Lemma handleApiError_instance (error : AxiosError) :
  exists e, (_handleApiError error).2 = ApiError e.
Proof.
  unfold _handleApiError. cbv zeta.
  repeat match goal with
  | |- context [(?s =? ?n)%Z] => destruct (s =? n)%Z; [eexists; reflexivity|]
  end.
  eexists; reflexivity.
Qed.

(** The [catch] of a client method passes such an error on unchanged. *)
Lemma rethrow_ApiError {T} label failure log (e : apiError) :
  (rethrow (T := T) label failure (log, Throw (ApiError e))).2 = Throw (ApiError e).
Proof. reflexivity. Qed.

(** The part of a request the interceptor reads does not include its
    headers: two clients get the same log and the same error for the same
    upstream outcome. *)
Lemma get_same_outcome {T} (c1 c2 : RiotClient) (net1 net2 : Network T) url :
  net1 (requestConfig c1 url) = net2 (requestConfig c2 url) ->
  get c1 net1 url = get c2 net2 url.
Proof.
  intros Hnet. unfold get. cbv zeta. rewrite Hnet.
  destruct (net2 _) as [response|message response]; reflexivity.
Qed.

(** The claim C8 as the specification words it fails: when the upstream
    repeats the token in the body of a rejection that has no fixed message,
    the client's error message, and with it the error payload, carries the
    API key (the logged response data carries it too). *)
Lemma upstream_echo_exposes_credential :
  ~ (forall (c : RiotClient) (net : Network AccountDto) gameName tagLine region,
       ~ Spec.exposed (_apiKey c)
           (Spec.observed (getAccountByRiotId c net gameName tagLine region))).
Proof.
  intros Hclaim.
  apply (Hclaim Examples.client MoreExamples.echo (js "Faker") (js "KR1") (js "asia")).
  right.
  exists (Server.json 418 (Server.ErrorJson
            [("error", Server.FStr (js "Riot API error"));
             ("message", Server.FStr (js "API request failed: RGAPI-0000"));
             ("statusCode", Server.FInt 418)])),
         (js "API request failed: RGAPI-0000").
  split; [reflexivity|]. split.
  - apply elem_of_cons. right. apply elem_of_cons. left. reflexivity.
  - exists (js "API request failed: "), []. reflexivity.
Qed.

(** C8, amended.  What is logged by the client and by the error handler, and
    the error payload answered, are determined by the request and by the
    upstream outcome (a response, a rejected status, or no response at all):
    for any two clients, whatever their API keys, the three operations log
    the same lines and end in the same error payload whenever the upstream
    behaves the same for both.  The key reaches a log line or a payload only
    as a part of what the upstream answered or of what the caller passed. *)
Theorem credential_not_observable (c1 c2 : RiotClient)
    (account1 account2 : Network AccountDto)
    (summoner1 summoner2 : Network SummonerDto)
    (league1 league2 : Network (list LeagueEntryDto)) :
  (forall url, account1 (requestConfig c1 url) = account2 (requestConfig c2 url)) ->
  (forall url, summoner1 (requestConfig c1 url) = summoner2 (requestConfig c2 url)) ->
  (forall url, league1 (requestConfig c1 url) = league2 (requestConfig c2 url)) ->
  (forall gameName tagLine region,
     Spec.observed (getAccountByRiotId c1 account1 gameName tagLine region)
     = Spec.observed (getAccountByRiotId c2 account2 gameName tagLine region))
  /\ (forall puuid platform,
        Spec.observed (getSummonerByPuuid c1 summoner1 puuid platform)
        = Spec.observed (getSummonerByPuuid c2 summoner2 puuid platform))
  /\ (forall puuid platform,
        Spec.observed (getLeagueEntriesbyEncryptedPUUID c1 league1 puuid platform)
        = Spec.observed (getLeagueEntriesbyEncryptedPUUID c2 league2 puuid platform)).
Proof.
  intros Ha Hs Hl. repeat split.
  - intros gameName tagLine region. f_equal. unfold getAccountByRiotId.
    destruct (encodeURIComponent gameName); [|reflexivity].
    destruct (encodeURIComponent tagLine); [|reflexivity].
    cbv zeta. rewrite (get_same_outcome c1 c2 account1 account2) by apply Ha.
    reflexivity.
  - intros puuid platform. f_equal. unfold getSummonerByPuuid.
    cbv zeta. rewrite (get_same_outcome c1 c2 summoner1 summoner2) by apply Hs.
    reflexivity.
  - intros puuid platform. f_equal. unfold getLeagueEntriesbyEncryptedPUUID.
    cbv zeta. rewrite (get_same_outcome c1 c2 league1 league2) by apply Hl.
    reflexivity.
Qed.

End ClientFacts.

(** ** Aggregation cache *)

Section CacheFacts.
Import JS Cache.
Context {V : Type}.

Lemma NodeCache_set_lookup key (v : V) ttl now (c : NodeCache.t V) :
  0 <= ttl ->
  NodeCache.data (NodeCache.set key v ttl now c).2 !! key
  = Some {| NodeCache.value := v; NodeCache.expiresAt := now + ttl * 1000 |}.
Proof.
  intros Httl. unfold NodeCache.set, NodeCache.backstop. simpl.
  destruct (_ <? _)%Z.
  - apply map_lookup_filter_Some. split; [apply lookup_insert_eq|].
    unfold NodeCache.expired. simpl. apply Z.ltb_ge. lia.
  - apply lookup_insert_eq.
Qed.

Lemma NodeCache_get_data key now (c : NodeCache.t V) :
  NodeCache.data (NodeCache.get key now c).2 = NodeCache.data c
  /\ NodeCache.opts (NodeCache.get key now c).2 = NodeCache.opts c.
Proof.
  unfold NodeCache.get. destruct (NodeCache.data c !! key) as [e|]; [|auto].
  destruct (NodeCache.expired now e); auto.
Qed.

Lemma NodeCache_get_value key now (c : NodeCache.t V) e :
  NodeCache.data c !! key = Some e ->
  (NodeCache.get key now c).1
  = if (NodeCache.expiresAt e <? now)%Z then None else Some (NodeCache.value e).
Proof.
  intros He. unfold NodeCache.get, NodeCache.expired. rewrite He.
  destruct (_ <? _)%Z; reflexivity.
Qed.

(** C9.  After [CacheService.set(key, value, ttl)] with a positive TTL, a
    [get(key)] before the TTL has elapsed returns the value and a [get(key)]
    after expiry returns nothing; account entries and icon entries are
    written with an expiry 24 hours ahead. *)
Theorem cache_round_trip key (v : V) ttl now later (c : NodeCache.t V) :
  0 < ttl ->
  (later < now + ttl * 1000 ->
     (CacheService.get key later (CacheService.set key v (Some ttl) now c).2).1 = Some v)
  /\ (now + ttl * 1000 < later ->
        (CacheService.get key later (CacheService.set key v (Some ttl) now c).2).1 = None)
  /\ (forall riotId region,
        NodeCache.data (CacheService.cacheAccount riotId region v now c).2
          !! CacheKeys.account riotId region
        = Some {| NodeCache.value := v;
                  NodeCache.expiresAt := now + 24 * 60 * 60 * 1000 |})
  /\ (forall iconId,
        NodeCache.data (CacheService.cacheIcon iconId v now c).2
          !! CacheKeys.icon iconId
        = Some {| NodeCache.value := v;
                  NodeCache.expiresAt := now + 24 * 60 * 60 * 1000 |}).
Proof.
  intros Httl.
  assert ((ttl =? 0)%Z = false) as Hnz by (apply Z.eqb_neq; lia).
  unfold CacheService.get, CacheService.set. rewrite Hnz.
  repeat split.
  - intros Hbefore. erewrite NodeCache_get_value
      by (apply NodeCache_set_lookup; lia).
    simpl. destruct (Z.ltb_spec (now + ttl * 1000) later); [lia | reflexivity].
  - intros Hafter. erewrite NodeCache_get_value
      by (apply NodeCache_set_lookup; lia).
    simpl. destruct (Z.ltb_spec (now + ttl * 1000) later); [reflexivity | lia].
  - intros riotId region. unfold CacheService.cacheAccount, CacheService.set.
    simpl. apply NodeCache_set_lookup. unfold CacheTTL.account. lia.
  - intros iconId. unfold CacheService.cacheIcon, CacheService.set.
    simpl. apply NodeCache_set_lookup. unfold CacheTTL.icon. lia.
Qed.

End CacheFacts.

(** ** Request orchestrator *)

Section ServerFacts.
Import JS Errors PlatformMapping ParallelQueries Types Cache Server.

Lemma handleApiError_body (error : exn) :
  exists fields, body (handleApiError error).2 = ErrorJson fields.
Proof.
  unfold handleApiError. simpl. destruct error as [| | |e]; try (eexists; reflexivity).
  destruct (instanceof _ InvalidApiKeyError); [eexists; reflexivity|].
  destruct (instanceof _ PlayerNotFoundError); [eexists; reflexivity|].
  destruct (instanceof _ RateLimitError); eexists; reflexivity.
Qed.

(** C10.  Whenever [GET /api/account] answers with an error, the entries of
    the store are those it started with (only the lookup's miss counter may
    have moved); the same holds for a cache hit.  The store's entries change
    only on the path that answers a freshly built, not cached, success. *)
Theorem cache_written_only_on_success riotClient up req tCheck tStore
    (store : NodeCache.t Cached) :
  (forall fields,
     body (getAccount riotClient up req tCheck tStore store).1 = ErrorJson fields ->
     NodeCache.data (getAccount riotClient up req tCheck tStore store).2
     = NodeCache.data store)
  /\ (forall d,
        body (getAccount riotClient up req tCheck tStore store).1 = SuccessJson d true ->
        NodeCache.data (getAccount riotClient up req tCheck tStore store).2
        = NodeCache.data store)
  /\ (NodeCache.data (getAccount riotClient up req tCheck tStore store).2
      <> NodeCache.data store ->
      exists d, (getAccount riotClient up req tCheck tStore store).1
                = json 200 (SuccessJson (AccountData d) false)).
Proof.
  unfold getAccount. cbv zeta.
  destruct (q_riotId req) as [[[|u raw]|]|]; cbv beta iota; try (simpl; tauto).
  destruct (RiotIdParser.isValid (JString (u :: raw))) as [[|]|e]; cbv beta iota;
    try (simpl; tauto).
  destruct (RiotIdParser.parse (u :: raw)) as [parsed|e]; cbv beta iota;
    try (simpl; tauto).
  destruct (validRegion _) as [r|]; cbv beta iota; try (simpl; tauto).
  unfold CacheService.getCachedAccount, CacheService.get.
  pose proof (NodeCache_get_data
                (CacheKeys.account (u :: raw) (regionName r)) tCheck store) as [Hd _].
  destruct (NodeCache.get _ tCheck store) as [[cached|] store1]; simpl in Hd;
    cbv beta iota; [simpl; rewrite Hd; tauto|].
  destruct (RiotClient.getAccountByRiotId _ _ _ _ _).2 as [account|e]; cbv beta iota;
    [|simpl; rewrite Hd; tauto].
  destruct (querySummonerAcrossPlatforms _ _ _ _) as [summonerResult|e]; cbv beta iota;
    [|simpl; rewrite Hd; tauto].
  destruct (queryLeagueEntriesAcrossPlatforms _ _ _ _) as [leagueResult|e];
    cbv beta iota;
    destruct (CacheService.cacheAccount _ _ _ _ _) as [ok store2]; simpl;
    (split; [discriminate | split; [discriminate | eauto]]).
Qed.

(** A branch whose answer is [handleApiError]'s cannot be a success. *)
Local Ltac answers_error e :=
  let fields := fresh "fields" in
  let Hb := fresh "Hb" in
  let Hr := fresh "Hr" in
  destruct (handleApiError_body e) as [fields Hb]; intros Hr; cbn [fst] in Hr;
  rewrite Hr in Hb; discriminate.

(** The path that answers a freshly built success has written that answer
    under the account key of the request, to expire 24 hours after the write. *)
Lemma cache_written_on_success riotClient up req tCheck tStore
    (store : NodeCache.t Cached) d :
  (getAccount riotClient up req tCheck tStore store).1
    = json 200 (SuccessJson (AccountData d) false) ->
  exists raw r,
    q_riotId req = Some (JString raw)
    /\ validRegion (default (JString (js "americas")) (q_region req)) = Some r
    /\ NodeCache.data (getAccount riotClient up req tCheck tStore store).2
         !! CacheKeys.account raw (regionName r)
       = Some {| NodeCache.value := AccountData d;
                 NodeCache.expiresAt := tStore + 86400 * 1000 |}.
Proof.
  unfold getAccount. cbv zeta.
  destruct (q_riotId req) as [[[|u raw]|]|]; cbv beta iota; try discriminate.
  destruct (RiotIdParser.isValid (JString (u :: raw))) as [[|]|e]; cbv beta iota;
    try discriminate;
    [|answers_error e].
  destruct (RiotIdParser.parse (u :: raw)) as [parsed|e]; cbv beta iota;
    [|answers_error e].
  destruct (validRegion _) as [r|]; cbv beta iota; try discriminate.
  destruct (CacheService.getCachedAccount _ _ _ _) as [[cached|] store1];
    cbv beta iota; try discriminate.
  destruct (RiotClient.getAccountByRiotId _ _ _ _ _).2 as [account|e]; cbv beta iota;
    [|answers_error e].
  destruct (querySummonerAcrossPlatforms _ _ _ _) as [summonerResult|e]; cbv beta iota;
    [|answers_error e].
  destruct (queryLeagueEntriesAcrossPlatforms _ _ _ _) as [leagueResult|e];
    cbv beta iota;
    match goal with
    | |- context [CacheService.cacheAccount ?a ?b (AccountData ?answer) ?t ?st] =>
        pose proof (NodeCache_set_lookup (CacheKeys.account a b)
                      (AccountData answer) 86400 t st) as Hset
    end;
    intros Hr; injection Hr as <-; exists (u :: raw), r;
    (split; [reflexivity | split; [reflexivity | apply Hset; lia]]).
Qed.

(** C3.  When validation, the account lookup and the profile fan-out succeed
    (so the cache had no entry) and the ranked-stats fan-out fails on every
    platform, the request still answers 200 with the account, the profile and
    [rankedStats = {soloDuo: null, flex: null}]. *)
Theorem ranked_failure_is_not_fatal riotClient up req tCheck tStore
    (store : NodeCache.t Cached) raw parsed r account summonerResult :
  q_riotId req = Some (JString raw) ->
  RiotIdParser.isValid (JString raw) = Return true ->
  RiotIdParser.parse raw = Return parsed ->
  validRegion (default (JString (js "americas")) (q_region req)) = Some r ->
  (CacheService.getCachedAccount raw (regionName r) tCheck store).1 = None ->
  (RiotClient.getAccountByRiotId riotClient (net_account up)
     (RiotIdParser.gameName parsed) (RiotIdParser.tagLine parsed) (regionName r)).2
    = Return account ->
  querySummonerAcrossPlatforms (acc_puuid account) r riotClient up
    = Return summonerResult ->
  (forall p, p ∈ getPlatformsForRegion r ->
     exists e, (RiotClient.getLeagueEntriesbyEncryptedPUUID riotClient (net_league up)
                  (puuid (data summonerResult)) p).2 = Throw e) ->
  exists d,
    (getAccount riotClient up req tCheck tStore store).1
      = json 200 (SuccessJson (AccountData d) false)
    /\ d = responseData account summonerResult None None None
    /\ rd_puuid d = acc_puuid account
    /\ si_puuid (summonerInfo d) = puuid (data summonerResult)
    /\ rankedStats d = {| soloDuo := None; flex := None |}.
Proof.
  intros Hid Hvalid Hparse Hregion Hmiss Haccount Hsummoner Hleague.
  eexists. split; [|repeat split; reflexivity].
  unfold getAccount. cbv zeta. rewrite Hid.
  destruct raw as [|u raw]; [discriminate|].
  rewrite Hvalid, Hparse, Hregion.
  destruct (CacheService.getCachedAccount _ _ _ _) as [cached store1].
  simpl in Hmiss. subst cached.
  rewrite Haccount, Hsummoner.
  unfold queryLeagueEntriesAcrossPlatforms, queryPlatformsInParallel.
  rewrite selectResult_all_failed by exact Hleague.
  destruct (CacheService.cacheAccount _ _ _ _ _). reflexivity.
Qed.

End ServerFacts.

(** ** Double arithmetic *)

Section DoubleFacts.
Import JS.

Lemma scale_nonpos z k : k <= 0 -> scale z k = z.
Proof. intros Hk. unfold scale. rewrite Z.max_l by lia. simpl. lia. Qed.

Lemma scale_nonneg z k : 0 <= k -> scale z k = z * 2 ^ k.
Proof. intros Hk. unfold scale. rewrite Z.max_r by lia. reflexivity. Qed.

(** [floorLog2 n d] does not overestimate the logarithm: [2^E <= n / d]. *)
Lemma floorLog2_below n d :
  0 < n -> 0 < d -> scale d (floorLog2 n d) <= scale n (- floorLog2 n d).
Proof.
  intros Hn Hd. unfold floorLog2. cbv zeta.
  destruct (Z.leb_spec (scale d (Z.log2 n - Z.log2 d))
              (scale n (- (Z.log2 n - Z.log2 d)))) as [Hle|Hgt]; [exact Hle|].
  destruct (Z.log2_spec n Hn) as [Hn1 _].
  destruct (Z.log2_spec d Hd) as [_ Hd2].
  pose proof (Z.log2_nonneg n) as Ha. pose proof (Z.log2_nonneg d) as Hb.
  set (a := Z.log2 n) in *. set (b := Z.log2 d) in *.
  destruct (Z.le_gt_cases 1 (a - b)) as [Hk|Hk].
  - rewrite scale_nonneg, scale_nonpos by lia.
    assert (2 ^ (b + 1) * 2 ^ (a - b - 1) = 2 ^ a) as Hpow
      by (rewrite <- Z.pow_add_r by lia; f_equal; lia).
    assert (0 < 2 ^ (a - b - 1)) by (apply Z.pow_pos_nonneg; lia).
    nia.
  - rewrite scale_nonpos, scale_nonneg by lia.
    assert (2 ^ a * 2 ^ (- (a - b - 1)) = 2 ^ (b + 1)) as Hpow
      by (rewrite <- Z.pow_add_r by lia; f_equal; lia).
    assert (0 < 2 ^ (- (a - b - 1))) by (apply Z.pow_pos_nonneg; lia).
    nia.
Qed.

(** Below [2^53] the exponent of the rounding grid is not positive. *)
Lemma exponent_nonpos n d :
  0 < n -> 0 < d -> n < 2 ^ 53 * d -> Z.max (floorLog2 n d - 52) (-1074) <= 0.
Proof.
  intros Hn Hd Hsmall. pose proof (floorLog2_below n d Hn Hd) as Hlog.
  destruct (Z.le_gt_cases (floorLog2 n d) 52) as [|Hbig]; [lia|].
  exfalso. rewrite scale_nonneg, scale_nonpos in Hlog by lia.
  assert (2 ^ 53 <= 2 ^ floorLog2 n d) by (apply Z.pow_le_mono_r; lia).
  nia.
Qed.

(** Rounding to the nearest integer does not cross an integer. *)
Lemma roundHalfEven_between n d A B :
  0 < d -> A * d <= n <= B * d -> A <= roundHalfEven n d <= B.
Proof.
  intros Hd [HA HB]. pose proof (Z.div_mod n d ltac:(lia)) as Hdm.
  pose proof (Z.mod_pos_bound n d Hd) as Hr.
  assert (A <= n / d) by (apply Z.div_le_lower_bound; lia).
  assert (n / d <= B) by (apply Z.div_le_upper_bound; lia).
  assert (0 < n mod d -> n / d + 1 <= B) by (intros; nia).
  unfold roundHalfEven.
  destruct (Z.compare_spec (2 * (n mod d)) d); [destruct (Z.even _)| |]; lia.
Qed.

(** A rational between two integers below [2^53] is rounded to a double
    between them. *)
Lemma roundDouble_between x A B :
  0 <= A -> B < 2 ^ 53 -> (inject_Z A <= x)%Q -> (x <= inject_Z B)%Q ->
  exists r, roundDouble x = Real r /\ (inject_Z A <= r)%Q /\ (r <= inject_Z B)%Q.
Proof.
  intros HA HB Hlo Hhi. destruct x as [n d].
  unfold Qle in Hlo, Hhi. simpl in Hlo, Hhi.
  unfold roundDouble, Qis0. simpl Qnum. simpl Qden.
  destruct (Z.eqb_spec n 0) as [->|Hn0].
  - exists 0%Q. split; [reflexivity|]. unfold Qle. simpl. lia.
  - assert (0 < n) as Hn by nia.
    rewrite (Z.abs_eq n) by lia. rewrite (Z.sgn_pos n) by lia.
    pose proof (exponent_nonpos n (Z.pos d) Hn ltac:(lia) ltac:(nia)) as He.
    cbv zeta. set (e := Z.max (floorLog2 n (Z.pos d) - 52) (-1074)) in *.
    rewrite (scale_nonpos (Z.pos d) e) by lia.
    rewrite !(scale_nonneg _ (- e)) by lia.
    assert (0 < 2 ^ (- e)) as Hs by (apply Z.pow_pos_nonneg; lia).
    set (s := 2 ^ (- e)) in *.
    destruct (roundHalfEven_between (n * s) (Z.pos d) (A * s) (B * s))
      as [Hm1 Hm2]; [lia | nia |].
    set (m := roundHalfEven (n * s) (Z.pos d)) in *.
    rewrite (scale_nonpos m e) by lia.
    destruct (Z.leb_spec (2 ^ 1024 * s) m) as [Hover|_].
    + exfalso. assert (2 ^ 53 < 2 ^ 1024) by (apply Z.pow_lt_mono_r; lia). nia.
    + eexists. split; [reflexivity|]. unfold Qle. simpl.
      rewrite Z2Pos.id by lia. lia.
Qed.

End DoubleFacts.

(** ** Win rate *)

Section WinRateFacts.
Import JS Types Server.

Example winRate_44_47 : winRate Examples.played = Int 48.
Proof. vm_compute. reflexivity. Qed.

(** The quotient is rounded before it is multiplied: [23 / 40] is the double
    just below [0.575], so that the product is below [57.5]. *)
Example winRate_23_17 : winRate MoreExamples.closeCall = Int 57.
Proof. vm_compute. reflexivity. Qed.

(** Without a game played the quotient is [0 / 0]. *)
Lemma winRate_unplayed (entry : LeagueEntryDto) :
  wins entry = 0 -> losses entry = 0 -> winRate entry = NaN.
Proof. intros Hw Hl. unfold winRate. rewrite Hw, Hl. reflexivity. Qed.

(** C2.  The merged response for a player whose solo-queue entry has no win
    and no loss: the entry is selected and its [winRate] is [NaN], the value
    of the unguarded [Math.round((0 / (0 + 0)) * 100)]. *)
Theorem winRate_division_is_unguarded :
  exists d queue,
    (getAccount Examples.client Examples.rankedUnplayed Examples.request 0 0
       Cache.cache).1
      = json 200 (SuccessJson (AccountData d) false)
    /\ soloDuo (rankedStats d) = Some queue
    /\ rq_wins queue = 0 /\ rq_losses queue = 0
    /\ rq_winRate queue = NaN.
Proof.
  eexists. eexists. split; [vm_compute; reflexivity|].
  repeat split; reflexivity.
Qed.

End WinRateFacts.

(** ** Identity parser: the claims *)

Section RiotIdParserClaims.
Import JS Errors RiotIdParser Spec.

Lemma not_wellFormed_count d : countMatches HASH d <> 1%nat -> ~ wellFormed d.
Proof.
  intros Hc (a & b & -> & Ha & Hb & _). apply Hc.
  apply countMatches_one. eauto.
Qed.

(** C6.  The raw string [Faker%2523#KR1] percent-decodes to [Faker%23#KR1],
    which has exactly one delimiter and two non-empty halves; [isValid]
    accepts it, but [parse], which decodes a second time before validating,
    throws the format error instead of returning the two halves. *)
Theorem parse_decodes_twice :
  decodeURIComponent (js "Faker%2523#KR1") = Some (js "Faker%23#KR1")
  /\ wellFormed (js "Faker%23#KR1")
  /\ isValid (JString (js "Faker%2523#KR1")) = Return true
  /\ parse (js "Faker%2523#KR1") = Throw (FormatError (js "Faker%23#KR1"))
  /\ parse (js "100%25#KR1") = Throw URIError.
Proof.
  split; [reflexivity|]. split.
  - exists (js "Faker%23"), (js "KR1").
    split; [reflexivity|]. split; [compute_done|]. split; [compute_done|].
    split; discriminate.
  - split; [reflexivity|]. split; reflexivity.
Qed.

(** The claim C7 as the specification words it fails: for [Faker%20Pro], which
    has no delimiter before or after decoding, the format error carries the
    decoded string [Faker Pro], not the raw input. *)
Lemma parse_error_carries_decoded_input :
  ~ (forall raw d, decodeURIComponent raw = Some d -> ~ wellFormed d ->
       isValid (JString raw) = Return false
       /\ parse raw = Throw (FormatError raw)).
Proof.
  intros Hclaim.
  destruct (Hclaim (js "Faker%20Pro") (js "Faker Pro")) as [_ Hparse].
  - reflexivity.
  - apply not_wellFormed_count. vm_compute. discriminate.
  - assert (parse (js "Faker%20Pro") = Throw (FormatError (js "Faker Pro"))) as Hcode
      by reflexivity.
    assert (FormatError (js "Faker Pro") = FormatError (js "Faker%20Pro")) as Hsame
      by congruence.
    apply FormatError_inj in Hsame. discriminate Hsame.
Qed.

(** C7, amended.  A non-string input and the empty string are rejected by
    [isValid] with [false]; so is every raw string whose percent-decoding has
    zero or several delimiters or an empty half, and for it [parse] throws the
    format error carrying the decoded string, provided a second decoding
    leaves the decoded string as it is. *)
Theorem invalid_identity_is_rejected raw d :
  decodeURIComponent raw = Some d -> ~ wellFormed d ->
  isValid JNonString = Return false
  /\ isValid (JString []) = Return false
  /\ isValid (JString raw) = Return false
  /\ (decodeURIComponent d = Some d -> parse raw = Throw (FormatError d)).
Proof.
  intros Hd Hnw. split; [reflexivity|]. split; [reflexivity|].
  split; [eapply isValid_not_wellFormed; eassumption|].
  intros Hstable. unfold parse. rewrite Hd.
  rewrite (isValid_not_wellFormed d d Hstable Hnw). reflexivity.
Qed.

Lemma invalid_identity_is_rejected_witness :
  isValid JNonString = Return false
  /\ isValid (JString []) = Return false
  /\ isValid (JString (js "Faker#KR1#Extra")) = Return false
  /\ (decodeURIComponent (js "Faker#KR1#Extra") = Some (js "Faker#KR1#Extra") ->
      parse (js "Faker#KR1#Extra") = Throw (FormatError (js "Faker#KR1#Extra"))).
Proof.
  apply (invalid_identity_is_rejected (js "Faker#KR1#Extra") (js "Faker#KR1#Extra")).
  - reflexivity.
  - apply not_wellFormed_count. vm_compute. discriminate.
Defined.

End RiotIdParserClaims.

(** ** The theorems at sample inputs *)

Section Instances.
Import JS Errors PlatformMapping ParallelQueries Types Cache Server.

Lemma americas_all_settled (order : list nat) :
  order = [2; 0; 3; 1]%nat \/ order = [3; 2; 1; 0]%nat ->
  forall i, (i < length (getPlatformsForRegion americas))%nat -> i ∈ order.
Proof.
  intros [-> | ->] i Hi; simpl in Hi;
    destruct i as [|[|[|[|i]]]]; try lia; compute_done.
Qed.

Lemma queryPlatformsInParallel_selection_witness :
  queryPlatformsInParallelAt [2; 0; 3; 1]%nat (js "puuid-1") americas Examples.mixedQuery
  = Some (Return {| platform := la1; data := [7] |}).
Proof.
  refine (proj1 (proj2 (queryPlatformsInParallel_selection
                          [2; 0; 3; 1]%nat (js "puuid-1") americas
                          Examples.mixedQuery _))
            2%nat la1 [7] _ _ _ _).
  - apply americas_all_settled. left. reflexivity.
  - reflexivity.
  - reflexivity.
  - reflexivity.
  - intros j q dq Hj Hq Hr.
    destruct j as [|[|j]]; [| |lia]; injection Hq as <-; simpl in Hr;
      [discriminate | injection Hr as <-; reflexivity].
Defined.

Lemma queryPlatformsInParallel_not_found_witness :
  queryPlatformsInParallelAt [3; 2; 1; 0]%nat (js "puuid-1") americas
    Examples.failingQuery
  = Some (Throw (notFoundOnAnyPlatform americas)).
Proof.
  destruct (queryPlatformsInParallel_not_found
              [3; 2; 1; 0]%nat (js "puuid-1") americas Examples.failingQuery)
    as ([_ Hfails] & Hnamed & _).
  - apply americas_all_settled. right. reflexivity.
  - destruct Hfails as [e He]; [intros p _; eexists; reflexivity|].
    rewrite He. rewrite (Hnamed e He). reflexivity.
Defined.

Lemma handleApiError_taxonomy_witness :
  (RiotClient._handleApiError Examples.throttled).2
  = ApiError (new_RateLimitError (Int 120)).
Proof.
  exact (proj1 (proj2 (proj2 (handleApiError_taxonomy Examples.throttled)))
           _ eq_refl eq_refl).
Defined.

Lemma credential_not_observable_witness :
  (forall gameName tagLine region,
     Spec.observed (RiotClient.getAccountByRiotId Examples.client
                      Examples.accountNet gameName tagLine region)
     = Spec.observed (RiotClient.getAccountByRiotId Examples.otherClient
                        Examples.accountNet gameName tagLine region))
  /\ (forall puuid platform,
        Spec.observed (RiotClient.getSummonerByPuuid Examples.client
                         Examples.summonerNet puuid platform)
        = Spec.observed (RiotClient.getSummonerByPuuid Examples.otherClient
                           Examples.summonerNet puuid platform))
  /\ (forall puuid platform,
        Spec.observed (RiotClient.getLeagueEntriesbyEncryptedPUUID Examples.client
                         Examples.leagueDown puuid platform)
        = Spec.observed (RiotClient.getLeagueEntriesbyEncryptedPUUID
                           Examples.otherClient Examples.leagueDown puuid platform)).
Proof.
  apply credential_not_observable; intros url; reflexivity.
Defined.

Lemma cache_round_trip_witness :
  (59999 < 0 + 60 * 1000 ->
     (CacheService.get (js "k") 59999
        (CacheService.set (js "k") 5 (Some 60) 0 Cache.cache).2).1 = Some 5)
  /\ (0 + 60 * 1000 < 60001 ->
        (CacheService.get (js "k") 60001
           (CacheService.set (js "k") 5 (Some 60) 0 Cache.cache).2).1 = None).
Proof.
  split.
  - exact (proj1 (cache_round_trip (js "k") 5 60 0 59999 Cache.cache eq_refl)).
  - exact (proj1 (proj2 (cache_round_trip (js "k") 5 60 0 60001 Cache.cache eq_refl))).
Defined.

Lemma cache_written_only_on_success_witness :
  NodeCache.data
    (getAccount Examples.client Examples.rankedDown
       {| q_riotId := Some (JString (js "Faker#KR1"));
          q_region := Some (JString (js "mars")) |} 0 0 Cache.cache).2
  = NodeCache.data Cache.cache.
Proof.
  eapply (proj1 (cache_written_only_on_success Examples.client Examples.rankedDown
                   _ 0 0 Cache.cache)).
  reflexivity.
Defined.

Lemma ranked_failure_is_not_fatal_witness :
  exists d,
    (getAccount Examples.client Examples.rankedDown Examples.request 0 0 Cache.cache).1
      = json 200 (SuccessJson (AccountData d) false)
    /\ d = responseData Examples.faker
             {| platform := kr; data := Examples.fakerProfile |} None None None
    /\ rd_puuid d = acc_puuid Examples.faker
    /\ si_puuid (summonerInfo d) = puuid Examples.fakerProfile
    /\ rankedStats d = {| soloDuo := None; flex := None |}.
Proof.
  apply (ranked_failure_is_not_fatal Examples.client Examples.rankedDown
           Examples.request 0 0 Cache.cache (js "Faker#KR1")
           {| RiotIdParser.gameName := js "Faker"; RiotIdParser.tagLine := js "KR1" |}
           asia Examples.faker {| platform := kr; data := Examples.fakerProfile |}).
  - reflexivity.
  - reflexivity.
  - reflexivity.
  - reflexivity.
  - reflexivity.
  - reflexivity.
  - reflexivity.
  - intros p _. eexists. reflexivity.
Defined.

End Instances.


(* ================================================================== *)
(** * Further properties                                               *)
(* ================================================================== *)

(** ** Strings, continued *)

Section DecodingFacts.
Import JS.

Lemma hexDigit_HASH : hexDigit HASH = None.
Proof. reflexivity. Qed.

Lemma parseHexOctet_HASH_l l : parseHexOctet HASH l = None.
Proof. reflexivity. Qed.

Lemma parseHexOctet_HASH_r h : parseHexOctet h HASH = None.
Proof. unfold parseHexOctet. rewrite hexDigit_HASH. destruct (hexDigit h); reflexivity. Qed.

Lemma continuation_HASH_1 h l : continuation HASH h l = None.
Proof. reflexivity. Qed.

Lemma continuation_HASH_2 p l : continuation p HASH l = None.
Proof. unfold continuation. rewrite parseHexOctet_HASH_l. destruct (_ =? _)%N; reflexivity. Qed.

Lemma continuation_HASH_3 p h : continuation p h HASH = None.
Proof. unfold continuation. rewrite parseHexOctet_HASH_r. destruct (_ =? _)%N; reflexivity. Qed.

(** One unfolding of the decoder. *)
Lemma decodeURIComponent_literal c s :
  (c =? PERCENT)%N = false ->
  decodeURIComponent (c :: s) = cons c <$> decodeURIComponent s.
Proof. intros Hc. simpl. rewrite Hc. reflexivity. Qed.

Lemma decodeURIComponent_escape s :
  decodeURIComponent (PERCENT :: s)
  = match Decoding.readEscape s with
    | Some (out, rest) => app out <$> decodeURIComponent rest
    | None => None
    end.
Proof.
  destruct s as [|h [|l rest1]]; try reflexivity.
  cbn [decodeURIComponent Decoding.readEscape]. rewrite N.eqb_refl.
  destruct (parseHexOctet h l) as [b|]; [|reflexivity].
  destruct (b <? 128)%N; [reflexivity|].
  destruct (b <? 192)%N; [reflexivity|].
  destruct (b <? 224)%N.
  { destruct rest1 as [|p1 [|h1 [|l1 rest2]]]; try reflexivity.
    destruct (continuation p1 h1 l1); [|reflexivity].
    cbv zeta. destruct (validScalar _ _); reflexivity. }
  destruct (b <? 240)%N.
  { destruct rest1 as [|p1 [|h1 [|l1 [|p2 [|h2 [|l2 rest3]]]]]]; try reflexivity.
    destruct (continuation p1 h1 l1); [|reflexivity].
    destruct (continuation p2 h2 l2); [|reflexivity].
    cbv zeta. destruct (validScalar _ _); reflexivity. }
  destruct (b <? 248)%N; [|reflexivity].
  destruct rest1 as [|p1 [|h1 [|l1 [|p2 [|h2 [|l2 [|p3 [|h3 [|l3 rest4]]]]]]]]];
    try reflexivity.
  destruct (continuation p1 h1 l1); [|reflexivity].
  destruct (continuation p2 h2 l2); [|reflexivity].
  destruct (continuation p3 h3 l3); [|reflexivity].
  cbv zeta. destruct (validScalar _ _); reflexivity.
Qed.

Lemma parseHexOctet_no_HASH h l b :
  parseHexOctet h l = Some b -> h <> HASH /\ l <> HASH.
Proof.
  intros Hb. split; intros ->.
  - rewrite parseHexOctet_HASH_l in Hb. discriminate.
  - rewrite parseHexOctet_HASH_r in Hb. discriminate.
Qed.

Lemma continuation_no_HASH p h l c :
  continuation p h l = Some c -> p <> HASH /\ h <> HASH /\ l <> HASH.
Proof.
  intros Hc. repeat split; intros ->.
  - rewrite continuation_HASH_1 in Hc. discriminate.
  - rewrite continuation_HASH_2 in Hc. discriminate.
  - rewrite continuation_HASH_3 in Hc. discriminate.
Qed.

Local Ltac no_hash :=
  repeat (apply not_elem_of_cons; split; [congruence|]); apply not_elem_of_nil.

(** An escape is read off a prefix that has no [#] in it, whatever follows. *)
Lemma readEscape_prefix s out rest :
  Decoding.readEscape s = Some (out, rest) ->
  exists consumed, s = consumed ++ rest /\ (HASH ∉ consumed)
    /\ forall x, Decoding.readEscape (consumed ++ x) = Some (out, x).
Proof.
  destruct s as [|h [|l rest1]]; try discriminate.
  cbn [Decoding.readEscape].
  destruct (parseHexOctet h l) as [b|] eqn:Hhl; [|discriminate].
  destruct (parseHexOctet_no_HASH _ _ _ Hhl) as [Hh Hl].
  destruct (b <? 128)%N eqn:H1.
  { intros [= <- <-]. exists [h; l]. split; [reflexivity|]. split.
    - no_hash.
    - intros x. cbn [app Decoding.readEscape]. rewrite Hhl, H1. reflexivity. }
  destruct (b <? 192)%N eqn:H2; [discriminate|].
  destruct (b <? 224)%N eqn:H3.
  { destruct rest1 as [|p1 [|h1 [|l1 rest2]]]; try discriminate.
    destruct (continuation p1 h1 l1) as [c1|] eqn:Hc1; [|discriminate].
    destruct (continuation_no_HASH _ _ _ _ Hc1) as (? & ? & ?).
    cbv zeta. destruct (validScalar _ _) eqn:Hv; [|discriminate].
    intros [= <- <-]. exists [h; l; p1; h1; l1]. split; [reflexivity|]. split.
    - no_hash.
    - intros x. cbn [app Decoding.readEscape]. rewrite Hhl, H1, H2, H3, Hc1. cbv zeta.
      rewrite Hv. reflexivity. }
  destruct (b <? 240)%N eqn:H4.
  { destruct rest1 as [|p1 [|h1 [|l1 [|p2 [|h2 [|l2 rest3]]]]]]; try discriminate.
    destruct (continuation p1 h1 l1) as [c1|] eqn:Hc1; [|discriminate].
    destruct (continuation p2 h2 l2) as [c2|] eqn:Hc2; [|discriminate].
    destruct (continuation_no_HASH _ _ _ _ Hc1) as (? & ? & ?).
    destruct (continuation_no_HASH _ _ _ _ Hc2) as (? & ? & ?).
    cbv zeta. destruct (validScalar _ _) eqn:Hv; [|discriminate].
    intros [= <- <-]. exists [h; l; p1; h1; l1; p2; h2; l2].
    split; [reflexivity|]. split.
    - no_hash.
    - intros x. cbn [app Decoding.readEscape]. rewrite Hhl, H1, H2, H3, H4, Hc1, Hc2. cbv zeta.
      rewrite Hv. reflexivity. }
  destruct (b <? 248)%N eqn:H5; [|discriminate].
  destruct rest1 as [|p1 [|h1 [|l1 [|p2 [|h2 [|l2 [|p3 [|h3 [|l3 rest4]]]]]]]]];
    try discriminate.
  destruct (continuation p1 h1 l1) as [c1|] eqn:Hc1; [|discriminate].
  destruct (continuation p2 h2 l2) as [c2|] eqn:Hc2; [|discriminate].
  destruct (continuation p3 h3 l3) as [c3|] eqn:Hc3; [|discriminate].
  destruct (continuation_no_HASH _ _ _ _ Hc1) as (? & ? & ?).
  destruct (continuation_no_HASH _ _ _ _ Hc2) as (? & ? & ?).
  destruct (continuation_no_HASH _ _ _ _ Hc3) as (? & ? & ?).
  cbv zeta. destruct (validScalar _ _) eqn:Hv; [|discriminate].
  intros [= <- <-]. exists [h; l; p1; h1; l1; p2; h2; l2; p3; h3; l3].
  split; [reflexivity|]. split.
  - no_hash.
  - intros x. cbn [app Decoding.readEscape].
    rewrite Hhl, H1, H2, H3, H4, H5, Hc1, Hc2, Hc3. cbv zeta.
    rewrite Hv. reflexivity.
Qed.

Lemma prefix_before_HASH (a b consumed rest : jsstring) :
  a ++ HASH :: b = consumed ++ rest -> HASH ∉ consumed ->
  exists a', a = consumed ++ a' /\ rest = a' ++ HASH :: b.
Proof.
  revert a. induction consumed as [|x cs IH]; intros a Heq Hno.
  - exists a. auto.
  - apply not_elem_of_cons in Hno as [Hx Hcs].
    destruct a as [|y a]; simpl in Heq; injection Heq as Hy Heq.
    + congruence.
    + subst y. destruct (IH a Heq Hcs) as (a' & -> & ->). exists a'. auto.
Qed.

(** Decoding is local around a literal [#]: no escape reaches across it. *)
Lemma decodeURIComponent_around_HASH_aux n : forall a, (length a <= n)%nat -> forall b r,
  decodeURIComponent (a ++ HASH :: b) = Some r ->
  exists ra rb, decodeURIComponent a = Some ra /\ decodeURIComponent b = Some rb
                /\ r = ra ++ HASH :: rb.
Proof.
  induction n as [|n IH]; intros a Hlen b r Hr.
  - destruct a; [|simpl in Hlen; lia].
    simpl app in Hr. rewrite decodeURIComponent_literal in Hr by reflexivity.
    destruct (decodeURIComponent b) as [rb|]; [|discriminate].
    injection Hr as <-. exists [], rb. auto.
  - destruct a as [|c a].
    { simpl app in Hr. rewrite decodeURIComponent_literal in Hr by reflexivity.
      destruct (decodeURIComponent b) as [rb|]; [|discriminate].
      injection Hr as <-. exists [], rb. auto. }
    simpl in Hlen.
    destruct (c =? PERCENT)%N eqn:Hc.
    2:{ simpl app in Hr. rewrite decodeURIComponent_literal in Hr by assumption.
        destruct (decodeURIComponent (a ++ HASH :: b)) as [r'|] eqn:Hr'; [|discriminate].
        injection Hr as <-.
        destruct (IH a ltac:(lia) b r' Hr') as (ra & rb & Ha & Hb & ->).
        exists (c :: ra), rb. rewrite decodeURIComponent_literal by assumption.
        rewrite Ha. auto. }
    apply N.eqb_eq in Hc. subst c. simpl app in Hr.
    rewrite decodeURIComponent_escape in Hr.
    destruct (Decoding.readEscape (a ++ HASH :: b)) as [[out rest]|] eqn:He; [|discriminate].
    destruct (decodeURIComponent rest) as [r'|] eqn:Hr'; [|discriminate].
    injection Hr as <-.
    destruct (readEscape_prefix _ _ _ He) as (consumed & Heq & Hno & Hread).
    destruct (prefix_before_HASH _ _ _ _ Heq Hno) as (a' & -> & ->).
    destruct (IH a' ltac:(rewrite length_app in Hlen; lia) b r' Hr')
      as (ra & rb & Ha & Hb & ->).
    exists (out ++ ra), rb. rewrite decodeURIComponent_escape, Hread, Ha.
    split; [reflexivity|]. split; [assumption|]. apply app_assoc.
Qed.

Lemma decodeURIComponent_around_HASH a b r :
  decodeURIComponent (a ++ HASH :: b) = Some r ->
  exists ra rb, decodeURIComponent a = Some ra /\ decodeURIComponent b = Some rb
                /\ r = ra ++ HASH :: rb.
Proof. apply (decodeURIComponent_around_HASH_aux (length a)). reflexivity. Qed.

End DecodingFacts.

Section TrimFacts.
Import JS.

Lemma trimStart_suffix s :
  exists ws, s = ws ++ trimStart s /\ Forall (fun c => isWhiteSpace c = true) ws.
Proof.
  induction s as [|c s (ws & Hs & Hws)]; [exists []; auto|].
  simpl. destruct (isWhiteSpace c) eqn:Hc.
  - exists (c :: ws). split; [simpl; congruence | constructor; assumption].
  - exists []. auto.
Qed.

Lemma trimStart_head s c r : trimStart s = c :: r -> isWhiteSpace c = false.
Proof.
  induction s as [|x s IH]; [discriminate|]. simpl.
  destruct (isWhiteSpace x) eqn:Hx; [assumption|]. intros [= <- <-]. assumption.
Qed.

Lemma trimStart_fixed c r : isWhiteSpace c = false -> trimStart (c :: r) = c :: r.
Proof. intros Hc. simpl. rewrite Hc. reflexivity. Qed.

Lemma trimStart_idempotent s : trimStart (trimStart s) = trimStart s.
Proof.
  destruct (trimStart s) as [|c r] eqn:Ht; [reflexivity|].
  apply trimStart_fixed. eapply trimStart_head; eassumption.
Qed.

Lemma trimStart_app x c r :
  isWhiteSpace c = false -> trimStart (x ++ c :: r) = trimStart x ++ c :: r.
Proof.
  intros Hc. induction x as [|y x IH]; simpl.
  - rewrite Hc. reflexivity.
  - destruct (isWhiteSpace y); [assumption | reflexivity].
Qed.

Lemma trimEnd_cons c r : isWhiteSpace c = false -> trimEnd (c :: r) = c :: trimEnd r.
Proof.
  intros Hc. unfold trimEnd. simpl rev.
  rewrite trimStart_app by assumption. rewrite rev_app_distr. reflexivity.
Qed.

Lemma trimEnd_idempotent s : trimEnd (trimEnd s) = trimEnd s.
Proof. unfold trimEnd. rewrite rev_involutive, trimStart_idempotent. reflexivity. Qed.

Lemma trimEnd_prefix s :
  exists ws, s = trimEnd s ++ ws /\ Forall (fun c => isWhiteSpace c = true) ws.
Proof.
  unfold trimEnd. destruct (trimStart_suffix (rev s)) as (ws & Hs & Hws).
  exists (rev ws). split.
  - rewrite <- rev_app_distr, <- Hs, rev_involutive. reflexivity.
  - apply Forall_forall. intros c Hc. rewrite Forall_forall in Hws. apply Hws.
    apply list_elem_of_In, in_rev, list_elem_of_In. exact Hc.
Qed.

(** Trimming takes white space away from both ends and nothing else. *)
Lemma trim_decompose s :
  exists before after,
    s = before ++ trim s ++ after
    /\ Forall (fun c => isWhiteSpace c = true) before
    /\ Forall (fun c => isWhiteSpace c = true) after.
Proof.
  destruct (trimStart_suffix s) as (before & Hs & Hb).
  destruct (trimEnd_prefix (trimStart s)) as (after & Ht & Ha).
  exists before, after. unfold trim. rewrite <- Ht. auto.
Qed.

Lemma trim_idempotent s : trim (trim s) = trim s.
Proof.
  unfold trim. destruct (trimStart s) as [|c r] eqn:Ht; [reflexivity|].
  pose proof (trimStart_head _ _ _ Ht) as Hc.
  rewrite (trimEnd_cons c r Hc), (trimStart_fixed c _ Hc), (trimEnd_cons c _ Hc).
  rewrite trimEnd_idempotent. reflexivity.
Qed.

Lemma trim_nil_whitespace s :
  trim s = [] -> Forall (fun c => isWhiteSpace c = true) s.
Proof.
  intros Ht. destruct (trim_decompose s) as (before & after & Hs & Hb & Ha).
  rewrite Hs, Ht. simpl. apply Forall_app. auto.
Qed.

Lemma trim_keeps_absent c s : c ∉ s -> c ∉ trim s.
Proof.
  intros Hc Hin. apply Hc.
  destruct (trim_decompose s) as (before & after & Hs & _). rewrite Hs.
  apply elem_of_app. right. apply elem_of_app. left. exact Hin.
Qed.

Lemma whitespace_plain s :
  Forall (fun c => isWhiteSpace c = true) s -> PERCENT ∉ s.
Proof.
  intros Hws Hin. rewrite Forall_forall in Hws. specialize (Hws _ Hin). discriminate.
Qed.

End TrimFacts.

(** ** Identity parser, continued *)

Section RiotIdParserMore.
Import JS Errors RiotIdParser Spec.

(** The first delimiter cuts a string as [split] does. *)
Lemma split_first c s :
  ((c ∉ s) /\ split c s = [s])
  \/ (exists a rest, s = a ++ c :: rest /\ (c ∉ a) /\ split c s = a :: split c rest).
Proof.
  induction s as [|u s IH].
  - left. split; [apply not_elem_of_nil | reflexivity].
  - destruct (decide (u = c)) as [->|Hu].
    + right. exists [], s. split; [reflexivity|]. split; [apply not_elem_of_nil|].
      simpl. rewrite N.eqb_refl. reflexivity.
    + destruct IH as [[Hs Hsplit] | (a & rest & -> & Ha & Hsplit)].
      * left. split; [apply not_elem_of_cons; auto|].
        apply split_absent. apply not_elem_of_cons; auto.
      * right. exists (u :: a), rest. split; [reflexivity|].
        split; [apply not_elem_of_cons; auto|].
        apply (split_at c (u :: a) rest). apply not_elem_of_cons; auto.
Qed.

Lemma split_nonempty c s : exists first others, split c s = first :: others.
Proof.
  destruct (split_first c s) as [[_ ->] | (a & rest & _ & _ & ->)]; eauto.
Qed.

Lemma wellFormed_halves a b :
  HASH ∉ a -> HASH ∉ b -> wellFormed (a ++ HASH :: b) -> trim a <> [] /\ trim b <> [].
Proof.
  intros Ha Hb (a' & b' & Heq & Ha' & Hb' & Hta & Htb).
  assert ([a; b] = [a'; b']) as Hsame.
  { rewrite <- (split_halves HASH a b), <- (split_halves HASH a' b') by assumption.
    rewrite Heq. reflexivity. }
  injection Hsame as -> ->. auto.
Qed.

Lemma isValid_true_inv raw :
  isValid (JString raw) = Return true ->
  exists d, decodeURIComponent raw = Some d /\ wellFormed d.
Proof.
  intros Hv. destruct raw as [|u raw]; [discriminate|].
  unfold isValid in Hv.
  destruct (decodeURIComponent (u :: raw)) as [d|]; [|discriminate].
  exists d. split; [reflexivity|].
  destruct (countMatches HASH d =? 1)%nat eqn:Hc; [|discriminate].
  apply Nat.eqb_eq in Hc. apply countMatches_one in Hc as (a & b & -> & Ha & Hb).
  rewrite split_halves in Hv by assumption. simpl negb in Hv. cbv iota in Hv.
  change ([a; b] !! 0%nat) with (Some a) in Hv.
  change ([a; b] !! 1%nat) with (Some b) in Hv.
  destruct (blank (Some a)) eqn:Ea; [discriminate|].
  destruct (blank (Some b)) eqn:Eb; [discriminate|].
  exists a, b. repeat split; try assumption.
  + intros Ht. apply blank_Some in Ht. congruence.
  + intros Ht. apply blank_Some in Ht. congruence.
Qed.

Lemma isValid_Throw_inv raw e :
  isValid (JString raw) = Throw e ->
  raw <> [] /\ decodeURIComponent raw = None /\ e = URIError.
Proof.
  intros Hv. destruct raw as [|u raw]; [discriminate|].
  unfold isValid in Hv.
  destruct (decodeURIComponent (u :: raw)) as [d|].
  + destruct (negb _); [discriminate|]. destruct (_ || _); discriminate.
  + injection Hv as <-. auto.
Qed.

(** X1.  [isValid] answers [true] exactly for the strings whose
    percent-decoding has one delimiter between two halves that are not
    blank, and it throws, a [URIError], exactly for the non-empty strings
    whose percent-encoding is malformed. *)
Theorem isValid_exactly raw :
  (isValid (JString raw) = Return true
   <-> exists d, decodeURIComponent raw = Some d /\ wellFormed d)
  /\ (forall e, isValid (JString raw) = Throw e
                <-> raw <> [] /\ decodeURIComponent raw = None /\ e = URIError).
Proof.
  split; [split|intros e; split].
  - apply isValid_true_inv.
  - intros (d & Hd & Hw). eapply isValid_wellFormed; eassumption.
  - apply isValid_Throw_inv.
  - intros (Hne & Hd & ->). destruct raw as [|u raw]; [contradiction|].
    unfold isValid. rewrite Hd. reflexivity.
Qed.

Lemma parse_Return_inv raw rid :
  parse raw = Return rid ->
  exists d a b others,
    decodeURIComponent raw = Some d
    /\ isValid (JString d) = Return true
    /\ split HASH d = a :: b :: others
    /\ rid = {| gameName := trim a; tagLine := trim b |}.
Proof.
  unfold parse. destruct (decodeURIComponent raw) as [d|]; [|discriminate].
  destruct (isValid (JString d)) as [[|]|e] eqn:Hv; try discriminate.
  cbn [bind negb]. destruct (split HASH d) as [|a [|b others]] eqn:Hs;
    try discriminate.
  intros [= <-]. exists d, a, b, others. auto.
Qed.

(** X2.  Whatever [parse] returns is an identity in the sense of the data
    model: neither field is empty, neither has white space at its ends, and
    neither holds a delimiter. *)
Theorem parse_result_invariant raw rid :
  parse raw = Return rid ->
  gameName rid <> [] /\ tagLine rid <> []
  /\ trim (gameName rid) = gameName rid /\ trim (tagLine rid) = tagLine rid
  /\ (HASH ∉ gameName rid) /\ (HASH ∉ tagLine rid).
Proof.
  intros Hp. destruct (parse_Return_inv _ _ Hp) as (d & a & b & others & Hd & Hv & Hs & ->).
  simpl. apply isValid_true_inv in Hv as (d2 & Hd2 & Hw).
  destruct (split_first HASH d) as [[_ Hone] | (a0 & rest & -> & Ha0 & Hsplit)];
    [rewrite Hone in Hs; discriminate|].
  rewrite Hsplit in Hs. injection Hs as -> Hrest.
  destruct (decodeURIComponent_around_HASH _ _ _ Hd2) as (ra & rb & Hra & Hrb & ->).
  assert (countMatches HASH (ra ++ HASH :: rb) = 1%nat) as Hcount.
  { destruct Hw as (x & y & -> & Hx & Hy & _). apply countMatches_one. eauto. }
  rewrite countMatches_app, countMatches_cons, decide_True in Hcount by reflexivity.
  assert (HASH ∉ ra) as Hnra by (apply countMatches_zero; lia).
  assert (HASH ∉ rb) as Hnrb by (apply countMatches_zero; lia).
  destruct (wellFormed_halves ra rb Hnra Hnrb Hw) as [Htra Htrb].
  assert (HASH ∉ rest) as Hnrest.
  { intros Hin. apply list_elem_of_In, in_split in Hin as (x & y & ->).
    destruct (decodeURIComponent_around_HASH _ _ _ Hrb) as (rx & ry & _ & _ & ->).
    apply Hnrb. apply elem_of_app. right. apply elem_of_cons. auto. }
  rewrite (split_absent HASH rest Hnrest) in Hrest. injection Hrest as Hb _.
  subst rest.
  repeat split.
  - intros Ht. apply Htra.
    rewrite (decodeURIComponent_plain a (whitespace_plain _ (trim_nil_whitespace _ Ht)))
      in Hra.
    injection Hra as <-. exact Ht.
  - intros Ht. apply Htrb.
    rewrite (decodeURIComponent_plain b (whitespace_plain _ (trim_nil_whitespace _ Ht)))
      in Hrb.
    injection Hrb as <-. exact Ht.
  - apply trim_idempotent.
  - apply trim_idempotent.
  - apply trim_keeps_absent. assumption.
  - apply trim_keeps_absent. assumption.
Qed.

Lemma parse_result_invariant_witness :
  js "Faker" <> [] /\ js "KR1" <> []
  /\ trim (js "Faker") = js "Faker" /\ trim (js "KR1") = js "KR1"
  /\ (HASH ∉ js "Faker") /\ (HASH ∉ js "KR1").
Proof.
  exact (parse_result_invariant (js "  Faker  #  KR1  ")
           {| gameName := js "Faker"; tagLine := js "KR1" |} eq_refl).
Defined.

(** X3.  On a string without [%], [isValid] and [parse] agree: either
    [isValid] accepts and [parse] returns the trimmed halves around the
    delimiter, or [isValid] rejects and [parse] throws the format error
    showing the string; neither throws anything else. *)
Theorem parse_agrees_on_plain_input raw :
  PERCENT ∉ raw ->
  (isValid (JString raw) = Return true
   /\ exists a b, raw = a ++ HASH :: b
                  /\ parse raw = Return {| gameName := trim a; tagLine := trim b |})
  \/ (isValid (JString raw) = Return false
      /\ parse raw = Throw (FormatError raw)).
Proof.
  intros Hplain. pose proof (decodeURIComponent_plain raw Hplain) as Hd.
  destruct (isValid (JString raw)) as [[|]|e] eqn:Hv.
  - left. split; [reflexivity|].
    apply isValid_true_inv in Hv as (d & Hd' & Hw).
    rewrite Hd in Hd'. injection Hd' as <-.
    destruct Hw as (a & b & -> & Ha & Hb & Hta & Htb).
    exists a, b. split; [reflexivity|]. apply parse_wellFormed; assumption.
  - right. split; [reflexivity|]. unfold parse. rewrite Hd, Hv. reflexivity.
  - apply isValid_Throw_inv in Hv as (_ & Hnone & _). congruence.
Qed.

Lemma parse_agrees_on_plain_input_witness :
  (isValid (JString (js "Faker#KR1#Extra")) = Return true
   /\ exists a b, js "Faker#KR1#Extra" = a ++ HASH :: b
                  /\ parse (js "Faker#KR1#Extra")
                     = Return {| gameName := trim a; tagLine := trim b |})
  \/ (isValid (JString (js "Faker#KR1#Extra")) = Return false
      /\ parse (js "Faker#KR1#Extra") = Throw (FormatError (js "Faker#KR1#Extra"))).
Proof.
  apply parse_agrees_on_plain_input. compute_done.
Defined.

End RiotIdParserMore.

(** ** Parallel partition queries, continued *)

Section FanOutMore.
Import JS Errors PlatformMapping ParallelQueries Types Server.

(** X4.  While one per-platform invocation is still pending the fan-out has
    no result, whatever the invocations that did settle returned: there is no
    early exit on a first success. *)
Theorem queryPlatformsInParallel_waits_for_all {T} `{Payload T}
    (order : list nat) puuid region (queryFn : jsstring -> Platform -> result T) i :
  (i < length (getPlatformsForRegion region))%nat -> i ∉ order ->
  queryPlatformsInParallelAt order puuid region queryFn = None.
Proof.
  intros Hi Hpending. unfold queryPlatformsInParallelAt. cbv zeta.
  rewrite (allSettled_pending _ order i); [reflexivity | | assumption].
  rewrite length_map. exact Hi.
Qed.

Lemma queryPlatformsInParallel_waits_for_all_witness :
  queryPlatformsInParallelAt [2; 0; 3]%nat (js "puuid-1") americas Examples.mixedQuery
  = None.
Proof.
  apply (queryPlatformsInParallel_waits_for_all _ _ _ _ 1%nat).
  - simpl. lia.
  - compute_done.
Defined.

(** X5.  For the profile, which is not an array, the fan-out returns the
    first platform, in enumeration order, whose lookup succeeded. *)
Theorem querySummonerAcrossPlatforms_first_success puuid region riotClient up i p d :
  getPlatformsForRegion region !! i = Some p ->
  (RiotClient.getSummonerByPuuid riotClient (net_summoner up) puuid p).2 = Return d ->
  (forall j q, (j < i)%nat -> getPlatformsForRegion region !! j = Some q ->
     exists e, (RiotClient.getSummonerByPuuid riotClient (net_summoner up) puuid q).2
               = Throw e) ->
  querySummonerAcrossPlatforms puuid region riotClient up
  = Return {| platform := p; data := d |}.
Proof.
  intros Hp Hd Hearlier.
  unfold querySummonerAcrossPlatforms, queryPlatformsInParallel, selectResult.
  rewrite firstWithData_none by reflexivity.
  erewrite firstSuccessful_found; [reflexivity | exact Hp | exact Hd | exact Hearlier].
Qed.

Lemma querySummonerAcrossPlatforms_first_success_witness :
  querySummonerAcrossPlatforms (js "puuid-1") asia Examples.client MoreExamples.playerOnOc1
  = Return {| platform := oc1; data := Examples.fakerProfile |}.
Proof.
  apply (querySummonerAcrossPlatforms_first_success _ _ _ _ 2%nat).
  - reflexivity.
  - reflexivity.
  - intros j q Hj Hq. destruct j as [|[|j]]; [| |lia]; injection Hq as <-;
      eexists; reflexivity.
Defined.

End FanOutMore.

(** ** Upstream client and error handler, continued *)

Section ClientMore.
Import JS Errors PlatformMapping Types RiotClient.

Lemma rethrow_instance {T} label failure (body : list logLine * result T) e :
  (rethrow label failure body).2 = Throw e -> instanceof e RiotApiError = true.
Proof.
  destruct body as [log [v|error]]; [discriminate|]. simpl.
  destruct (instanceof error RiotApiError) eqn:Hi; intros [= <-];
    [assumption | reflexivity].
Qed.

(** X6.  Whatever goes wrong inside them, the three client operations throw
    nothing but instances of [RiotApiError]. *)
Theorem client_throws_only_RiotApiError (c : RiotClient)
    (account : Network AccountDto) (summoner : Network SummonerDto)
    (league : Network (list LeagueEntryDto)) :
  (forall gameName tagLine region e,
     (getAccountByRiotId c account gameName tagLine region).2 = Throw e ->
     instanceof e RiotApiError = true)
  /\ (forall puuid platform e,
        (getSummonerByPuuid c summoner puuid platform).2 = Throw e ->
        instanceof e RiotApiError = true)
  /\ (forall puuid platform e,
        (getLeagueEntriesbyEncryptedPUUID c league puuid platform).2 = Throw e ->
        instanceof e RiotApiError = true).
Proof.
  repeat split; intros; eapply rethrow_instance; eassumption.
Qed.

(** X7.  A game name or tag line that cannot be URL-encoded (an unpaired
    surrogate) makes [getAccountByRiotId] fail with the 500
    [RiotApiError] "Failed to fetch account information"; no request is
    made, and the only line logged is the one of the [catch]. *)
Theorem getAccountByRiotId_unencodable (c : RiotClient) (net : Network AccountDto)
    gameName tagLine region :
  encodeURIComponent gameName = None \/ encodeURIComponent tagLine = None ->
  getAccountByRiotId c net gameName tagLine region
  = ([[LLabel "❌ Riot API Error:"; LExn URIError]],
     Throw (ApiError (new_RiotApiError (js "Failed to fetch account information")
                        500 None))).
Proof.
  intros Hbad. unfold getAccountByRiotId.
  destruct (encodeURIComponent gameName) as [name|];
    [destruct (encodeURIComponent tagLine) as [tag|]|]; try reflexivity.
  destruct Hbad; discriminate.
Qed.

Lemma getAccountByRiotId_unencodable_witness :
  getAccountByRiotId Examples.client Examples.accountNet MoreExamples.unpaired
    (js "KR1") (js "asia")
  = ([[LLabel "❌ Riot API Error:"; LExn URIError]],
     Throw (ApiError (new_RiotApiError (js "Failed to fetch account information")
                        500 None))).
Proof.
  apply getAccountByRiotId_unencodable. left. reflexivity.
Defined.

End ClientMore.

Section ClientRequests.
Import JS Errors PlatformMapping Types RiotClient Requests.

Lemma new_RiotClient_inv key c :
  new_RiotClient key = Return c ->
  key <> [] /\ forall url, requestConfig c url = tokenRequest key url.
Proof.
  destruct key as [|k key]; [discriminate|]. intros [= <-].
  split; [discriminate | reflexivity].
Qed.

Lemma rethrow_get {T} label failure (c : RiotClient) (net : Network T) url
    (before : list logLine) (after : AxiosResponse T -> list logLine) :
  (rethrow label failure
     match get c net url with
     | (log, Throw e) => (before ++ log, Throw e)
     | (log, Return response) =>
         (before ++ log ++ after response, Return (resp_data response))
     end).2
  = answerOf net (requestConfig c url).
Proof.
  unfold get, answerOf. cbv zeta.
  destruct (net (requestConfig c url)) as [response|message response]; [reflexivity|].
  destruct (handleApiError_instance
              {| ae_message := message; ae_response := response;
                 ae_config := Some (requestConfig c url) |}) as [e He].
  destruct (_handleApiError _) as [log thrown]. simpl in He. subst thrown.
  reflexivity.
Qed.

(** X8.  Each client operation comes to exactly one GET request, which
    carries the API key in the [X-Riot-Token] header and a 10 second timeout
    and goes to the base URL of the region or platform followed by the
    endpoint path; the operation returns the response's data as it is, or
    throws the interceptor's error for the failure. *)
Theorem client_operation_is_one_request key (c : RiotClient) :
  new_RiotClient key = Return c ->
  (forall (net : Network AccountDto) gameName tagLine region name tag,
     encodeURIComponent gameName = Some name ->
     encodeURIComponent tagLine = Some tag ->
     (getAccountByRiotId c net gameName tagLine region).2
     = answerOf net
         (tokenRequest key
            (ApiRouting.showBaseUrl (ApiRouting.getRegionalBaseUrl region)
             ++ js "/riot/account/v1/accounts/by-riot-id/" ++ name ++ js "/" ++ tag)))
  /\ (forall (net : Network SummonerDto) puuid platform,
        (getSummonerByPuuid c net puuid platform).2
        = answerOf net
            (tokenRequest key
               (ApiRouting.showBaseUrl (ApiRouting.getPlatformBaseUrl platform)
                ++ js "/lol/summoner/v4/summoners/by-puuid/" ++ puuid)))
  /\ (forall (net : Network (list LeagueEntryDto)) puuid platform,
        (getLeagueEntriesbyEncryptedPUUID c net puuid platform).2
        = answerOf net
            (tokenRequest key
               (ApiRouting.showBaseUrl (ApiRouting.getPlatformBaseUrl platform)
                ++ js "/lol/league/v4/entries/by-puuid/" ++ puuid))).
Proof.
  intros Hc. destruct (new_RiotClient_inv _ _ Hc) as [_ Hconfig].
  repeat split.
  - intros net gameName tagLine region name tag Hname Htag.
    unfold getAccountByRiotId. rewrite Hname, Htag. cbv zeta.
    rewrite rethrow_get, Hconfig. reflexivity.
  - intros net puuid platform. unfold getSummonerByPuuid. cbv zeta.
    rewrite rethrow_get, Hconfig. reflexivity.
  - intros net puuid platform. unfold getLeagueEntriesbyEncryptedPUUID. cbv zeta.
    rewrite rethrow_get, Hconfig. reflexivity.
Qed.

Lemma client_operation_is_one_request_witness :
  (getSummonerByPuuid Examples.client Examples.summonerNet (js "puuid-1") kr).2
  = answerOf Examples.summonerNet
      (tokenRequest (js "RGAPI-0000")
         (js "https://kr.api.riotgames.com/lol/summoner/v4/summoners/by-puuid/puuid-1")).
Proof.
  exact (proj1 (proj2 (client_operation_is_one_request (js "RGAPI-0000")
                         Examples.client eq_refl))
           Examples.summonerNet (js "puuid-1") kr).
Defined.

(** X9.  The status the error handler answers with for the error the
    interceptor made of an upstream failure is the upstream's status, and 500
    when the failure has no response. *)
Theorem upstream_status_reaches_the_caller (error : AxiosError) :
  Server.status (Server.handleApiError (_handleApiError error).2).2 = statusOf error.
Proof.
  unfold _handleApiError. cbv zeta.
  repeat match goal with
  | |- context [(statusOf error =? ?n)%Z] =>
      destruct (Z.eqb_spec (statusOf error) n) as [Heq|?];
      [rewrite Heq; reflexivity |]
  end.
  reflexivity.
Qed.

(** X10.  A throttled upstream answer (429) reaches the caller as a 429 whose
    payload carries the seconds read from the [retry-after] header, 60 when
    the header is missing or empty, in [retryAfter] and in the message. *)
Theorem throttling_reaches_the_caller (error : AxiosError) r :
  ae_response error = Some r -> resp_status r = 429 ->
  let seconds :=
    match header (js "retry-after") (resp_headers r) with
    | Some (c :: v) => parseInt10 (c :: v)
    | _ => Int 60
    end in
  (Server.handleApiError (_handleApiError error).2).2
  = Server.json 429 (Server.ErrorJson
      [("error", Server.FStr (js "Rate limit exceeded"));
       ("message", Server.FStr (js "Please try again in " ++ numToString seconds
                                ++ js " seconds"));
       ("retryAfter", Server.FNum (Some seconds))]).
Proof.
  intros Hr Hs. unfold _handleApiError, statusOf. rewrite Hr, Hs. reflexivity.
Qed.

Lemma throttling_reaches_the_caller_witness :
  (Server.handleApiError (_handleApiError Examples.throttled).2).2
  = Server.json 429 (Server.ErrorJson
      [("error", Server.FStr (js "Rate limit exceeded"));
       ("message", Server.FStr (js "Please try again in 120 seconds"));
       ("retryAfter", Server.FNum (Some (Int 120)))]).
Proof.
  exact (throttling_reaches_the_caller Examples.throttled _ eq_refl eq_refl).
Defined.

(** X11.  The regional base URL exists for each of the three regions and the
    platform base URL for eleven platforms, both of the form
    [https://<name>.api.riotgames.com]; the platforms [me1], [sg2], [tw2] and
    [vn2], which the fan-out of [europe] and [asia] does probe, have none, so
    their request goes to a URL that starts with [undefined]. *)
Theorem base_urls :
  (forall r, ApiRouting.getRegionalBaseUrl (regionName r)
             = Some (js "https://" ++ regionName r ++ js ".api.riotgames.com"))
  /\ (forall p, p ∉ [me1; sg2; tw2; vn2] ->
        ApiRouting.getPlatformBaseUrl p
        = Some (js "https://" ++ platformName p ++ js ".api.riotgames.com"))
  /\ (forall p, p ∈ [me1; sg2; tw2; vn2] ->
        (p ∈ getPlatformsForRegion europe \/ p ∈ getPlatformsForRegion asia)
        /\ forall key c (net : Network SummonerDto) puuid,
             new_RiotClient key = Return c ->
             (getSummonerByPuuid c net puuid p).2
             = answerOf net
                 (tokenRequest key
                    (js "undefined/lol/summoner/v4/summoners/by-puuid/" ++ puuid))).
Proof.
  split; [|split].
  - intros []; reflexivity.
  - intros p Hp. destruct p; try reflexivity; exfalso; apply Hp; compute_done.
  - intros p Hp. split.
    + destruct p; try (exfalso; revert Hp; compute_done);
        [left | right | right | right]; compute_done.
    + intros key c net puuid Hc. destruct (new_RiotClient_inv _ _ Hc) as [_ Hconfig].
      unfold getSummonerByPuuid. cbv zeta. rewrite rethrow_get, Hconfig.
      destruct p; try (exfalso; revert Hp; compute_done); reflexivity.
Qed.

End ClientRequests.

(** ** Request orchestrator, continued *)

Section ServerMore.
Import JS Errors PlatformMapping ParallelQueries Types Cache Server Requests.

Local Ltac not_a_success e :=
  let fields := fresh "fields" in
  let Hb := fresh "Hb" in
  let Hr := fresh "Hr" in
  destruct (handleApiError_body e) as [fields Hb]; intros Hr; cbn [fst] in Hr;
  rewrite Hr in Hb; discriminate.

(** What a freshly built success tells about the request and the store. *)
Lemma getAccount_fresh_inv riotClient up req tCheck tStore
    (store : NodeCache.t Cached) d :
  (getAccount riotClient up req tCheck tStore store).1
    = json 200 (SuccessJson (AccountData d) false) ->
  exists raw parsed r,
    q_riotId req = Some (JString raw)
    /\ RiotIdParser.isValid (JString raw) = Return true
    /\ RiotIdParser.parse raw = Return parsed
    /\ validRegion (default (JString (js "americas")) (q_region req)) = Some r
    /\ NodeCache.data (getAccount riotClient up req tCheck tStore store).2
         !! CacheKeys.account raw (regionName r)
       = Some {| NodeCache.value := AccountData d;
                 NodeCache.expiresAt := tStore + 86400 * 1000 |}.
Proof.
  unfold getAccount. cbv zeta.
  destruct (q_riotId req) as [[[|u raw]|]|]; cbv beta iota; try discriminate.
  destruct (RiotIdParser.isValid (JString (u :: raw))) as [[|]|e] eqn:Hv;
    cbv beta iota; try discriminate; [|not_a_success e].
  destruct (RiotIdParser.parse (u :: raw)) as [parsed|e] eqn:Hp; cbv beta iota;
    [|not_a_success e].
  destruct (validRegion _) as [r|]; cbv beta iota; try discriminate.
  destruct (CacheService.getCachedAccount _ _ _ _) as [[cached|] store1];
    cbv beta iota; try discriminate.
  destruct (RiotClient.getAccountByRiotId _ _ _ _ _).2 as [account|e]; cbv beta iota;
    [|not_a_success e].
  destruct (querySummonerAcrossPlatforms _ _ _ _) as [summonerResult|e]; cbv beta iota;
    [|not_a_success e].
  destruct (queryLeagueEntriesAcrossPlatforms _ _ _ _) as [leagueResult|e];
    cbv beta iota;
    match goal with
    | |- context [CacheService.cacheAccount ?a ?b (AccountData ?answer) ?t ?st] =>
        pose proof (NodeCache_set_lookup (CacheKeys.account a b)
                      (AccountData answer) 86400 t st) as Hset
    end;
    intros Hr; injection Hr as <-; exists (u :: raw), parsed, r;
    (split; [reflexivity|]; split; [exact Hv|]; split; [exact Hp|];
     split; [reflexivity|]; apply Hset; lia).
Qed.

Lemma NodeCache_get_live {V} key now (c : NodeCache.t V) e :
  NodeCache.data c !! key = Some e -> now <= NodeCache.expiresAt e ->
  NodeCache.get key now c
  = (Some (NodeCache.value e),
     {| NodeCache.opts := NodeCache.opts c; NodeCache.data := NodeCache.data c;
        NodeCache.hits := S (NodeCache.hits c);
        NodeCache.misses := NodeCache.misses c |}).
Proof.
  intros He Hlive. unfold NodeCache.get, NodeCache.expired. rewrite He.
  destruct (Z.ltb_spec (NodeCache.expiresAt e) now); [lia | reflexivity].
Qed.

(** The route on a cache hit. *)
Lemma getAccount_hit riotClient up req tCheck tStore (store : NodeCache.t Cached)
    raw parsed r cached :
  q_riotId req = Some (JString raw) ->
  RiotIdParser.isValid (JString raw) = Return true ->
  RiotIdParser.parse raw = Return parsed ->
  validRegion (default (JString (js "americas")) (q_region req)) = Some r ->
  (CacheService.getCachedAccount raw (regionName r) tCheck store).1 = Some cached ->
  getAccount riotClient up req tCheck tStore store
  = (json 200 (SuccessJson cached true),
     (CacheService.getCachedAccount raw (regionName r) tCheck store).2).
Proof.
  intros Hid Hvalid Hparse Hregion Hhit. unfold getAccount. cbv zeta. rewrite Hid.
  destruct raw as [|u raw]; [discriminate|].
  rewrite Hvalid, Hparse, Hregion.
  destruct (CacheService.getCachedAccount _ _ _ _) as [found store1].
  simpl in Hhit. subst found. reflexivity.
Qed.





(** X13.  On a cache hit the route answers the cached data, marked as
    cached, and nothing of the client, of the upstream or of the later clock
    reading has a part in the answer or in the store left behind. *)
Theorem cache_hit_skips_the_upstream riotClient up req tCheck tStore
    (store : NodeCache.t Cached) raw parsed r cached :
  q_riotId req = Some (JString raw) ->
  RiotIdParser.isValid (JString raw) = Return true ->
  RiotIdParser.parse raw = Return parsed ->
  validRegion (default (JString (js "americas")) (q_region req)) = Some r ->
  (CacheService.getCachedAccount raw (regionName r) tCheck store).1 = Some cached ->
  (getAccount riotClient up req tCheck tStore store).1
    = json 200 (SuccessJson cached true)
  /\ forall riotClient' up' tStore',
       getAccount riotClient' up' req tCheck tStore' store
       = getAccount riotClient up req tCheck tStore store.
Proof.
  intros Hid Hvalid Hparse Hregion Hhit. split.
  - erewrite getAccount_hit by eassumption. reflexivity.
  - intros riotClient' up' tStore'.
    erewrite !getAccount_hit by eassumption. reflexivity.
Qed.

(** X14.  Once a request has been answered with a freshly built success, the
    same request made again within 24 hours of the cache write is answered
    with the same data, marked as cached, whatever the upstream does by
    then. *)
Theorem second_request_is_served_from_cache riotClient up req t0 t1
    (store : NodeCache.t Cached) d riotClient' up' t2 t3 :
  (getAccount riotClient up req t0 t1 store).1
    = json 200 (SuccessJson (AccountData d) false) ->
  t2 <= t1 + 86400 * 1000 ->
  (getAccount riotClient' up' req t2 t3 (getAccount riotClient up req t0 t1 store).2).1
  = json 200 (SuccessJson (AccountData d) true).
Proof.
  intros Hfresh Hsoon.
  destruct (getAccount_fresh_inv _ _ _ _ _ _ _ Hfresh)
    as (raw & parsed & r & Hid & Hvalid & Hparse & Hregion & Hentry).
  erewrite getAccount_hit; try eassumption; [reflexivity|].
  unfold CacheService.getCachedAccount, CacheService.get.
  rewrite (NodeCache_get_live _ _ _ _ Hentry Hsoon). reflexivity.
Qed.

Lemma second_request_is_served_from_cache_witness :
  exists d,
    (getAccount Examples.client Examples.rankedDown Examples.request 0 5 Cache.cache).1
      = json 200 (SuccessJson (AccountData d) false)
    /\ (getAccount Examples.otherClient MoreExamples.profileMissing Examples.request
          86400005 86400009
          (getAccount Examples.client Examples.rankedDown Examples.request 0 5
             Cache.cache).2).1
       = json 200 (SuccessJson (AccountData d) true).
Proof.
  eexists. split; [reflexivity|].
  apply second_request_is_served_from_cache; [reflexivity | lia].
Defined.

Lemma cache_hit_skips_the_upstream_witness :
  exists cached,
    (getAccount Examples.otherClient MoreExamples.profileMissing Examples.request
       1000 2000
       (getAccount Examples.client Examples.rankedDown Examples.request 0 5
          Cache.cache).2).1
    = json 200 (SuccessJson cached true).
Proof.
  eexists.
  refine (proj1 (cache_hit_skips_the_upstream _ _ _ _ _ _ (js "Faker#KR1")
                   {| RiotIdParser.gameName := js "Faker";
                      RiotIdParser.tagLine := js "KR1" |} asia _ _ _ _ _ _)).
  - reflexivity.
  - reflexivity.
  - reflexivity.
  - reflexivity.
  - vm_compute. reflexivity.
Defined.

(** X15.  When the account is found but the profile lookup fails on every
    platform of the region, the request is answered 404 "Player not found",
    with the message that names the region. *)
Theorem profile_failure_is_not_found riotClient up req tCheck tStore
    (store : NodeCache.t Cached) raw parsed r account :
  q_riotId req = Some (JString raw) ->
  RiotIdParser.isValid (JString raw) = Return true ->
  RiotIdParser.parse raw = Return parsed ->
  validRegion (default (JString (js "americas")) (q_region req)) = Some r ->
  (CacheService.getCachedAccount raw (regionName r) tCheck store).1 = None ->
  (RiotClient.getAccountByRiotId riotClient (net_account up)
     (RiotIdParser.gameName parsed) (RiotIdParser.tagLine parsed) (regionName r)).2
    = Return account ->
  (forall p, p ∈ getPlatformsForRegion r ->
     exists e, (RiotClient.getSummonerByPuuid riotClient (net_summoner up)
                  (acc_puuid account) p).2 = Throw e) ->
  (getAccount riotClient up req tCheck tStore store).1
  = json 404 (ErrorJson
      [("error", FStr (js "Player not found"));
       ("message", FStr (js "Player not found: Player not found on any platform in "
                         ++ regionName r))]).
Proof.
  intros Hid Hvalid Hparse Hregion Hmiss Haccount Hprofile.
  unfold getAccount. cbv zeta. rewrite Hid.
  destruct raw as [|u raw]; [discriminate|].
  rewrite Hvalid, Hparse, Hregion.
  destruct (CacheService.getCachedAccount _ _ _ _) as [found store1].
  simpl in Hmiss. subst found. rewrite Haccount.
  unfold querySummonerAcrossPlatforms, queryPlatformsInParallel.
  rewrite selectResult_all_failed by exact Hprofile. reflexivity.
Qed.

Lemma profile_failure_is_not_found_witness :
  (getAccount Examples.client MoreExamples.profileMissing Examples.request 0 0
     Cache.cache).1
  = json 404 (ErrorJson
      [("error", FStr (js "Player not found"));
       ("message", FStr (js "Player not found: Player not found on any platform in "
                         ++ regionName asia))]).
Proof.
  apply (profile_failure_is_not_found _ _ _ _ _ _ (js "Faker#KR1")
           {| RiotIdParser.gameName := js "Faker"; RiotIdParser.tagLine := js "KR1" |}
           asia Examples.faker).
  - reflexivity.
  - reflexivity.
  - reflexivity.
  - reflexivity.
  - reflexivity.
  - reflexivity.
  - intros p _. eexists. reflexivity.
Defined.

Lemma isValid_throws_URIError v e :
  RiotIdParser.isValid v = Throw e -> e = URIError.
Proof.
  destruct v as [[|u s]|]; try discriminate. unfold RiotIdParser.isValid.
  destruct (decodeURIComponent (u :: s)); [|congruence].
  destruct (negb _); [discriminate|]. destruct (_ || _); discriminate.
Qed.

Lemma parse_throws_unexpected raw e :
  RiotIdParser.parse raw = Throw e -> instanceof e RiotApiError = false.
Proof.
  unfold RiotIdParser.parse. destruct (decodeURIComponent raw) as [d|];
    [|intros [= <-]; reflexivity].
  destruct (RiotIdParser.isValid (JString d)) as [[|]|e'] eqn:Hv; cbn [bind negb].
  - destruct (split HASH d !! 0%nat); [destruct (split HASH d !! 1%nat)|];
      try discriminate; intros [= <-]; reflexivity.
  - intros [= <-]. reflexivity.
  - intros [= <-]. rewrite (isValid_throws_URIError _ _ Hv). reflexivity.
Qed.

(** X16.  A [riotId] on which validation throws, because its
    percent-encoding is malformed or because [isValid] accepts it and [parse]
    then does not, is answered with the plain 500 of the error handler, not
    with a 400; the store is not touched. *)
Theorem validation_failure_is_a_500 riotClient up req tCheck tStore
    (store : NodeCache.t Cached) raw e :
  q_riotId req = Some (JString raw) ->
  RiotIdParser.isValid (JString raw) = Throw e
  \/ (RiotIdParser.isValid (JString raw) = Return true
      /\ RiotIdParser.parse raw = Throw e) ->
  getAccount riotClient up req tCheck tStore store = (internalServerError, store).
Proof.
  intros Hid Hthrow. unfold getAccount. cbv zeta. rewrite Hid.
  destruct raw as [|u raw]; [destruct Hthrow as [H|[H _]]; discriminate|].
  destruct Hthrow as [Hv | [Hv Hp]].
  - rewrite Hv. rewrite (isValid_throws_URIError _ _ Hv). reflexivity.
  - rewrite Hv, Hp.
    pose proof (parse_throws_unexpected _ _ Hp) as Hun.
    destruct e; try discriminate; reflexivity.
Qed.

Lemma validation_failure_is_a_500_witness :
  getAccount Examples.client Examples.rankedDown
    {| q_riotId := Some (JString (js "Faker%2523#KR1")); q_region := None |}
    0 0 Cache.cache
  = (internalServerError, Cache.cache).
Proof.
  apply (validation_failure_is_a_500 _ _ _ _ _ _ (js "Faker%2523#KR1")
           (Error (RiotIdParser.invalidFormatMessage (js "Faker%23#KR1")))).
  - reflexivity.
  - right. split; reflexivity.
Defined.

(** X17.  For an entry with no negative count, at least one game played and
    fewer than 2^53 games, the win rate, computed in double arithmetic as the
    source does, is an integer between 0 and 100. *)
Theorem winRate_is_a_percentage (entry : LeagueEntryDto) :
  0 <= wins entry -> 0 <= losses entry ->
  0 < wins entry + losses entry < 2 ^ 53 ->
  exists z, winRate entry = Int z /\ 0 <= z <= 100.
Proof.
  intros Hw Hl [Hplayed Hsafe]. unfold winRate, ofInt.
  destruct (roundDouble_between (inject_Z (wins entry)) (wins entry) (wins entry))
    as (w & -> & Hw1 & Hw2); [lia | lia | apply Qle_refl | apply Qle_refl |].
  destruct (roundDouble_between (inject_Z (losses entry)) (losses entry) (losses entry))
    as (l & -> & Hl1 & Hl2); [lia | lia | apply Qle_refl | apply Qle_refl |].
  destruct (roundDouble_between (inject_Z 100) 100 100)
    as (hundred & -> & Hh1 & Hh2); [lia | lia | apply Qle_refl | apply Qle_refl |].
  cbn [add].
  destruct (roundDouble_between (w + l) (wins entry + losses entry)
              (wins entry + losses entry))
    as (games & -> & Hg1 & Hg2); [lia | lia | | |].
  { rewrite inject_Z_plus. apply Qplus_le_compat; assumption. }
  { rewrite inject_Z_plus. apply Qplus_le_compat; assumption. }
  assert (0 < games)%Q as Hgames.
  { eapply Qlt_le_trans; [|exact Hg1]. unfold Qlt. simpl. lia. }
  assert (0 <= w)%Q as Hw0.
  { eapply Qle_trans; [|exact Hw1]. unfold Qle. simpl. lia. }
  assert (w <= games)%Q as Hshare.
  { eapply Qle_trans; [exact Hw2|]. eapply Qle_trans; [|exact Hg1].
    rewrite <- Zle_Qle. lia. }
  cbn [div]. assert (Qis0 games = false) as ->.
  { unfold Qis0. apply Z.eqb_neq. unfold Qlt in Hgames. simpl in Hgames. lia. }
  destruct (roundDouble_between (w / games) 0 1)
    as (share & -> & Hs1 & Hs2); [lia | lia | | |].
  { apply Qle_shift_div_l; [exact Hgames|]. rewrite Qmult_0_l. exact Hw0. }
  { apply Qle_shift_div_r; [exact Hgames|]. rewrite Qmult_1_l. exact Hshare. }
  cbn [mul].
  destruct (roundDouble_between (share * hundred) 0 100)
    as (percent & -> & Hp1 & Hp2); [lia | lia | | |].
  { apply Qmult_le_0_compat; [exact Hs1|].
    eapply Qle_trans; [|exact Hh1]. discriminate. }
  { eapply Qle_trans.
    - apply (Qmult_le_compat_nonneg share 1 hundred (inject_Z 100)).
      + split; assumption.
      + split; [|assumption]. eapply Qle_trans; [|exact Hh1]. discriminate.
    - rewrite Qmult_1_l. apply Qle_refl. }
  exists (Qfloor (percent + (1 # 2))). split; [reflexivity|]. split.
  - change 0 with (Qfloor (inject_Z 0 + (1 # 2))). apply Qfloor_resp_le.
    apply Qplus_le_l. exact Hp1.
  - change 100 with (Qfloor (inject_Z 100 + (1 # 2))). apply Qfloor_resp_le.
    apply Qplus_le_l. exact Hp2.
Qed.

Lemma winRate_is_a_percentage_witness :
  exists z, winRate MoreExamples.closeCall = Int z /\ 0 <= z <= 100.
Proof.
  apply winRate_is_a_percentage; simpl; lia.
Defined.

End ServerMore.

(** ** Aggregation cache, continued *)

Section CacheMore.
Import JS PlatformMapping Cache.

Lemma NodeCache_get_fst {V} key now (c : NodeCache.t V) :
  (NodeCache.get key now c).1
  = match NodeCache.data c !! key with
    | Some e => if (NodeCache.expiresAt e <? now)%Z then None
                else Some (NodeCache.value e)
    | None => None
    end.
Proof.
  unfold NodeCache.get, NodeCache.expired.
  destruct (NodeCache.data c !! key) as [e|]; [|reflexivity].
  destruct (_ <? _)%Z; reflexivity.
Qed.

Lemma NodeCache_set_other {V} key key' (v : V) ttl now later (c : NodeCache.t V) :
  key' <> key -> now <= later ->
  (NodeCache.get key' later (NodeCache.set key v ttl now c).2).1
  = (NodeCache.get key' later c).1.
Proof.
  intros Hne Htime. rewrite !NodeCache_get_fst.
  unfold NodeCache.set, NodeCache.backstop. simpl.
  destruct (_ <? _)%Z; [|rewrite lookup_insert_ne by congruence; reflexivity].
  destruct (NodeCache.data c !! key') as [e|] eqn:He.
  - destruct (NodeCache.expired now e) eqn:Hnow.
    + rewrite (proj2 (map_lookup_filter_None _ _ _)).
      * unfold NodeCache.expired in Hnow. apply Z.ltb_lt in Hnow.
        destruct (Z.ltb_spec (NodeCache.expiresAt e) later); [reflexivity | lia].
      * right. intros e'. rewrite lookup_insert_ne by congruence.
        intros He'. simpl. congruence.
    + rewrite (map_lookup_filter_Some_2 _ _ key' e).
      * reflexivity.
      * rewrite lookup_insert_ne by congruence. exact He.
      * exact Hnow.
  - rewrite (proj2 (map_lookup_filter_None _ _ _)); [reflexivity|].
    left. rewrite lookup_insert_ne by congruence. exact He.
Qed.

Lemma account_key_is_not_an_icon_key riotId region iconId :
  CacheKeys.account riotId region <> CacheKeys.icon iconId.
Proof. unfold CacheKeys.account, CacheKeys.icon. simpl. intros H. discriminate H. Qed.

(** X18.  Writing one key leaves what every other key reads as it was; in
    particular caching an icon never changes what an account lookup finds,
    nor the other way round. *)
Theorem cache_keys_are_isolated {V} (c : NodeCache.t V) now later :
  now <= later ->
  (forall key key' (v : V) ttl,
     key' <> key ->
     (CacheService.get key' later (CacheService.set key v ttl now c).2).1
     = (CacheService.get key' later c).1)
  /\ (forall iconId (image : V) riotId region,
        (CacheService.getCachedAccount riotId region later
           (CacheService.cacheIcon iconId image now c).2).1
        = (CacheService.getCachedAccount riotId region later c).1)
  /\ (forall riotId region (data : V) iconId,
        (CacheService.getCachedIcon iconId later
           (CacheService.cacheAccount riotId region data now c).2).1
        = (CacheService.getCachedIcon iconId later c).1).
Proof.
  intros Htime. split; [|split].
  - intros key key' v ttl Hne. apply NodeCache_set_other; assumption.
  - intros iconId image riotId region. apply NodeCache_set_other; [|assumption].
    apply account_key_is_not_an_icon_key.
  - intros riotId region data iconId. apply NodeCache_set_other; [|assumption].
    intros Heq. symmetry in Heq. revert Heq. apply account_key_is_not_an_icon_key.
Qed.

Lemma cache_keys_are_isolated_witness :
  (CacheService.getCachedAccount (js "Faker#KR1") (js "asia") 10
     (CacheService.cacheIcon 6 (5 : Z) 0 Cache.cache).2).1
  = (CacheService.getCachedAccount (js "Faker#KR1") (js "asia") 10 Cache.cache).1.
Proof.
  refine (proj1 (proj2 (cache_keys_are_isolated Cache.cache 0 10 _)) 6 5 _ _). lia.
Defined.

(** X19.  [CacheService.set] without a TTL, or with a TTL of zero, stores the
    entry for the standard five minutes. *)
Theorem missing_ttl_is_five_minutes {V} key (v : V) ttl now later (c : NodeCache.t V) :
  ttl = None \/ ttl = Some 0 ->
  (later < now + 300 * 1000 ->
     (CacheService.get key later (CacheService.set key v ttl now c).2).1 = Some v)
  /\ (now + 300 * 1000 < later ->
        (CacheService.get key later (CacheService.set key v ttl now c).2).1 = None).
Proof.
  intros Httl.
  assert (CacheService.set key v ttl now c = NodeCache.set key v 300 now c) as ->
    by (destruct Httl as [-> | ->]; reflexivity).
  unfold CacheService.get. split; intros Htime.
  - erewrite NodeCache_get_value by (apply NodeCache_set_lookup; lia).
    simpl. destruct (Z.ltb_spec (now + 300 * 1000) later); [lia | reflexivity].
  - erewrite NodeCache_get_value by (apply NodeCache_set_lookup; lia).
    simpl. destruct (Z.ltb_spec (now + 300 * 1000) later); [reflexivity | lia].
Qed.

Lemma missing_ttl_is_five_minutes_witness :
  (299999 < 0 + 300 * 1000 ->
     (CacheService.get (js "k") 299999
        (CacheService.set (js "k") (5 : Z) (Some 0) 0 Cache.cache).2).1 = Some 5)
  /\ (0 + 300 * 1000 < 299999 ->
        (CacheService.get (js "k") 299999
           (CacheService.set (js "k") (5 : Z) (Some 0) 0 Cache.cache).2).1 = None).
Proof.
  apply missing_ttl_is_five_minutes. right. reflexivity.
Defined.

Lemma regionName_last r :
  last (regionName r)
  = Some (match r with americas => 115 | europe => 101 | asia => 97 end)%N.
Proof. destruct r; reflexivity. Qed.

(** X20.  Two requests share an account cache key only when they have the
    same raw identity string and the same region. *)
Theorem account_keys_are_distinct raw1 r1 raw2 r2 :
  CacheKeys.account raw1 (regionName r1) = CacheKeys.account raw2 (regionName r2) ->
  raw1 = raw2 /\ r1 = r2.
Proof.
  unfold CacheKeys.account. intros Heq. apply app_inv_head in Heq.
  assert (r1 = r2) as ->.
  { apply (f_equal last) in Heq. rewrite !app_assoc, !last_app, !regionName_last in Heq.
    destruct r1, r2; try reflexivity; discriminate Heq. }
  split; [|reflexivity]. rewrite !app_assoc in Heq. apply app_inv_tail in Heq.
  apply app_inv_tail in Heq. exact Heq.
Qed.

Lemma account_keys_are_distinct_witness :
  js "Faker#KR1" = js "Faker#KR1" /\ asia = asia.
Proof.
  exact (account_keys_are_distinct (js "Faker#KR1") asia (js "Faker#KR1") asia eq_refl).
Defined.

(** X21.  The region table of the fan-out is a partition of the platform
    enumeration: every platform is probed for exactly one region, and once. *)
Theorem region_platforms_partition :
  (forall p, exists r, p ∈ getPlatformsForRegion r
                       /\ forall r', p ∈ getPlatformsForRegion r' -> r' = r)
  /\ (forall r, NoDup (getPlatformsForRegion r)).
Proof.
  split.
  - intros p.
    assert (forall r', p ∈ getPlatformsForRegion r' ->
              r' = match p with
                   | na1 | br1 | la1 | la2 => americas
                   | euw1 | eun1 | tr1 | ru | me1 => europe
                   | _ => asia
                   end) as Hunique.
    { intros r' Hin. destruct p, r'; try reflexivity; exfalso; revert Hin; compute_done. }
    eexists. split; [|exact Hunique]. destruct p; compute_done.
  - intros []; compute_done.
Qed.

End CacheMore.

(** ** Icon route *)

Section IconRouteFacts.
Import JS Cache Server NumberConversion IconRoute.

Lemma safeInteger_not_NaN n z : safeInteger n = Some z -> isNaN n = false.
Proof. destruct n; [discriminate | discriminate | reflexivity]. Qed.

(** The route once the path parameter has been accepted as the number [n]. *)
Lemma getIcon_accepted dd iconId n tCheck tStore (store : NodeCache.t Cached) :
  iconId <> [] -> safeInteger (Number_ iconId) = Some n ->
  getIcon dd iconId tCheck tStore store
  = match (CacheService.getCachedIcon n tCheck store).1 with
    | Some cached =>
        Some (Sent imageHeaders cached, (CacheService.getCachedIcon n tCheck store).2)
    | None =>
        match tryVersions dd iconId n (versionsToTry dd) tStore
                (CacheService.getCachedIcon n tCheck store).2 with
        | Some served => Some served
        | None => Some (Json (iconNotFound iconId),
                        (CacheService.getCachedIcon n tCheck store).2)
        end
    end.
Proof.
  intros Hne Hn. unfold getIcon. destruct iconId as [|c s]; [contradiction|].
  rewrite (safeInteger_not_NaN _ _ Hn), Hn.
  destruct (CacheService.getCachedIcon n tCheck store) as [[cached|] store1];
    reflexivity.
Qed.

Lemma tryVersions_first dd iconId n versions now (store : NodeCache.t Cached) i v image :
  versions !! i = Some v ->
  dd_icon dd (iconUrl v iconId) = Image image ->
  (forall j w, (j < i)%nat -> versions !! j = Some w ->
     forall other, dd_icon dd (iconUrl w iconId) <> Image other) ->
  tryVersions dd iconId n versions now store
  = Some (Sent imageHeaders (IconData image),
          (CacheService.cacheIcon n (IconData image) now store).2).
Proof.
  revert i. induction versions as [|w versions IH]; intros [|i] Hv Himg Hearlier;
    try discriminate.
  - injection Hv as ->. cbn [tryVersions]. rewrite Himg.
    destruct (CacheService.cacheIcon n (IconData image) now store). reflexivity.
  - simpl in Hv. simpl.
    pose proof (Hearlier 0%nat w ltac:(lia) eq_refl) as Hw.
    destruct (dd_icon dd (iconUrl w iconId)) as [| |other];
      [| |exfalso; apply (Hw other); reflexivity];
      (apply (IH i); [assumption | assumption |
        intros j w' Hj; apply (Hearlier (S j)); lia]).
Qed.

Lemma tryVersions_none dd iconId n versions now (store : NodeCache.t Cached) :
  (forall v, v ∈ versions -> forall image, dd_icon dd (iconUrl v iconId) <> Image image) ->
  tryVersions dd iconId n versions now store = None.
Proof.
  induction versions as [|w versions IH]; intros Hall; [reflexivity|]. simpl.
  pose proof (Hall w ltac:(apply elem_of_cons; auto)) as Hw.
  destruct (dd_icon dd (iconUrl w iconId)) as [| |other];
    [| |exfalso; apply (Hw other); reflexivity];
    (apply IH; intros v Hv; apply Hall; apply elem_of_cons; auto).
Qed.

Lemma tryVersions_Some_inv dd iconId n versions now (store : NodeCache.t Cached) served :
  tryVersions dd iconId n versions now store = Some served ->
  exists image,
    served = (Sent imageHeaders (IconData image),
              (CacheService.cacheIcon n (IconData image) now store).2).
Proof.
  induction versions as [|w versions IH]; [discriminate|]. cbn [tryVersions].
  destruct (dd_icon dd (iconUrl w iconId)) as [| |image]; try exact IH.
  destruct (CacheService.cacheIcon n (IconData image) now store) as [ok store'] eqn:Hc.
  intros [= <-]. exists image. rewrite Hc. reflexivity.
Qed.

(** X22.  The icon route answers 400 "Invalid icon ID" exactly when the path
    parameter is empty or is not a numeric literal, and then the store is
    left as it was and Data Dragon is not asked. *)
Theorem icon_id_must_be_a_number dd iconId tCheck tStore (store : NodeCache.t Cached) :
  (iconId = [] \/ isNaN (Number_ iconId) = true
   <-> exists store',
         getIcon dd iconId tCheck tStore store = Some (Json invalidIconId, store'))
  /\ (iconId = [] \/ isNaN (Number_ iconId) = true ->
      getIcon dd iconId tCheck tStore store = Some (Json invalidIconId, store)).
Proof.
  assert (iconId = [] \/ isNaN (Number_ iconId) = true ->
          getIcon dd iconId tCheck tStore store = Some (Json invalidIconId, store))
    as Hbad.
  { intros [-> | Hnan]; [reflexivity|]. unfold getIcon.
    destruct iconId; [reflexivity|]. rewrite Hnan. reflexivity. }
  split; [split|exact Hbad].
  - intros H. exists store. auto.
  - intros [store' Hr]. destruct iconId as [|c s]; [auto|]. right.
    destruct (isNaN (Number_ (c :: s))) eqn:Hnan; [reflexivity|].
    destruct (safeInteger (Number_ (c :: s))) as [n|] eqn:Hn.
    + rewrite (getIcon_accepted dd (c :: s) n) in Hr by (try discriminate; assumption).
      destruct (CacheService.getCachedIcon n tCheck store).1; [discriminate|].
      destruct (tryVersions _ _ _ _ _ _) as [served|] eqn:Ht; [|discriminate].
      apply tryVersions_Some_inv in Ht as [image ->]. discriminate.
    + unfold getIcon in Hr. rewrite Hnan, Hn in Hr. discriminate.
Qed.

Lemma icon_id_must_be_a_number_witness :
  getIcon MoreExamples.dragon (js "12px") 0 0 Cache.cache
  = Some (Json invalidIconId, Cache.cache).
Proof.
  apply (proj2 (icon_id_must_be_a_number _ _ _ _ _)). right. reflexivity.
Defined.

(** X23.  When the store holds a live entry for the icon, the route sends it
    with the image headers; Data Dragon has no part in the answer. *)
Theorem cached_icon_is_sent dd iconId n tCheck tStore (store : NodeCache.t Cached)
    cached :
  iconId <> [] -> safeInteger (Number_ iconId) = Some n ->
  (CacheService.getCachedIcon n tCheck store).1 = Some cached ->
  getIcon dd iconId tCheck tStore store
    = Some (Sent imageHeaders cached, (CacheService.getCachedIcon n tCheck store).2)
  /\ forall dd' tStore',
       getIcon dd' iconId tCheck tStore' store = getIcon dd iconId tCheck tStore store.
Proof.
  intros Hne Hn Hhit. split.
  - rewrite (getIcon_accepted dd iconId n) by assumption. rewrite Hhit. reflexivity.
  - intros dd' tStore'. rewrite !(getIcon_accepted _ iconId n) by assumption.
    rewrite Hhit. reflexivity.
Qed.

Lemma cached_icon_is_sent_witness :
  getIcon MoreExamples.dragonDown (js "6") 10 20
    (CacheService.cacheIcon 6 (IconData [137; 80; 78; 71]%N) 0 Cache.cache).2
  = Some (Sent imageHeaders (IconData [137; 80; 78; 71]%N),
          (CacheService.getCachedIcon 6 10
             (CacheService.cacheIcon 6 (IconData [137; 80; 78; 71]%N) 0
                Cache.cache).2).2).
Proof.
  refine (proj1 (cached_icon_is_sent _ (js "6") 6 _ _ _ _ _ _ _)).
  - discriminate.
  - reflexivity.
  - reflexivity.
Defined.

(** X24.  On a miss the route tries the versions in the order latest known
    (or 14.18.1), 15.18.1, 14.18.1, 14.17.1, 14.16.1, sends the image of the
    first one whose fetch is ok, and stores that image under the icon's
    key. *)
Theorem first_available_version_is_served dd iconId n tCheck tStore
    (store : NodeCache.t Cached) i v image :
  iconId <> [] -> safeInteger (Number_ iconId) = Some n ->
  (CacheService.getCachedIcon n tCheck store).1 = None ->
  [dataDragonVersion dd; js "15.18.1"; js "14.18.1"; js "14.17.1"; js "14.16.1"] !! i
    = Some v ->
  dd_icon dd (iconUrl v iconId) = Image image ->
  (forall j w, (j < i)%nat ->
     [dataDragonVersion dd; js "15.18.1"; js "14.18.1"; js "14.17.1"; js "14.16.1"] !! j
       = Some w ->
     forall other, dd_icon dd (iconUrl w iconId) <> Image other) ->
  getIcon dd iconId tCheck tStore store
  = Some (Sent imageHeaders (IconData image),
          (CacheService.cacheIcon n (IconData image) tStore
             (CacheService.getCachedIcon n tCheck store).2).2).
Proof.
  intros Hne Hn Hmiss Hv Himg Hearlier.
  rewrite (getIcon_accepted dd iconId n) by assumption. rewrite Hmiss.
  rewrite (tryVersions_first dd iconId n (versionsToTry dd) _ _ i v image);
    [reflexivity | exact Hv | exact Himg | exact Hearlier].
Qed.

Lemma first_available_version_is_served_witness :
  getIcon MoreExamples.dragon (js "6") 0 0 Cache.cache
  = Some (Sent imageHeaders (IconData [137; 80; 78; 71]%N),
          (CacheService.cacheIcon 6 (IconData [137; 80; 78; 71]%N) 0
             (CacheService.getCachedIcon 6 0 Cache.cache).2).2).
Proof.
  apply (first_available_version_is_served _ _ _ _ _ _ 2%nat (js "14.18.1")).
  - discriminate.
  - reflexivity.
  - reflexivity.
  - reflexivity.
  - reflexivity.
  - intros j w Hj Hw other. destruct j as [|[|j]]; [| |lia]; injection Hw as <-;
      vm_compute; discriminate.
Defined.

(** X25.  An image the route has fetched is served from the store, with the
    same bytes, to every request for the same icon made within 24 hours of
    the cache write, whatever Data Dragon does by then. *)
Theorem fetched_icon_is_cached dd iconId n t0 t1 (store store' : NodeCache.t Cached)
    headers payload dd' t2 t3 :
  iconId <> [] -> safeInteger (Number_ iconId) = Some n ->
  (CacheService.getCachedIcon n t0 store).1 = None ->
  getIcon dd iconId t0 t1 store = Some (Sent headers payload, store') ->
  t2 <= t1 + 86400 * 1000 ->
  exists store'',
    getIcon dd' iconId t2 t3 store' = Some (Sent imageHeaders payload, store'').
Proof.
  intros Hne Hn Hmiss Hfirst Hsoon.
  rewrite (getIcon_accepted dd iconId n) in Hfirst by assumption.
  rewrite Hmiss in Hfirst.
  destruct (tryVersions _ _ _ _ _ _) as [served|] eqn:Ht; [|discriminate].
  apply tryVersions_Some_inv in Ht as [image ->]. injection Hfirst as _ <- <-.
  rewrite (getIcon_accepted dd' iconId n) by assumption.
  unfold CacheService.getCachedIcon at 1 3, CacheService.get.
  unfold CacheService.cacheIcon, CacheService.set. cbn [Z.eqb CacheTTL.icon].
  erewrite NodeCache_get_live;
    [ | apply NodeCache_set_lookup; unfold CacheTTL.icon; lia
      | simpl; unfold CacheTTL.icon; lia ].
  simpl. eauto.
Qed.

Lemma fetched_icon_is_cached_witness :
  exists store'',
    getIcon MoreExamples.dragonDown (js "6") 86400000 86400001
      (CacheService.cacheIcon 6 (IconData [137; 80; 78; 71]%N) 0
         (CacheService.getCachedIcon 6 0 Cache.cache).2).2
    = Some (Sent imageHeaders (IconData [137; 80; 78; 71]%N), store'').
Proof.
  apply (fetched_icon_is_cached MoreExamples.dragon (js "6") 6 0 0 Cache.cache _
           imageHeaders).
  - discriminate.
  - reflexivity.
  - reflexivity.
  - reflexivity.
  - lia.
Defined.

(** X26.  When no version has the icon the route answers 404 "Icon not
    found", naming the id as it was given, and the entries of the store are
    left as they were. *)
Theorem missing_icon_is_not_found dd iconId n tCheck tStore (store : NodeCache.t Cached) :
  iconId <> [] -> safeInteger (Number_ iconId) = Some n ->
  (CacheService.getCachedIcon n tCheck store).1 = None ->
  (forall v, v ∈ versionsToTry dd ->
     forall image, dd_icon dd (iconUrl v iconId) <> Image image) ->
  exists store',
    getIcon dd iconId tCheck tStore store = Some (Json (iconNotFound iconId), store')
    /\ NodeCache.data store' = NodeCache.data store.
Proof.
  intros Hne Hn Hmiss Hnone.
  rewrite (getIcon_accepted dd iconId n) by assumption. rewrite Hmiss.
  rewrite tryVersions_none by assumption.
  eexists. split; [reflexivity|].
  unfold CacheService.getCachedIcon, CacheService.get. apply NodeCache_get_data.
Qed.

Lemma missing_icon_is_not_found_witness :
  exists store',
    getIcon MoreExamples.dragonDown (js "6") 0 0 Cache.cache
      = Some (Json (iconNotFound (js "6")), store')
    /\ NodeCache.data store' = NodeCache.data Cache.cache.
Proof.
  apply (missing_icon_is_not_found _ _ 6).
  - discriminate.
  - reflexivity.
  - reflexivity.
  - intros v _ image. discriminate.
Defined.

End IconRouteFacts.

Section IconIdFacts.
Import JS Cache Server NumberConversion IconRoute.

Local Ltac compare_units :=
  repeat match goal with
  | |- context [(?a <=? ?b)%N] => destruct (N.leb_spec a b)
  | |- context [(?a =? ?b)%N] => destruct (N.eqb_spec a b)
  | H : context [(?a <=? ?b)%N] |- _ => destruct (N.leb_spec a b)
  end;
  simpl in *; try reflexivity; try discriminate; try lia.

Lemma digit_is_no_whitespace c : isDigit c = true -> isWhiteSpace c = false.
Proof. unfold isDigit, isWhiteSpace. intros Hd. compare_units. Qed.

Lemma digit_is_plain c :
  isDigit c = true ->
  (c =? 45)%N = false /\ (c =? 43)%N = false /\ (c =? 46)%N = false
  /\ (c =? 101)%N = false /\ (c =? 69)%N = false
  /\ (c =? 120)%N = false /\ (c =? 88)%N = false /\ (c =? 111)%N = false
  /\ (c =? 79)%N = false /\ (c =? 98)%N = false /\ (c =? 66)%N = false
  /\ c <> 73%N.
Proof.
  unfold isDigit. intros Hd. repeat split; try (intros ->); compare_units.
Qed.

Lemma trim_digits s : Forall (fun c => isDigit c = true) s -> trim s = s.
Proof.
  intros Hs.
  assert (forall t, Forall (fun c => isDigit c = true) t -> trimStart t = t) as Hstart.
  { intros [|c t] Ht; [reflexivity|]. apply trimStart_fixed.
    apply digit_is_no_whitespace. inversion Ht; assumption. }
  unfold trim, trimEnd. rewrite (Hstart s Hs).
  rewrite Hstart; [apply rev_involutive|].
  apply Forall_forall. intros c Hc. rewrite Forall_forall in Hs. apply Hs.
  apply list_elem_of_In, in_rev, list_elem_of_In. exact Hc.
Qed.

Lemma digits_read_whole s :
  Forall (fun c => isDigit c = true) s ->
  restAfterDigits s = [] /\ (s <> [] -> leadingDigits s <> []).
Proof.
  induction 1 as [|c s Hc Hs [IH1 IH2]]; [split; [reflexivity | congruence]|].
  simpl. rewrite Hc. split; [assumption | discriminate].
Qed.

Lemma digitsValue_nonneg ds : 0 <= digitsValue ds.
Proof.
  unfold digitsValue.
  assert (forall acc, 0 <= acc ->
            0 <= foldl (fun acc d => 10 * acc + Z.of_N d) acc ds) as Hfold.
  { induction ds as [|d ds IH]; intros acc Hacc; [exact Hacc|].
    simpl. apply IH. lia. }
  apply Hfold. lia.
Qed.

Lemma unsignedDecimal_digits s :
  s <> [] -> Forall (fun c => isDigit c = true) s ->
  unsignedDecimal s = Finite (digitsValue (leadingDigits s)) 0.
Proof.
  intros Hne Hs. destruct (digits_read_whole s Hs) as [Hrest Hlead].
  unfold unsignedDecimal. rewrite decide_False.
  - rewrite Hrest. cbn [exponentPart length]. rewrite app_nil_r.
    destruct (leadingDigits s) eqn:Hl; [exfalso; apply (Hlead Hne); reflexivity|].
    reflexivity.
  - intros ->. inversion Hs as [|c t Hc _]. apply digit_is_plain in Hc.
    destruct Hc as (_ & _ & _ & _ & _ & _ & _ & _ & _ & _ & _ & Hc). apply Hc.
    reflexivity.
Qed.

(** X27.  Every non-empty run of decimal digits whose value is at most 2^53
    is accepted as an icon id: its number is that value, and the route does
    not answer 400 for it. *)
Theorem decimal_icon_id_is_accepted dd s tCheck tStore (store : NodeCache.t Cached) :
  s <> [] -> Forall (fun c => isDigit c = true) s ->
  digitsValue (leadingDigits s) <= 2 ^ 53 ->
  safeInteger (Number_ s) = Some (digitsValue (leadingDigits s))
  /\ exists answer store',
       getIcon dd s tCheck tStore store = Some (answer, store')
       /\ answer <> Json invalidIconId.
Proof.
  intros Hne Hs Hsmall. pose proof (digitsValue_nonneg (leadingDigits s)) as Hpos.
  assert (Number_ s = Finite (digitsValue (leadingDigits s)) 0) as Hnumber.
  { unfold Number_. rewrite (trim_digits s Hs).
    destruct s as [|c r]; [contradiction|].
    inversion Hs as [|? ? Hc Hr]; subst.
    destruct (digit_is_plain c Hc) as (-> & -> & _).
    destruct r as [|x digits]; [apply unsignedDecimal_digits; assumption|].
    inversion Hr as [|? ? Hx _]; subst.
    destruct (digit_is_plain x Hx)
      as (_ & _ & _ & _ & _ & -> & -> & -> & -> & -> & -> & _).
    rewrite !andb_false_r. apply unsignedDecimal_digits; assumption. }
  assert (safeInteger (Number_ s) = Some (digitsValue (leadingDigits s))) as Hsafe.
  { rewrite Hnumber. unfold safeInteger.
    destruct (Z.eqb_spec (digitsValue (leadingDigits s)) 0) as [->|Hnz];
      [reflexivity|].
    cbn [Z.leb Z.compare]. rewrite Z.pow_0_r, Z.mul_1_r.
    destruct (Z.leb_spec (Z.abs (digitsValue (leadingDigits s))) (2 ^ 53));
      [reflexivity | lia]. }
  split; [exact Hsafe|].
  rewrite (getIcon_accepted dd s _ tCheck tStore store Hne Hsafe).
  destruct (CacheService.getCachedIcon _ tCheck store).1;
    [eexists; eexists; split; [reflexivity | discriminate]|].
  destruct (tryVersions _ _ _ _ _ _) as [[answer store']|] eqn:Ht.
  - apply tryVersions_Some_inv in Ht as [image [= -> ->]].
    eexists; eexists; split; [reflexivity | discriminate].
  - eexists; eexists; split; [reflexivity|]. intros Heq. inversion Heq.
Qed.

Lemma decimal_icon_id_is_accepted_witness :
  safeInteger (Number_ (js "0588")) = Some (digitsValue (leadingDigits (js "0588")))
  /\ exists answer store',
       getIcon MoreExamples.dragonDown (js "0588") 0 0 Cache.cache
         = Some (answer, store')
       /\ answer <> Json invalidIconId.
Proof.
  apply decimal_icon_id_is_accepted.
  - discriminate.
  - repeat constructor.
  - vm_compute. discriminate.
Defined.

End IconIdFacts.
